(** * Statistics, advisory rules, range histograms and reply parsing

    A shallow embedding of the computation core of the formulation explorer:

    - [computeStats], [statsForField] and [buildAdvisorSections]
      (services/advisor.ts),
    - [computeOutputStats], [buildHistogramData] and the state of the range
      view with its handlers (components/MeasurementRange.tsx),
    - [parseLlmSections] and the choice of the anchor
      (components/OptimizationAdvisor.tsx),
    - [allKeys] and [getValue] (data/experiments.ts), [buildScatterData]
      (components/ScatterExplorer.tsx),
    - the statistics line of the prompt (services/advisorLLM.ts).

    Modelling conventions.

    - A JavaScript number is a value of [number]: [NaN], the two infinities, or
      a finite value carried as an exact rational ([Qc], canonical fractions,
      so that [===] on finite values is Leibniz equality).  Arithmetic on the
      finite values is exact: the rounding of binary64 and its overflow to an
      infinity are not part of this model, and the two zeros are one.  The
      special values follow IEEE 754 (an infinity minus itself is [NaN], a
      division by zero gives an infinity, comparisons with [NaN] are false).
    - [computeStats] and the thresholds [high] and [low] are given a second
      time on the doubles themselves ([Binary64]: primitive floats, IEEE 754
      binary64 with rounding to nearest even).  What depends on the rounding
      or on the overflow of a sum or of a product is stated and proved
      there, against the specification of the primitive operations
      ([SpecFloat]).
    - A property read [o[k]] on a [Record<string, number>] is a lookup in a
      [gmap string number]; [None] is JavaScript's [undefined].
    - A string is its sequence of bytes ([string], UTF-8 for the few characters
      outside ASCII in the message texts).
    - Code that can raise returns an [outcome]; local arrays that the source
      fills with [push] are threaded explicitly.
    - What the host prints for a number of magnitude [10^21] and more is a
      parameter of the formatting ([toStringLarge]).
    - The state of a component is a record, and each of its handlers a
      transition on it. *)

From Stdlib Require Import ZArith QArith Qcanon Qround Qabs Lia Lqa Floats.
From Stdlib Require Import String Ascii DecimalString.
From stdpp Require Import base option list sorting gmap strings.

Local Open Scope Z_scope.
Local Open Scope string_scope.
Local Open Scope list_scope.

(** ** Numbers *)

Inductive number : Type :=
| NaN
| PosInfinity
| NegInfinity
| Fin (q : Qc).

#[global] Instance number_eq_dec : EqDecision number.
Proof. solve_decision. Defined.

Module Num.

Definition zero : number := Fin (Q2Qc 0).

Definition ofZ (z : Z) : number := Fin (Q2Qc (inject_Z z)).

Definition ofNat (n : nat) : number := ofZ (Z.of_nat n).

(** [n / d] as a decimal literal, e.g. [dec 115 100] for [1.15]. *)
Definition dec (n : Z) (d : positive) : number := Fin (Q2Qc (n # d)).

(** Sign of a number other than [NaN]; zero is [Eq]. *)
Definition sign (a : number) : comparison :=
  match a with
  | NaN => Eq
  | PosInfinity => Gt
  | NegInfinity => Lt
  | Fin q => (q ?= Q2Qc 0)%Qc
  end.

Definition sign_mul (s t : comparison) : comparison :=
  match s, t with
  | Eq, _ | _, Eq => Eq
  | Gt, Gt | Lt, Lt => Gt
  | Gt, Lt | Lt, Gt => Lt
  end.

(** The infinity of a given sign; no sign (zero times infinity) is [NaN]. *)
Definition inf (s : comparison) : number :=
  match s with
  | Gt => PosInfinity
  | Lt => NegInfinity
  | Eq => NaN
  end.

Definition neg (a : number) : number :=
  match a with
  | NaN => NaN
  | PosInfinity => NegInfinity
  | NegInfinity => PosInfinity
  | Fin q => Fin (- q)%Qc
  end.

Definition add (a b : number) : number :=
  match a, b with
  | NaN, _ | _, NaN => NaN
  | Fin x, Fin y => Fin (x + y)%Qc
  | PosInfinity, NegInfinity | NegInfinity, PosInfinity => NaN
  | PosInfinity, _ | _, PosInfinity => PosInfinity
  | NegInfinity, _ | _, NegInfinity => NegInfinity
  end.

Definition sub (a b : number) : number := add a (neg b).

Definition mul (a b : number) : number :=
  match a, b with
  | NaN, _ | _, NaN => NaN
  | Fin x, Fin y => Fin (x * y)%Qc
  | _, _ => inf (sign_mul (sign a) (sign b))
  end.

(** Division; the divisor zero counts as the positive zero. *)
Definition div (a b : number) : number :=
  match a, b with
  | NaN, _ | _, NaN => NaN
  | Fin x, Fin y =>
      if decide (y = Q2Qc 0) then inf (sign a) else Fin (x / y)%Qc
  | Fin _, _ => zero
  | _, Fin y => if decide (y = Q2Qc 0) then a else inf (sign_mul (sign a) (sign b))
  | _, _ => NaN
  end.

(** Order as [option comparison]: [None] when either side is [NaN]. *)
Definition cmp (a b : number) : option comparison :=
  match a, b with
  | NaN, _ | _, NaN => None
  | Fin x, Fin y => Some (x ?= y)%Qc
  | PosInfinity, PosInfinity | NegInfinity, NegInfinity => Some Eq
  | PosInfinity, _ | _, NegInfinity => Some Gt
  | NegInfinity, _ | _, PosInfinity => Some Lt
  end.

Definition lt (a b : number) : bool :=
  match cmp a b with Some Lt => true | _ => false end.
Definition gt (a b : number) : bool := lt b a.
Definition le (a b : number) : bool :=
  match cmp a b with Some Lt | Some Eq => true | _ => false end.
Definition ge (a b : number) : bool := le b a.

(** Strict equality [===] of two numbers. *)
Definition eq (a b : number) : bool :=
  match cmp a b with Some Eq => true | _ => false end.

Definition isNaN (a : number) : bool :=
  match a with NaN => true | _ => false end.

Definition isFinite (a : number) : bool :=
  match a with Fin _ => true | _ => false end.

Definition floor (a : number) : number :=
  match a with
  | Fin q => ofZ (Qfloor q)
  | _ => a
  end.

(** [Math.min(a, b)] and [Math.max(a, b)]. *)
Definition min2 (a b : number) : number :=
  match cmp a b with
  | None => NaN
  | Some Gt => b
  | Some _ => a
  end.

Definition max2 (a b : number) : number :=
  match cmp a b with
  | None => NaN
  | Some Lt => b
  | Some _ => a
  end.

(** [Math.min(...l)] and [Math.max(...l)]; on no argument they are
    [Infinity] and [-Infinity]. *)
Definition min (l : list number) : number := fold_left min2 l PosInfinity.
Definition max (l : list number) : number := fold_left max2 l NegInfinity.

End Num.

Declare Scope num_scope.
Delimit Scope num_scope with num.
Bind Scope num_scope with number.
Infix "+" := Num.add : num_scope.
Infix "-" := Num.sub : num_scope.
Infix "*" := Num.mul : num_scope.
Infix "/" := Num.div : num_scope.
Infix "<?" := Num.lt : num_scope.
Infix ">?" := Num.gt : num_scope.
Infix "<=?" := Num.le : num_scope.
Infix ">=?" := Num.ge : num_scope.
Infix "===" := Num.eq (at level 70) : num_scope.

(** ** Statistics (advisor.ts) *)

(** [type Stats = { mean; min; max }]. *)
Module Stats.
Record t : Type := mk { mean : number; min : number; max : number }.
End Stats.

(** The test [typeof v === 'number' && Number.isFinite(v)] of the filter in
    [computeStats]: [valid_value v] is the number that passes it. *)
Definition valid_value (v : option number) : option number :=
  match v with
  | Some x => if Num.isFinite x then Some x else None
  | None => None
  end.

Definition computeStats (values : list (option number)) : Stats.t :=
  let valid := omap valid_value values in
  if decide (length valid = 0%nat) then
    Stats.mk Num.zero Num.zero Num.zero
  else
    let min := Num.min valid in
    let max := Num.max valid in
    let mean :=
      (fold_left Num.add valid Num.zero / Num.ofNat (length valid))%num in
    Stats.mk mean min max.

(** *** [computeStats] and the thresholds on binary64

    The same functions on the doubles themselves (primitive floats, IEEE 754
    binary64 with rounding to nearest even): the sum, the division and the
    two products round, and overflow to an infinity, as they do in the
    program. *)
Module Binary64.

Record Stats : Type := mk { mean : float; min : float; max : float }.

(** [Math.min(a, b)] and [Math.max(a, b)]: [NaN] if either is, and the
    negative zero below the positive one. *)
Definition min2 (a b : float) : float :=
  if (PrimFloat.is_nan a || PrimFloat.is_nan b)%bool then PrimFloat.nan
  else if PrimFloat.ltb b a then b
  else if PrimFloat.ltb a b then a
  else if PrimFloat.get_sign b then b else a.

Definition max2 (a b : float) : float :=
  if (PrimFloat.is_nan a || PrimFloat.is_nan b)%bool then PrimFloat.nan
  else if PrimFloat.ltb a b then b
  else if PrimFloat.ltb b a then a
  else if PrimFloat.get_sign a then b else a.

Definition ofNat (n : nat) : float :=
  PrimFloat.of_uint63 (Uint63.of_Z (Z.of_nat n)).

Definition valid_value (v : option float) : option float :=
  match v with
  | Some x => if PrimFloat.is_finite x then Some x else None
  | None => None
  end.

Definition computeStats (values : list (option float)) : Stats :=
  let valid := omap valid_value values in
  if decide (length valid = 0%nat) then
    mk PrimFloat.zero PrimFloat.zero PrimFloat.zero
  else
    let min := fold_left min2 valid PrimFloat.infinity in
    let max := fold_left max2 valid PrimFloat.neg_infinity in
    let mean :=
      PrimFloat.div (fold_left PrimFloat.add valid PrimFloat.zero)
        (ofNat (length valid)) in
    mk mean min max.

(** The double nearest to [0.1]. *)
Definition tenth : float := 0x1.999999999999ap-4%float.

(** The doubles that the literals [1.15], [0.85] and [1.1500001] denote. *)
Definition c115 : float := 0x1.2666666666666p+0%float.
Definition c085 : float := 0x1.b333333333333p-1%float.
Definition c1150001 : float := 0x1.26666813e5901p+0%float.

(** [const high = (value, stats) => value > stats.mean * 1.15] and
    [const low = (value, stats) => value < stats.mean * 0.85]. *)
Definition high (value : float) (stats : Stats) : bool :=
  PrimFloat.ltb (PrimFloat.mul (mean stats) c115) value.
Definition low (value : float) (stats : Stats) : bool :=
  PrimFloat.ltb value (PrimFloat.mul (mean stats) c085).

(** The finite numbers of the input, and the least and the greatest of a
    list of doubles, in the words of the specification. *)
Definition finite_values (values : list (option float)) : list float :=
  filter (fun x => PrimFloat.is_finite x = true) (omap id values).

Definition least (m : float) (xs : list float) : Prop :=
  m ∈ xs ∧ ∀ x, x ∈ xs → PrimFloat.leb m x = true.

Definition greatest (m : float) (xs : list float) : Prop :=
  m ∈ xs ∧ ∀ x, x ∈ xs → PrimFloat.leb x m = true.

(** The smallest normal double, [2^-1022]. *)
Definition smallest_normal : float := 0x1p-1022%float.

End Binary64.

(** *** The rounding of a product, for the proofs

    [NaN] in [spec_float]; the mantissa and the exponent that one step of
    [shr_fexp] leaves; the double of a mantissa and an exponent after
    rounding; and the mantissas of the doubles [1.15], [0.85] and
    [1.1500001]. *)
Definition SFisnan (x : spec_float) : bool :=
  match x with S754_nan => true | _ => false end.

Definition shifted (m e : Z) : Z * Z :=
  let n := fexp prec emax (Zdigits2 m + e) - e in
  if (0 <? n)%Z then (m / 2 ^ n, e + n) else (m, e).

Definition pack (m e : Z) : spec_float :=
  match m with
  | Z0 => S754_zero false
  | Zpos p => if (e <=? emax - prec)%Z then S754_finite false p e
              else S754_infinity false
  | Zneg _ => S754_nan
  end.

Definition mant115 : positive := 5179139571476070.
Definition mant085 : positive := 7656119366529843.
Definition mant115more : positive := 5179140021836033.

(** [interface Experiment { id; inputs; outputs }] (data/experiments.ts). *)
Module Experiment.
Record t : Type :=
  mk { id : string; inputs : gmap string number; outputs : gmap string number }.
End Experiment.

Inductive kind : Type := input | output.

Definition statsForField
    (experiments : list Experiment.t) (field : string) (k : kind) : Stats.t :=
  let values :=
    map (fun e =>
           match k with
           | input => Experiment.inputs e !! field
           | output => Experiment.outputs e !! field
           end) experiments in
  computeStats values.

(** The two threshold helpers of [buildAdvisorSections] and their bounds. *)
Definition high (value : number) (stats : Stats.t) : bool :=
  (value >? Stats.mean stats * Num.dec 115 100)%num.
Definition low (value : number) (stats : Stats.t) : bool :=
  (value <? Stats.mean stats * Num.dec 85 100)%num.

Definition highThreshold (stats : Stats.t) : number :=
  (Stats.mean stats * Num.dec 115 100)%num.
Definition lowThreshold (stats : Stats.t) : number :=
  (Stats.mean stats * Num.dec 85 100)%num.

(** *** The statistics in the words of the specification

    The finite values of the input, and what it is to be the least or the
    greatest of them. *)

Definition finite_values (values : list (option number)) : list Qc :=
  omap (fun v => match v with Some (Fin q) => Some q | _ => None end) values.

Definition Qc_of_nat (n : nat) : Qc := Q2Qc (inject_Z (Z.of_nat n)).

Definition least (m : Qc) (qs : list Qc) : Prop :=
  m ∈ qs ∧ ∀ q, q ∈ qs → (m <= q)%Qc.

Definition greatest (m : Qc) (qs : list Qc) : Prop :=
  m ∈ qs ∧ ∀ q, q ∈ qs → (q <= m)%Qc.

(** ** Strings *)

(** The double quote and the line feed, as one-character strings. *)
Definition dq : string := String (ascii_of_nat 34) EmptyString.
Definition nl : string := String (ascii_of_nat 10) EmptyString.

(** [l.join(sep)]. *)
Definition join (sep : string) (l : list string) : string := String.concat sep l.

(** Decimal digits of a natural number, ["0"] for zero. *)
Definition digits (n : Z) : string :=
  DecimalString.NilZero.string_of_uint (N.to_uint (Z.to_N n)).

(** Zeros in front of [s] up to the length [k]. *)
Fixpoint zeros (k : nat) : string :=
  match k with
  | O => EmptyString
  | S k' => String "0"%char (zeros k')
  end.

Definition padZeros (k : nat) (s : string) : string :=
  zeros (k - String.length s) +:+ s.

(** ** Results *)

(** [type AdvisorSection = { id; title; bullets; why }] (advisor.ts). *)
Module AdvisorSection.
Record t : Type :=
  mk { id : string; title : string; bullets : list string; why : string }.
End AdvisorSection.

(** [interface HistogramBin { binLabel; count }] and the result of
    [buildHistogramData] (MeasurementRange.tsx). *)
Module HistogramBin.
Record t : Type := mk { binLabel : string; count : nat }.
End HistogramBin.

Module Histogram.
Record t : Type := mk { bins : list HistogramBin.t; matchingCount : nat }.
End Histogram.

(** What a call does: it returns a value or it throws. *)
Inductive exn : Type :=
| TypeError.

Inductive outcome (A : Type) : Type :=
| Returns (a : A)
| Throws (e : exn).
Arguments Returns {A} a.
Arguments Throws {A} e.

#[global] Instance outcome_ret : MRet outcome := @Returns.

#[global] Instance outcome_bind : MBind outcome :=
  fun A B (f : A -> outcome B) (m : outcome A) =>
    match m with
    | Returns a => f a
    | Throws e => Throws e
    end.

(** [for (const x of l) body], the body acting on a state that it may fail
    to produce. *)
Fixpoint forOf {A S : Type} (l : list A) (body : S -> A -> outcome S) (s : S)
    : outcome S :=
  match l with
  | [] => Returns s
  | x :: l' => s' ← body s x; forOf l' body s'
  end.

(** ** Number formatting *)

Section Formatting.

(** [Number.prototype.toString] on a finite value of magnitude at least
    [10^21]: exponential notation with the shortest digits that read back as
    the same double.  It depends on the binary64 representation, which the
    model does not have, and is left to the host. *)
Variable toStringLarge : Qc -> string.

(** [x.toFixed(fractionDigits)] (ECMA-262, Number.prototype.toFixed): the
    integer [n] nearest to [|x| * 10^f], the larger one on a tie, written with
    at least [f + 1] digits and a point before the last [f]. *)
Definition toFixed (x : number) (fractionDigits : nat) : string :=
  match x with
  | NaN => "NaN"
  | PosInfinity => "Infinity"
  | NegInfinity => "-Infinity"
  | Fin q =>
      let a := Qabs q in
      if Qle_bool (inject_Z (10 ^ 21)) a then toStringLarge q
      else
        let s := if Qle_bool 0 q then EmptyString else "-" in
        let n :=
          Qfloor (a * inject_Z (10 ^ Z.of_nat fractionDigits) + (1 # 2))%Q in
        let m := padZeros (S fractionDigits) (digits n) in
        let k := String.length m in
        match fractionDigits with
        | O => s +:+ m
        | _ =>
            s +:+ substring 0 (k - fractionDigits) m +:+ "."
              +:+ substring (k - fractionDigits) fractionDigits m
        end
  end.

(** ** The advisor (advisor.ts) *)

(** The cost levers: the bullets of the card and the lines of its
    explanation, in the order in which the source pushes them. *)
Definition costLevers (anchorInputs : gmap string number)
    (coAgent1Stats coAgent2Stats carbonBlackHighStats : Stats.t)
    : list string * list string :=
  let bulletsCost : list string := [] in
  let whyCostLines : list string := [] in
  let '(bulletsCost, whyCostLines) :=
    match anchorInputs !! "Co-Agent 1" with
    | Some v =>
        if high v coAgent1Stats then
          (bulletsCost ++
             ["Co-Agent 1 is relatively high here (" +:+ toFixed v 1
              +:+ " vs dataset mean " +:+ toFixed (Stats.mean coAgent1Stats) 1
              +:+ " phr). You could explore mixes that trade some of this for cheaper fillers while staying within the "
              +:+ toFixed (Stats.min coAgent1Stats) 1 +:+ "–"
              +:+ toFixed (Stats.max coAgent1Stats) 1
              +:+ " phr window observed in past runs."],
           whyCostLines ++
             ["Co-Agent 1: value = " +:+ toFixed v 2 +:+ " phr, mean = "
              +:+ toFixed (Stats.mean coAgent1Stats) 2 +:+ " phr, range = "
              +:+ toFixed (Stats.min coAgent1Stats) 2 +:+ "–"
              +:+ toFixed (Stats.max coAgent1Stats) 2 +:+ " phr. Rule: "
              +:+ dq +:+ "high" +:+ dq +:+ " if value > 1.15×mean ("
              +:+ toFixed (highThreshold coAgent1Stats) 2 +:+ ")."])
        else if low v coAgent1Stats then
          (bulletsCost ++
             ["Co-Agent 1 is on the low side (" +:+ toFixed v 1
              +:+ " phr). If you need more performance headroom, there is room to increase up towards the historical mean "
              +:+ toFixed (Stats.mean coAgent1Stats) 1 +:+ " phr."],
           whyCostLines ++
             ["Co-Agent 1: value = " +:+ toFixed v 2 +:+ " phr, mean = "
              +:+ toFixed (Stats.mean coAgent1Stats) 2 +:+ " phr. Rule: "
              +:+ dq +:+ "low" +:+ dq +:+ " if value < 0.85×mean ("
              +:+ toFixed (lowThreshold coAgent1Stats) 2 +:+ ")."])
        else (bulletsCost, whyCostLines)
    | None => (bulletsCost, whyCostLines)
    end in
  let '(bulletsCost, whyCostLines) :=
    match anchorInputs !! "Co-Agent 2" with
    | Some v =>
        if high v coAgent2Stats then
          (bulletsCost ++
             ["Co-Agent 2 is also high (" +:+ toFixed v 1
              +:+ " vs dataset mean " +:+ toFixed (Stats.mean coAgent2Stats) 1
              +:+ " phr). Experiments that substitute some of this for cheaper filler systems may reduce cost while staying within the "
              +:+ toFixed (Stats.min coAgent2Stats) 1 +:+ "–"
              +:+ toFixed (Stats.max coAgent2Stats) 1
              +:+ " phr historical band."],
           whyCostLines ++
             ["Co-Agent 2: value = " +:+ toFixed v 2 +:+ " phr, mean = "
              +:+ toFixed (Stats.mean coAgent2Stats) 2 +:+ " phr, range = "
              +:+ toFixed (Stats.min coAgent2Stats) 2 +:+ "–"
              +:+ toFixed (Stats.max coAgent2Stats) 2 +:+ " phr. Rule: "
              +:+ dq +:+ "high" +:+ dq +:+ " if value > 1.15×mean ("
              +:+ toFixed (highThreshold coAgent2Stats) 2 +:+ ")."])
        else (bulletsCost, whyCostLines)
    | None => (bulletsCost, whyCostLines)
    end in
  let '(bulletsCost, whyCostLines) :=
    match anchorInputs !! "Carbon Black High Grade" with
    | Some v =>
        if high v carbonBlackHighStats then
          (bulletsCost ++
             ["Carbon Black High Grade is near the top of the historical range ("
              +:+ toFixed v 1 +:+ " vs mean "
              +:+ toFixed (Stats.mean carbonBlackHighStats) 1
              +:+ " phr). If cost is driving, you could search for runs that partially replace this with lower grade carbon black or silica filler while watching mechanical properties."],
           whyCostLines ++
             ["Carbon Black High Grade: value = " +:+ toFixed v 2
              +:+ " phr, mean = " +:+ toFixed (Stats.mean carbonBlackHighStats) 2
              +:+ " phr, range = " +:+ toFixed (Stats.min carbonBlackHighStats) 2
              +:+ "–" +:+ toFixed (Stats.max carbonBlackHighStats) 2
              +:+ " phr. Rule: " +:+ dq +:+ "high" +:+ dq
              +:+ " if value > 1.15×mean ("
              +:+ toFixed (highThreshold carbonBlackHighStats) 2 +:+ ")."])
        else (bulletsCost, whyCostLines)
    | None => (bulletsCost, whyCostLines)
    end in
  (* If nothing fired, a gentle message that no cost flag was raised. *)
  if decide (length bulletsCost = 0%nat) then
    (bulletsCost ++
       ["The current run sits close to typical loadings for the main co-agents and fillers. Cost levers are likely to come from incremental filler substitutions rather than large stoichiometric changes."],
     whyCostLines ++
       ["No major cost outliers detected for the tracked co-agents and fillers (all within ±15% of historical means)."])
  else (bulletsCost, whyCostLines).

(** Cure time and oven utilisation.  No fallback follows the two rules. *)
Definition cureAndOven (anchorInputs anchorOutputs : gmap string number)
    (cureTimeStats ovenStats : Stats.t) : list string * list string :=
  let bulletsCure : list string := [] in
  let whyCureLines : list string := [] in
  let '(bulletsCure, whyCureLines) :=
    match anchorOutputs !! "Cure Time" with
    | Some v =>
        if high v cureTimeStats then
          (bulletsCure ++
             ["Cure time (" +:+ toFixed v 2
              +:+ " min) is slower than the dataset mean ("
              +:+ toFixed (Stats.mean cureTimeStats) 2
              +:+ " min). You could prioritise designs with slightly higher oven temperatures or co-agent loadings that move you back towards the lower half of the observed cure-time window."],
           whyCureLines ++
             ["Cure Time: value = " +:+ toFixed v 2 +:+ " min, mean = "
              +:+ toFixed (Stats.mean cureTimeStats) 2 +:+ " min. Rule: "
              +:+ dq +:+ "slow" +:+ dq +:+ " if value > 1.15×mean ("
              +:+ toFixed (highThreshold cureTimeStats) 2 +:+ ")."])
        else
          (bulletsCure ++
             ["Cure time (" +:+ toFixed v 2
              +:+ " min) is already at or better than the dataset mean ("
              +:+ toFixed (Stats.mean cureTimeStats) 2
              +:+ " min). This run can act as a reference when optimising cost without sacrificing turn-around."],
           whyCureLines ++
             ["Cure Time: value = " +:+ toFixed v 2 +:+ " min, mean = "
              +:+ toFixed (Stats.mean cureTimeStats) 2
              +:+ " min. Rule: considered " +:+ dq +:+ "acceptable" +:+ dq
              +:+ " if within ±15% of mean."])
    | None => (bulletsCure, whyCureLines)
    end in
  let '(bulletsCure, whyCureLines) :=
    match anchorInputs !! "Oven Temperature" with
    | Some v =>
        if high v ovenStats then
          (bulletsCure ++
             ["Oven temperature is at the upper part of the historical range ("
              +:+ toFixed v 0 +:+ " °F vs " +:+ toFixed (Stats.min ovenStats) 0
              +:+ "–" +:+ toFixed (Stats.max ovenStats) 0
              +:+ " °F). If energy usage is a concern, you could explore nearby recipes that operate slightly cooler while confirming they preserve cure time and performance."],
           whyCureLines ++
             ["Oven Temperature: value = " +:+ toFixed v 0 +:+ " °F, range = "
              +:+ toFixed (Stats.min ovenStats) 0 +:+ "–"
              +:+ toFixed (Stats.max ovenStats) 0 +:+ " °F. Rule: "
              +:+ dq +:+ "high" +:+ dq +:+ " if value > 1.15×mean ("
              +:+ toFixed (highThreshold ovenStats) 0 +:+ ")."])
        else
          (bulletsCure ++
             ["Oven temperature is moderate (" +:+ toFixed v 0
              +:+ " °F). There may be room to push temperature up slightly for faster cure when cycle-time pressure is high."],
           whyCureLines ++
             ["Oven Temperature: value = " +:+ toFixed v 0 +:+ " °F, mean = "
              +:+ toFixed (Stats.mean ovenStats) 0
              +:+ " °F. Rule: considered " +:+ dq +:+ "moderate" +:+ dq
              +:+ " if within historical min–max."])
    | None => (bulletsCure, whyCureLines)
    end in
  (bulletsCure, whyCureLines).

(** Field performance and scrap. *)
Definition fieldPerformance (anchorOutputs : gmap string number)
    (compressionStats elongationStats : Stats.t) : list string * list string :=
  let bulletsField : list string := [] in
  let whyFieldLines : list string := [] in
  let '(bulletsField, whyFieldLines) :=
    match anchorOutputs !! "Compression Set" with
    | Some v =>
        if (v <=? Stats.mean compressionStats)%num then
          (bulletsField ++
             ["Compression set (" +:+ toFixed v 1
              +:+ " %) is at or below the dataset mean ("
              +:+ toFixed (Stats.mean compressionStats) 1
              +:+ " %), which is favourable for long-term sealing and lower scrap risk."],
           whyFieldLines ++
             ["Compression Set: value = " +:+ toFixed v 1 +:+ " %, mean = "
              +:+ toFixed (Stats.mean compressionStats) 1 +:+ " %. Rule: "
              +:+ dq +:+ "favourable" +:+ dq +:+ " if value ≤ mean."])
        else
          (bulletsField ++
             ["Compression set (" +:+ toFixed v 1
              +:+ " %) is higher than typical (mean "
              +:+ toFixed (Stats.mean compressionStats) 1
              +:+ " %). When changing formulation, you may want to bias towards regions where compression set trends lower, even if it costs a small amount of elongation."],
           whyFieldLines ++
             ["Compression Set: value = " +:+ toFixed v 1 +:+ " %, mean = "
              +:+ toFixed (Stats.mean compressionStats) 1 +:+ " %. Rule: "
              +:+ dq +:+ "high" +:+ dq +:+ " if value > mean."])
    | None => (bulletsField, whyFieldLines)
    end in
  let '(bulletsField, whyFieldLines) :=
    match anchorOutputs !! "Elongation" with
    | Some v =>
        if high v elongationStats then
          (bulletsField ++
             ["Elongation (" +:+ toFixed v 1
              +:+ " %) is in the upper half of the dataset (mean "
              +:+ toFixed (Stats.mean elongationStats) 1
              +:+ " %). That gives some headroom to trade a little elongation for cost or compression-set improvements."],
           whyFieldLines ++
             ["Elongation: value = " +:+ toFixed v 1 +:+ " %, mean = "
              +:+ toFixed (Stats.mean elongationStats) 1 +:+ " %. Rule: "
              +:+ dq +:+ "high" +:+ dq +:+ " if value > 1.15×mean ("
              +:+ toFixed (highThreshold elongationStats) 1 +:+ ")."])
        else if low v elongationStats then
          (bulletsField ++
             ["Elongation (" +:+ toFixed v 1
              +:+ " %) is lower than typical. When pushing cost down, it will be important to watch this metric so it does not erode further."],
           whyFieldLines ++
             ["Elongation: value = " +:+ toFixed v 1 +:+ " %, mean = "
              +:+ toFixed (Stats.mean elongationStats) 1 +:+ " %. Rule: "
              +:+ dq +:+ "low" +:+ dq +:+ " if value < 0.85×mean ("
              +:+ toFixed (lowThreshold elongationStats) 1 +:+ ")."])
        else (bulletsField, whyFieldLines)
    | None => (bulletsField, whyFieldLines)
    end in
  if decide (length bulletsField = 0%nat) then
    (bulletsField ++
       ["Mechanical performance sits near the centre of the historical cloud. Future trials can explore small movements along the cost / cure-time axes while monitoring compression set and elongation."],
     whyFieldLines ++
       ["No major performance outliers detected for Compression Set or Elongation (both within ±15% of historical means)."])
  else (bulletsField, whyFieldLines).

Definition buildAdvisorSections
    (anchor : Experiment.t) (allExperiments : list Experiment.t)
    : list AdvisorSection.t :=
  let coAgent1Stats := statsForField allExperiments "Co-Agent 1" input in
  let coAgent2Stats := statsForField allExperiments "Co-Agent 2" input in
  let carbonBlackHighStats :=
    statsForField allExperiments "Carbon Black High Grade" input in
  let ovenStats := statsForField allExperiments "Oven Temperature" input in
  let cureTimeStats := statsForField allExperiments "Cure Time" output in
  let compressionStats :=
    statsForField allExperiments "Compression Set" output in
  let elongationStats := statsForField allExperiments "Elongation" output in
  let anchorInputs := Experiment.inputs anchor in
  let anchorOutputs := Experiment.outputs anchor in
  let '(bulletsCost, whyCostLines) :=
    costLevers anchorInputs coAgent1Stats coAgent2Stats carbonBlackHighStats in
  let '(bulletsCure, whyCureLines) :=
    cureAndOven anchorInputs anchorOutputs cureTimeStats ovenStats in
  let '(bulletsField, whyFieldLines) :=
    fieldPerformance anchorOutputs compressionStats elongationStats in
  [ AdvisorSection.mk "cost" "Cost levers" bulletsCost (join nl whyCostLines);
    AdvisorSection.mk "cure" "Cure time & oven utilisation" bulletsCure
      (join nl whyCureLines);
    AdvisorSection.mk "field" "Field performance & scrap" bulletsField
      (join nl whyFieldLines) ].

(** ** The range histogram (MeasurementRange.tsx) *)

(** The guard [v != null && !Number.isNaN(v)]: the number that passes it. *)
Definition recorded (v : option number) : option number :=
  match v with
  | Some x => if Num.isNaN x then None else Some x
  | None => None
  end.

(** The window test of the filter: the output is recorded and inside
    [[minOut, maxOut]]. *)
Definition inWindow (outputKey : string) (minOut maxOut : number)
    (exp : Experiment.t) : bool :=
  match Experiment.outputs exp !! outputKey with
  | Some outVal =>
      negb (Num.isNaN outVal) && (outVal >=? minOut)%num
        && (outVal <=? maxOut)%num
  | None => false
  end.

(** The position that a number names in an array: a non-negative integer
    does, and reading at any other number gives [undefined]. *)
Definition arrayIndex (i : number) : option nat :=
  match i with
  | Fin q =>
      if decide (q = Q2Qc (inject_Z (Qfloor q)) ∧ 0 <= Qfloor q)
      then Some (Z.to_nat (Qfloor q))
      else None
  | _ => None
  end.

(** The body of the counting loop: [rawBins[index].count += 1] raises a
    [TypeError] when [rawBins[index]] is [undefined]. *)
Definition countValue (minVal step : number) (binCount : nat)
    (rawBins : list HistogramBin.t) (v : number) : outcome (list HistogramBin.t) :=
  let index := Num.floor ((v - minVal) / step)%num in
  let index :=
    if (index >=? Num.ofNat binCount)%num
    then (Num.ofNat binCount - Num.ofZ 1)%num
    else index in
  match arrayIndex index with
  | Some i =>
      match rawBins !! i with
      | Some b =>
          Returns
            (<[i := HistogramBin.mk (HistogramBin.binLabel b)
                      (HistogramBin.count b + 1)]> rawBins)
      | None => Throws TypeError
      end
  | None => Throws TypeError
  end.

(** The first two steps of [buildHistogramData]: the experiments whose output
    is inside the window ([filtered]) and the inputs recorded on them
    ([values]). *)
Definition matchingExperiments (experiments : list Experiment.t)
    (outputKey : string) (minOut maxOut : number) : list Experiment.t :=
  List.filter (inWindow outputKey minOut maxOut) experiments.

Definition collectedValues (experiments : list Experiment.t)
    (inputKey outputKey : string) (minOut maxOut : number) : list number :=
  omap (fun exp => recorded (Experiment.inputs exp !! inputKey))
    (matchingExperiments experiments outputKey minOut maxOut).

(** The empty bins of the general case. *)
Definition emptyBins (minVal maxVal step : number) (binCount : nat)
    : list HistogramBin.t :=
  map (fun i : nat =>
         let start := (minVal + Num.ofNat i * step)%num in
         let end_ :=
           if (Num.ofNat i === Num.ofNat binCount - Num.ofZ 1)%num
           then maxVal
           else (start + step)%num in
         HistogramBin.mk (toFixed start 1 +:+ "–" +:+ toFixed end_ 1) 0)
    (seq 0 binCount).

(** The dataset [experiments], which the source reads from its module, is the
    first argument; [binCount] is 6 unless the caller says otherwise. *)
Definition buildHistogramData (experiments : list Experiment.t)
    (inputKey outputKey : string) (minOut maxOut : number) (binCount : nat)
    : outcome Histogram.t :=
  let filtered := matchingExperiments experiments outputKey minOut maxOut in
  let matchingCount := length filtered in
  if decide (matchingCount = 0%nat) then Returns (Histogram.mk [] 0)
  else
    let values :=
      collectedValues experiments inputKey outputKey minOut maxOut in
    if decide (length values = 0%nat) then
      Returns (Histogram.mk [] matchingCount)
    else
      let minVal := Num.min values in
      let maxVal := Num.max values in
      if (minVal === maxVal)%num then
        Returns
          (Histogram.mk [HistogramBin.mk (toFixed minVal 2) (length values)]
             matchingCount)
      else
        let step := ((maxVal - minVal) / Num.ofNat binCount)%num in
        let rawBins := emptyBins minVal maxVal step binCount in
        rawBins ← forOf values (countValue minVal step binCount) rawBins;
        Returns (Histogram.mk rawBins matchingCount).

End Formatting.

(** The default of the parameter [binCount]. *)
Definition defaultBinCount : nat := 6.

(** A host for closed examples in which no number reaches [10^21]. *)
Definition plainHost : Qc -> string := fun _ => "1e+21".

(** *** The histogram in the words of the specification *)

(** The output of an experiment falls inside the requested range. *)
Definition insideRange (outputKey : string) (minOut maxOut : number)
    (exp : Experiment.t) : Prop :=
  exists x : number,
    Experiment.outputs exp !! outputKey = Some x
    /\ (minOut <=? x)%num = true /\ (x <=? maxOut)%num = true.

(** The number of matching records with a finite value for the input. *)
Definition finiteInputCount (experiments : list Experiment.t)
    (inputKey outputKey : string) (minOut maxOut : number) : nat :=
  length
    (List.filter
       (fun exp =>
          match Experiment.inputs exp !! inputKey with
          | Some (Fin _) => true
          | _ => false
          end)
       (matchingExperiments experiments outputKey minOut maxOut)).

(** The finite values of the input over the matching records, in their
    order. *)
Definition finiteInputs (experiments : list Experiment.t)
    (inputKey outputKey : string) (minOut maxOut : number) : list number :=
  omap
    (fun exp =>
       match Experiment.inputs exp !! inputKey with
       | Some (Fin q) => Some (Fin q)
       | _ => None
       end)
    (matchingExperiments experiments outputKey minOut maxOut).

(** The sum of the counts over the bins. *)
Definition totalCount (bins : list HistogramBin.t) : nat :=
  sum_list_with HistogramBin.count bins.

(** ** The reply parser (OptimizationAdvisor.tsx) *)

(** White space of [trim] and of the class [\s], within ASCII: tab, line
    feed, vertical tab, form feed, carriage return and space.  The white
    space that Unicode has beyond ASCII is plain text to the model. *)
Definition isSpace (c : ascii) : bool :=
  let n := nat_of_ascii c in
  ((9 <=? n) && (n <=? 13) || (n =? 32))%nat.

(** The class [\d]. *)
Definition isDigit (c : ascii) : bool :=
  let n := nat_of_ascii c in
  ((48 <=? n) && (n <=? 57))%nat.

Definition lineFeed : ascii := ascii_of_nat 10.

Fixpoint dropWhile (p : ascii -> bool) (s : string) : string :=
  match s with
  | EmptyString => EmptyString
  | String c s' => if p c then dropWhile p s' else s
  end.

Fixpoint lengthWhile (p : ascii -> bool) (s : string) : nat :=
  match s with
  | EmptyString => 0
  | String c s' => if p c then S (lengthWhile p s') else 0
  end.

Definition trimStart (s : string) : string := dropWhile isSpace s.

Fixpoint trimEnd (s : string) : string :=
  match s with
  | EmptyString => EmptyString
  | String c s' =>
      match trimEnd s' with
      | EmptyString => if isSpace c then EmptyString else String c EmptyString
      | t => String c t
      end
  end.

(** [s.trim()]. *)
Definition trim (s : string) : string := trimEnd (trimStart s).

(** [s] without its prefix [p], when it has it. *)
Fixpoint dropPrefix (p s : string) : option string :=
  match p, s with
  | EmptyString, _ => Some s
  | String a p', String c s' =>
      if decide (a = c) then dropPrefix p' s' else None
  | String _ _, EmptyString => None
  end.

(** [s.replace(/^###\s*/, '')]. *)
Definition stripHeading (s : string) : string :=
  match dropPrefix "###" s with
  | Some rest => trimStart rest
  | None => s
  end.

(** The length of the match of [/\n###\s*/] that begins [s], if one does. *)
Definition headingMatch (s : string) : option nat :=
  match dropPrefix (String lineFeed "###") s with
  | Some rest => Some (4 + lengthWhile isSpace rest)%nat
  | None => None
  end.

(** [s.split(/\n###\s*/)], from left to right: [skip] characters of a match
    are still to be passed over, and [piece] is the text since the last
    match. *)
Fixpoint splitHeadingsFrom (skip : nat) (s piece : string) : list string :=
  match s with
  | EmptyString => [piece]
  | String c s' =>
      match skip with
      | S k => splitHeadingsFrom k s' piece
      | O =>
          match headingMatch s with
          | Some len => piece :: splitHeadingsFrom (len - 1) s' EmptyString
          | None => splitHeadingsFrom 0 s' (piece +:+ String c EmptyString)
          end
      end
  end.

Definition splitHeadings (s : string) : list string :=
  splitHeadingsFrom 0 s EmptyString.

(** [s.split('\n')]. *)
Fixpoint splitLinesFrom (s piece : string) : list string :=
  match s with
  | EmptyString => [piece]
  | String c s' =>
      if decide (c = lineFeed) then piece :: splitLinesFrom s' EmptyString
      else splitLinesFrom s' (piece +:+ String c EmptyString)
  end.

Definition splitLines (s : string) : list string :=
  splitLinesFrom s EmptyString.

(** [line.replace(/^\d+\.\s*/, '')]: a list marker such as [1. ] goes. *)
Definition stripOrdinal (line : string) : string :=
  match lengthWhile isDigit line with
  | O => line
  | S _ =>
      match dropWhile isDigit line with
      | String "."%char rest => trimStart rest
      | _ => line
      end
  end.

(** [type LlmSection = { title; bullets }]. *)
Module LlmSection.
Record t : Type := mk { title : string; bullets : list string }.
End LlmSection.

(** The bullets of one block, from the lines under its title. *)
Definition blockBullets (bodyLines : list string) : list string :=
  let bullets :=
    fold_left
      (fun (bullets : list string) (line : string) =>
         if decide (line = EmptyString) then bullets
         else
           let cleaned := trim (stripOrdinal line) in
           if decide (cleaned = EmptyString) then bullets
           else bullets ++ [cleaned])
      bodyLines [] in
  (* Plain paragraphs instead of numbered bullets: one bullet, the whole text. *)
  if decide (length bullets = 0%nat ∧ trim (join " " bodyLines) ≠ EmptyString)
  then bullets ++ [trim (join " " bodyLines)]
  else bullets.

Definition parseLlmSections (text : string) : list LlmSection.t :=
  let trimmed := trim text in
  if decide (trimmed = EmptyString) then []
  else
    let normalised := stripHeading trimmed in
    let rawSections := splitHeadings normalised in
    fold_left
      (fun (sections : list LlmSection.t) (raw : string) =>
         let lines := map trim (splitLines raw) in
         match lines with
         | [] => sections
         | title :: bodyLines =>
             if decide (title = EmptyString) then sections
             else sections ++ [LlmSection.mk title (blockBullets bodyLines)]
         end)
      rawSections [].

(** ** Reading a value by name (data/experiments.ts) *)

(** [getValue(exp, key)]: the input of that name, else the output of that
    name, else [NaN].  [key in o] is taken on the own properties of [o]: a
    name that [o] only inherits ([toString]) is outside the model, the
    program returns what it finds there, which is not a number. *)
Definition getValue (exp : Experiment.t) (key : string) : number :=
  match Experiment.inputs exp !! key with
  | Some v => v
  | None =>
      match Experiment.outputs exp !! key with
      | Some v => v
      | None => NaN
      end
  end.

(** [Array.from(new Set(keys))]: each key once, at its first place. *)
Fixpoint uniqueKeys (seen keys : list string) : list string :=
  match keys with
  | [] => []
  | k :: keys' =>
      if decide (k ∈ seen) then uniqueKeys seen keys'
      else k :: uniqueKeys (k :: seen) keys'
  end.

(** [allKeys], from the two key lists of the first experiment. *)
Definition allKeys (inputKeys outputKeys : list string) : list string :=
  uniqueKeys [] (inputKeys ++ outputKeys).

(** ** The scatter data (components/ScatterExplorer.tsx) *)

Module ScatterPoint.
Record t : Type := mk { id : string; x : number; y : number }.
End ScatterPoint.

Definition buildScatterData (exps : list Experiment.t) (xKey yKey : string)
    : list ScatterPoint.t :=
  List.filter
    (fun pt =>
       Num.isFinite (ScatterPoint.x pt) && Num.isFinite (ScatterPoint.y pt))
    (map (fun exp =>
            ScatterPoint.mk (Experiment.id exp) (getValue exp xKey)
              (getValue exp yKey))
       exps).

(** ** The measurement range view (components/MeasurementRange.tsx) *)

Definition INITIAL_VISIBLE_INPUTS : nat := 6.

Definition INPUT_ORDER_HINTS : list string :=
  [ "Polymer 1"; "Polymer 2"; "Polymer 3"; "Polymer 4"; "Silica Filler 1";
    "Silica Filler 2"; "Carbon Black High Grade"; "Carbon Black Low Grade";
    "Plasticizer 1"; "Plasticizer 2"; "Plasticizer 3"; "Oven Temperature" ].

(** [{ min; max }], an entry of [OUTPUT_STATS]. *)
Module MinMax.
Record t : Type := mk { min : number; max : number }.
End MinMax.

(** The inner loop of [computeOutputStats]: the running [min] and [max] over
    the experiments, from [Infinity] and [-Infinity]. *)
Definition scanOutput (experiments : list Experiment.t) (key : string)
    : number * number :=
  fold_left
    (fun '(min, max) exp =>
       match Experiment.outputs exp !! key with
       | Some value =>
           if Num.isNaN value then (min, max)
           else
             let min := if (value <? min)%num then value else min in
             let max := if (value >? max)%num then value else max in
             (min, max)
       | None => (min, max)
       end)
    experiments (PosInfinity, NegInfinity).

(** [computeOutputStats()], on the dataset and the output keys of the
    module. *)
Definition computeOutputStats (experiments : list Experiment.t)
    (outputKeys : list string) : gmap string MinMax.t :=
  fold_left
    (fun (stats : gmap string MinMax.t) (key : string) =>
       let '(min, max) := scanOutput experiments key in
       <[key := MinMax.mk
                  (if (min === PosInfinity)%num then Num.zero else min)
                  (if (max === NegInfinity)%num then Num.zero else max)]>
         stats)
    outputKeys ∅.

(** [datasetEmpty] and [defaultOutput] of the component. *)
Definition datasetEmpty (experiments : list Experiment.t)
    (outputKeys : list string) : bool :=
  bool_decide (length experiments = 0%nat)
  || bool_decide (length outputKeys = 0%nat).

Definition defaultOutput (experiments : list Experiment.t)
    (outputKeys : list string) : string :=
  if bool_decide ("Tensile Strength" ∈ outputKeys)
     && negb (datasetEmpty experiments outputKeys)
  then "Tensile Strength"
  else default EmptyString (outputKeys !! 0%nat).

(** [initialStats]: [None] is the [undefined] that a missing entry of
    [OUTPUT_STATS] would give, on which [initialStats.min] would throw. *)
Definition initialStats (experiments : list Experiment.t)
    (outputKeys : list string) : option MinMax.t :=
  let OUTPUT_STATS := computeOutputStats experiments outputKeys in
  let defaultOutput := defaultOutput experiments outputKeys in
  if decide (defaultOutput = EmptyString) then Some (MinMax.mk Num.zero Num.zero)
  else OUTPUT_STATS !! defaultOutput.

(** [currentStats], with its fallback for a key without statistics. *)
Definition currentStats (OUTPUT_STATS : gmap string MinMax.t)
    (measurementKey : string) : MinMax.t :=
  default (MinMax.mk Num.zero Num.zero) (OUTPUT_STATS !! measurementKey).

(** The range that the user typed, brought inside the bounds of the dataset. *)
Definition clampedMin (minValue : number) (currentStats : MinMax.t) : number :=
  Num.min2 (Num.max2 minValue (MinMax.min currentStats))
    (MinMax.max currentStats).

Definition clampedMax (maxValue : number) (currentStats : MinMax.t) : number :=
  Num.max2 (Num.min2 maxValue (MinMax.max currentStats))
    (MinMax.min currentStats).

(** The input cards: the hinted inputs first, then the others. *)
Definition orderedInputs (inputKeys : list string) : list string :=
  let hinted := filter (fun k => k ∈ inputKeys) INPUT_ORDER_HINTS in
  let remaining := filter (fun k => k ∉ hinted) inputKeys in
  hinted ++ remaining.

Definition visibleInputs (showAllInputs : bool) (inputKeys : list string)
    : list string :=
  if showAllInputs then orderedInputs inputKeys
  else take INITIAL_VISIBLE_INPUTS (orderedInputs inputKeys).

Definition canToggleInputs (inputKeys : list string) : bool :=
  bool_decide (INITIAL_VISIBLE_INPUTS < length (orderedInputs inputKeys))%nat.

(** The state of the component and what its handlers do to it: the
    [onChange] of the measurement select, of the two range inputs (where
    [next] is [Number(e.target.value)]) and the click on the toggle. *)
Module RangeState.
Record t : Type := mk {
  measurementKey : string;
  minValue : number;
  maxValue : number;
  showAllInputs : bool
}.
End RangeState.

(** The first render; [None] when [initialStats] is [undefined], on which
    [initialStats.min] throws. *)
Definition initialState (experiments : list Experiment.t)
    (outputKeys : list string) : option RangeState.t :=
  match initialStats experiments outputKeys with
  | Some initialStats =>
      Some (RangeState.mk (defaultOutput experiments outputKeys)
              (MinMax.min initialStats) (MinMax.max initialStats) false)
  | None => None
  end.

Inductive event : Type :=
  | SelectMeasurement (nextKey : string)
  | TypeMin (next : number)
  | TypeMax (next : number)
  | ToggleInputs.

Definition handle (OUTPUT_STATS : gmap string MinMax.t) (st : RangeState.t)
    (ev : event) : RangeState.t :=
  match ev with
  | SelectMeasurement nextKey =>
      match OUTPUT_STATS !! nextKey with
      | Some s =>
          RangeState.mk nextKey (MinMax.min s) (MinMax.max s)
            (RangeState.showAllInputs st)
      | None =>
          RangeState.mk nextKey (RangeState.minValue st)
            (RangeState.maxValue st) (RangeState.showAllInputs st)
      end
  | TypeMin next =>
      if Num.isNaN next then st
      else RangeState.mk (RangeState.measurementKey st) next
             (RangeState.maxValue st) (RangeState.showAllInputs st)
  | TypeMax next =>
      if Num.isNaN next then st
      else RangeState.mk (RangeState.measurementKey st)
             (RangeState.minValue st) next (RangeState.showAllInputs st)
  | ToggleInputs =>
      RangeState.mk (RangeState.measurementKey st) (RangeState.minValue st)
        (RangeState.maxValue st) (negb (RangeState.showAllInputs st))
  end.

(** ** The anchor of the advisor page (components/OptimizationAdvisor.tsx) *)

(** [experiments[0]?.id ?? ''], the anchor id of the first render. *)
Definition initialAnchorId (experiments : list Experiment.t) : string :=
  match experiments with
  | first :: _ => Experiment.id first
  | [] => EmptyString
  end.

(** [experiments.find((e) => e.id === anchorId)]. *)
Definition anchorExperiment (experiments : list Experiment.t)
    (anchorId : string) : option Experiment.t :=
  List.find (fun e => bool_decide (Experiment.id e = anchorId)) experiments.

(** [heuristicSections]; the [catch] of the source is not reached, for
    [buildAdvisorSections] returns on every anchor and dataset. *)
Definition heuristicSections (host : Qc -> string)
    (experiments : list Experiment.t) (anchorId : string)
    : list AdvisorSection.t :=
  match anchorExperiment experiments anchorId with
  | None => []
  | Some anchorExperiment =>
      buildAdvisorSections host anchorExperiment experiments
  end.

(** ** The statistics of the prompt (services/advisorLLM.ts) *)

(** The comparator [(a, b) => a - b] of the sort: [a] may stand before [b]
    unless the difference is above zero. *)
Definition byDifference (a b : number) : Prop :=
  ((a - b)%num >? Num.zero)%num = false.

#[global] Instance byDifference_dec (a b : number) :
  Decision (byDifference a b).
Proof. unfold byDifference. apply _. Defined.

(** [l[i]] where the element is used at once: reading a property of
    [undefined] raises a [TypeError]. *)
Definition elementAt (l : list number) (i : nat) : outcome number :=
  match l !! i with
  | Some x => Returns x
  | None => Throws TypeError
  end.

(** The line of one output in the statistics block of the prompt: the body
    of the function mapped over [outputNames] in [buildLlmAdvisorPrompt]. *)
Definition outputStatsLine (host : Qc -> string) (dataset : list Experiment.t)
    (name : string) : outcome string :=
  let rawValues :=
    omap valid_value (map (fun e => Experiment.outputs e !! name) dataset) in
  if decide (length rawValues = 0%nat) then
    Returns (name +:+ ": no historical data available")
  else
    let sorted := merge_sort byDifference rawValues in
    let mean :=
      (fold_left Num.add rawValues Num.zero
       / Num.ofNat (length rawValues))%num in
    median ← elementAt sorted (length sorted / 2);
    min ← elementAt sorted 0;
    max ← elementAt sorted (length sorted - 1);
    Returns
      (name +:+ ": mean=" +:+ toFixed host mean 2 +:+ ", median="
       +:+ toFixed host median 2 +:+ ", min=" +:+ toFixed host min 2
       +:+ ", max=" +:+ toFixed host max 2).

(** The outputs recorded under a key, and the entry of [OUTPUT_STATS] that
    [computeOutputStats] stores for it. *)
Definition recordedOutputs (experiments : list Experiment.t) (key : string)
    : list number :=
  omap (fun exp => recorded (Experiment.outputs exp !! key)) experiments.

Definition outputStatsEntry (experiments : list Experiment.t) (key : string)
    : MinMax.t :=
  let '(min, max) := scanOutput experiments key in
  MinMax.mk (if (min === PosInfinity)%num then Num.zero else min)
    (if (max === NegInfinity)%num then Num.zero else max).

(** The scan of the recorded values. *)
Definition scanStep (st : number * number) (value : number) : number * number :=
  let '(min, max) := st in
  (if (value <? min)%num then value else min,
   if (value >? max)%num then value else max).

(** No handler stores [NaN] in the range. *)
Definition rangeNumeric (st : RangeState.t) : Prop :=
  RangeState.minValue st <> NaN /\ RangeState.maxValue st <> NaN.

(** Whether an experiment records a value under an output key. *)
Definition hasOutput (key : string) (exp : Experiment.t) : bool :=
  match recorded (Experiment.outputs exp !! key) with
  | Some _ => true
  | None => false
  end.

(** The bin that a turn of the counting loop leaves behind. *)
Definition bump (b : HistogramBin.t) : HistogramBin.t :=
  HistogramBin.mk (HistogramBin.binLabel b) (HistogramBin.count b + 1).

(** Texts as the parser hands them out: no white space at either end and no
    line feed inside. *)
Fixpoint hasLineFeed (s : string) : bool :=
  match s with
  | EmptyString => false
  | String c s' => bool_decide (c = lineFeed) || hasLineFeed s'
  end.

Definition tidy (s : string) : Prop := trim s = s /\ hasLineFeed s = false.

(** A reply in the format that the prompt asks for: under each [###]
    heading its title, then one line for each idea, a number, a full stop
    and a space in front.  A section is its title with its items, an item
    its number as written with its text.  Titles and texts are single lines
    that begin and end with an ASCII character other than white space. *)
Fixpoint allDigits (s : string) : bool :=
  match s with
  | EmptyString => true
  | String c s' => isDigit c && allDigits s'
  end.

(** The first and the last byte of a text are ASCII.  The white space that
    Unicode has beyond ASCII, which [trim] and [\s] take as well, is then at
    neither end of it. *)
Definition isAscii (c : ascii) : bool := (nat_of_ascii c <? 128)%nat.

Fixpoint lastOf (c : ascii) (s : string) : ascii :=
  match s with
  | EmptyString => c
  | String d s' => lastOf d s'
  end.

Definition asciiEnds (s : string) : bool :=
  match s with
  | EmptyString => true
  | String c s' => isAscii c && isAscii (lastOf c s')
  end.

Definition plainText (s : string) : Prop :=
  s <> EmptyString /\ trim s = s /\ hasLineFeed s = false
  /\ asciiEnds s = true.

Definition listMarker (m : string) : Prop :=
  m <> EmptyString /\ allDigits m = true.

Definition renderItem (item : string * string) : string :=
  item.1 +:+ ". " +:+ item.2.

Definition renderBody (section : string * list (string * string)) : string :=
  section.1
  +:+ foldr (fun item rest => nl +:+ renderItem item +:+ rest) EmptyString
        section.2.

Definition renderSection (section : string * list (string * string))
    : string :=
  "### " +:+ renderBody section.

Definition renderReply (sections : list (string * list (string * string)))
    : string :=
  join nl (map renderSection sections).

Definition writtenSection (section : string * list (string * string))
    : LlmSection.t :=
  LlmSection.mk section.1 (map snd section.2).

Definition wellFormed (section : string * list (string * string)) : Prop :=
  plainText section.1
  /\ Forall (fun item => listMarker item.1 /\ plainText item.2) section.2.

(** No match of [/\n###/] begins in [s]: each of its line feeds is followed
    by a digit. *)
Fixpoint quiet (s : string) : bool :=
  match s with
  | EmptyString => true
  | String c s' =>
      (if decide (c = lineFeed)
       then match s' with
            | String d _ => isDigit d
            | EmptyString => false
            end
       else true)
      && quiet s'
  end.

(** A text that ends in a plain text. *)
Definition endsPlain (s : string) : Prop :=
  exists a t : string, s = a +:+ t /\ plainText t.

(** A line that [blockBullets] takes as it stands: not empty, without
    white space around it and without a list marker in front. *)
Definition plainLine (line : string) : Prop :=
  line <> EmptyString /\ trim line = line /\ stripOrdinal line = line.

(** ** Sample data *)

(** An anchor with none of the fields that the advisor reads, in a dataset
    of its own. *)
Definition unrecognisedAnchor : Experiment.t :=
  Experiment.mk "Run-001"
    {[ "Polymer 1" := Num.ofZ 45 ]}
    {[ "Tensile Strength" := Num.dec 123 10 ]}.

(** Three runs with outputs 10, 20 and 30 and inputs 1, 1 and 2. *)
Definition sampleRuns : list Experiment.t :=
  [ Experiment.mk "Run-001" {[ "Polymer 1" := Num.ofZ 1 ]}
      {[ "Tensile Strength" := Num.ofZ 10 ]};
    Experiment.mk "Run-002" {[ "Polymer 1" := Num.ofZ 1 ]}
      {[ "Tensile Strength" := Num.ofZ 20 ]};
    Experiment.mk "Run-003" {[ "Polymer 1" := Num.ofZ 2 ]}
      {[ "Tensile Strength" := Num.ofZ 30 ]} ].

(** A run whose input is infinite, alone and next to a run with a finite
    input; both have their output inside [[10, 20]]. *)
Definition infiniteRun : Experiment.t :=
  Experiment.mk "Run-002" {[ "Polymer 1" := PosInfinity ]}
    {[ "Tensile Strength" := Num.ofZ 15 ]}.

Definition finiteRun : Experiment.t :=
  Experiment.mk "Run-001" {[ "Polymer 1" := Num.ofZ 1 ]}
    {[ "Tensile Strength" := Num.ofZ 12 ]}.

(** Two runs that share the input 1, and with them the run whose input is
    infinite; the three have their output inside [[10, 20]]. *)
Definition sharedInputRuns : list Experiment.t :=
  [ finiteRun;
    Experiment.mk "Run-003" {[ "Polymer 1" := Num.ofZ 1 ]}
      {[ "Tensile Strength" := Num.ofZ 18 ]};
    infiniteRun ].

(** * Properties *)

(** ** Rational arithmetic

    Goals on [Qc] are sent to [Q], where [lra] and [nra] decide them. *)

Ltac qc2q :=
  unfold Qcle, Qclt, Qcplus, Qcmult, Qcminus, Qcopp, Qcdiv, Qcinv, Q2Qc in *;
  simpl this in *;
  rewrite ?Qred_correct in *.

Lemma Qc_of_nat_pos (n : nat) : (0 < n)%nat -> (Q2Qc 0 < Qc_of_nat n)%Qc.
Proof.
  intros Hn. unfold Qc_of_nat. qc2q.
  change 0%Q with (inject_Z 0). rewrite <- Zlt_Qlt. lia.
Qed.

Lemma Qc_le_div (a b c : Qc) :
  (Q2Qc 0 < c -> a * c <= b -> a <= b / c)%Qc.
Proof.
  intros Hc Hab.
  assert (Hne : c <> Q2Qc 0) by (apply not_eq_sym, Qclt_not_eq, Hc).
  apply Qcmult_lt_0_le_reg_r with c; [exact Hc|].
  unfold Qcdiv. rewrite <- Qcmult_assoc, (Qcmult_comm (/ c)).
  rewrite Qcmult_inv_r by exact Hne. now rewrite Qcmult_1_r.
Qed.

Lemma Qc_inv_pos (c : Qc) : (Q2Qc 0 < c -> Q2Qc 0 < / c)%Qc.
Proof. intros H. qc2q. now apply Qinv_lt_0_compat. Qed.

(** ** The order on numbers *)

Lemma le_Fin (x y : Qc) : (Fin x <=? Fin y)%num = true <-> (x <= y)%Qc.
Proof.
  unfold Num.le, Num.cmp. rewrite Qcle_alt.
  destruct (x ?= y)%Qc; intuition congruence.
Qed.

Lemma lt_Fin (x y : Qc) : (Fin x <? Fin y)%num = true <-> (x < y)%Qc.
Proof.
  unfold Num.lt, Num.cmp. rewrite Qclt_alt.
  destruct (x ?= y)%Qc; intuition congruence.
Qed.

Lemma eq_Fin (x y : Qc) : (Fin x === Fin y)%num = true <-> x = y.
Proof.
  unfold Num.eq, Num.cmp. rewrite Qceq_alt.
  destruct (x ?= y)%Qc; intuition congruence.
Qed.

Lemma cmp_Fin_flip (x y : Qc) : (y ?= x)%Qc = CompOpp (x ?= y)%Qc.
Proof. unfold Qccompare. now rewrite <- Qcompare_antisym. Qed.

Lemma min2_Fin (x y : Qc) :
  Num.min2 (Fin x) (Fin y) = Fin (if Qclt_le_dec y x then y else x).
Proof.
  unfold Num.min2, Num.cmp.
  destruct (Qclt_le_dec y x) as [H|H].
  - rewrite Qclt_alt, cmp_Fin_flip in H.
    destruct (x ?= y)%Qc; simpl in H; congruence.
  - rewrite Qcle_alt in H.
    destruct (x ?= y)%Qc; simpl in H; congruence.
Qed.

Lemma max2_Fin (x y : Qc) :
  Num.max2 (Fin x) (Fin y) = Fin (if Qclt_le_dec x y then y else x).
Proof.
  unfold Num.max2, Num.cmp.
  destruct (Qclt_le_dec x y) as [H|H].
  - rewrite Qclt_alt in H. now rewrite H.
  - rewrite Qcle_alt, cmp_Fin_flip in H.
    destruct (x ?= y)%Qc; simpl in H; congruence.
Qed.

(** ** Minimum, maximum and sum of finite values *)

Lemma least_singleton (a : Qc) : least a [a].
Proof.
  split; [apply list_elem_of_singleton; reflexivity|].
  intros q Hq. apply list_elem_of_singleton in Hq as ->. apply Qcle_refl.
Qed.

Lemma greatest_singleton (a : Qc) : greatest a [a].
Proof.
  split; [apply list_elem_of_singleton; reflexivity|].
  intros q Hq. apply list_elem_of_singleton in Hq as ->. apply Qcle_refl.
Qed.

(** The running minimum keeps its value [a], or moves to a smaller [q]. *)
Lemma least_keep (a q m : Qc) (qs : list Qc) :
  least m (a :: qs) -> (a <= q)%Qc -> least m (a :: q :: qs).
Proof.
  intros [Hm Hlow] Hle. split.
  - rewrite !elem_of_cons. rewrite elem_of_cons in Hm. tauto.
  - intros x Hx. rewrite !elem_of_cons in Hx. destruct Hx as [->|[->|Hx]].
    + apply Hlow, elem_of_cons. now left.
    + apply Qcle_trans with a; [|exact Hle]. apply Hlow, elem_of_cons. now left.
    + apply Hlow, elem_of_cons. now right.
Qed.

Lemma least_move (a q m : Qc) (qs : list Qc) :
  least m (q :: qs) -> (q < a)%Qc -> least m (a :: q :: qs).
Proof.
  intros [Hm Hlow] Hlt. split.
  - apply elem_of_cons. now right.
  - intros x Hx. rewrite elem_of_cons in Hx. destruct Hx as [->|Hx].
    + apply Qcle_trans with q; [|now apply Qclt_le_weak].
      apply Hlow, elem_of_cons. now left.
    + now apply Hlow.
Qed.

Lemma greatest_keep (a q m : Qc) (qs : list Qc) :
  greatest m (a :: qs) -> (q <= a)%Qc -> greatest m (a :: q :: qs).
Proof.
  intros [Hm Hup] Hle. split.
  - rewrite !elem_of_cons. rewrite elem_of_cons in Hm. tauto.
  - intros x Hx. rewrite !elem_of_cons in Hx. destruct Hx as [->|[->|Hx]].
    + apply Hup, elem_of_cons. now left.
    + apply Qcle_trans with a; [exact Hle|]. apply Hup, elem_of_cons. now left.
    + apply Hup, elem_of_cons. now right.
Qed.

Lemma greatest_move (a q m : Qc) (qs : list Qc) :
  greatest m (q :: qs) -> (a < q)%Qc -> greatest m (a :: q :: qs).
Proof.
  intros [Hm Hup] Hlt. split.
  - apply elem_of_cons. now right.
  - intros x Hx. rewrite elem_of_cons in Hx. destruct Hx as [->|Hx].
    + apply Qcle_trans with q; [now apply Qclt_le_weak|].
      apply Hup, elem_of_cons. now left.
    + now apply Hup.
Qed.

Lemma fold_min2_Fin (qs : list Qc) :
  forall a : Qc,
    exists m : Qc,
      fold_left Num.min2 (Fin <$> qs) (Fin a) = Fin m /\ least m (a :: qs).
Proof.
  induction qs as [|q qs IH]; intros a; rewrite ?fmap_cons; cbn [fold_left].
  - exists a. split; [reflexivity|apply least_singleton].
  - rewrite min2_Fin.
    destruct (Qclt_le_dec q a) as [Hlt|Hle].
    + destruct (IH q) as (m & -> & Hleast).
      exists m. split; [reflexivity|now apply least_move].
    + destruct (IH a) as (m & -> & Hleast).
      exists m. split; [reflexivity|now apply least_keep].
Qed.

Lemma fold_max2_Fin (qs : list Qc) :
  forall a : Qc,
    exists m : Qc,
      fold_left Num.max2 (Fin <$> qs) (Fin a) = Fin m /\ greatest m (a :: qs).
Proof.
  induction qs as [|q qs IH]; intros a; rewrite ?fmap_cons; cbn [fold_left].
  - exists a. split; [reflexivity|apply greatest_singleton].
  - rewrite max2_Fin.
    destruct (Qclt_le_dec a q) as [Hlt|Hle].
    + destruct (IH q) as (m & -> & Hgreatest).
      exists m. split; [reflexivity|now apply greatest_move].
    + destruct (IH a) as (m & -> & Hgreatest).
      exists m. split; [reflexivity|now apply greatest_keep].
Qed.

Lemma min_Fin (q : Qc) (qs : list Qc) :
  exists m : Qc, Num.min (Fin <$> q :: qs) = Fin m /\ least m (q :: qs).
Proof. unfold Num.min. rewrite fmap_cons. cbn [fold_left]. apply fold_min2_Fin. Qed.

Lemma max_Fin (q : Qc) (qs : list Qc) :
  exists m : Qc, Num.max (Fin <$> q :: qs) = Fin m /\ greatest m (q :: qs).
Proof. unfold Num.max. rewrite fmap_cons. cbn [fold_left]. apply fold_max2_Fin. Qed.

Lemma div_Fin_nat (s : Qc) (n : nat) :
  (0 < n)%nat -> (Fin s / Num.ofNat n)%num = Fin (s / Qc_of_nat n)%Qc.
Proof.
  intros Hn. unfold Num.div, Num.ofNat, Num.ofZ. fold (Qc_of_nat n).
  destruct (decide (Qc_of_nat n = Q2Qc 0)) as [E|_]; [|reflexivity].
  pose proof (Qc_of_nat_pos n Hn) as Hpos. rewrite E in Hpos.
  now apply Qclt_not_eq in Hpos.
Qed.

(** The values that pass the filter of [computeStats] are the finite ones. *)
Lemma omap_valid_value (values : list (option number)) :
  omap valid_value values = Fin <$> finite_values values.
Proof.
  unfold finite_values.
  induction values as [|[[| | |q]|] values IH]; cbn; rewrite ?IH; reflexivity.
Qed.

(** ** Doubles

    The order of binary64 on [spec_float], the specification of the primitive
    floats: every case of the comparison is inspected. *)

Ltac sf_cases :=
  repeat match goal with
         | x : spec_float |- _ => destruct x as [[]|[]| |[] ? ?]
         end;
  cbn; try discriminate; try reflexivity; try tauto.

Ltac sf_compare :=
  change (Pos.compare_cont Eq) with Pos.compare in *;
  repeat match goal with
         | |- context [(?a ?= ?b)%Z] =>
             destruct (Z.compare_spec a b)
         | H : context [(?a ?= ?b)%Z] |- _ =>
             destruct (Z.compare_spec a b)
         | |- context [(?a ?= ?b)%positive] =>
             destruct (Pos.compare_spec a b)
         | H : context [(?a ?= ?b)%positive] |- _ =>
             destruct (Pos.compare_spec a b)
         end;
  cbn in *; try discriminate; try reflexivity; try lia.

Lemma SFltb_irrefl a : SFltb a a = false.
Proof. unfold SFltb, SFcompare. sf_cases; sf_compare. Qed.

Lemma SFleb_refl a : SFisnan a = false -> SFleb a a = true.
Proof. unfold SFleb, SFcompare. sf_cases; sf_compare. Qed.

Lemma SFltb_leb a b : SFltb a b = true -> SFleb a b = true.
Proof. unfold SFltb, SFleb. now destruct (SFcompare a b) as [[]|]. Qed.

Lemma SFltb_not_leb a b :
  SFisnan a = false -> SFisnan b = false -> SFltb a b = negb (SFleb b a).
Proof. unfold SFltb, SFleb, SFcompare. sf_cases; sf_compare. Qed.

Lemma SFleb_trans a b c :
  SFleb a b = true -> SFleb b c = true -> SFleb a c = true.
Proof. unfold SFleb, SFcompare. sf_cases; sf_compare. Qed.

Lemma SFltb_leb_trans a b c :
  SFltb a b = true -> SFleb b c = true -> SFltb a c = true.
Proof. unfold SFltb, SFleb, SFcompare. sf_cases; sf_compare. Qed.

Lemma SFleb_ltb_trans a b c :
  SFleb a b = true -> SFltb b c = true -> SFltb a c = true.
Proof. unfold SFltb, SFleb, SFcompare. sf_cases; sf_compare. Qed.

Lemma SFleb_nan a b :
  SFleb a b = true -> SFisnan a = false /\ SFisnan b = false.
Proof. unfold SFleb, SFcompare. sf_cases. Qed.

Lemma SFltb_nan a b :
  SFltb a b = true -> SFisnan a = false /\ SFisnan b = false.
Proof. unfold SFltb, SFcompare. sf_cases. Qed.

(** *** Rounding a product

    The number of binary digits of a mantissa. *)
Lemma digits2_pos_bounds (p : positive) :
  2 ^ (Zpos (digits2_pos p) - 1) <= Zpos p < 2 ^ Zpos (digits2_pos p).
Proof.
  induction p as [p IH|p IH|]; cbn [digits2_pos].
  - rewrite Pos2Z.inj_succ.
    replace (Z.succ (Zpos (digits2_pos p)) - 1) with (Zpos (digits2_pos p))
      by lia.
    rewrite Z.pow_succ_r by lia.
    assert (H : 2 ^ Zpos (digits2_pos p) = 2 * 2 ^ (Zpos (digits2_pos p) - 1)).
    { rewrite <- Z.pow_succ_r by lia. f_equal. lia. }
    lia.
  - rewrite Pos2Z.inj_succ.
    replace (Z.succ (Zpos (digits2_pos p)) - 1) with (Zpos (digits2_pos p))
      by lia.
    rewrite Z.pow_succ_r by lia.
    assert (H : 2 ^ Zpos (digits2_pos p) = 2 * 2 ^ (Zpos (digits2_pos p) - 1)).
    { rewrite <- Z.pow_succ_r by lia. f_equal. lia. }
    lia.
  - cbn. lia.
Qed.

Lemma digits2_pos_lt (p : positive) (k : Z) :
  0 <= k -> (Zpos p < 2 ^ k <-> Zpos (digits2_pos p) <= k).
Proof.
  intros Hk. pose proof (digits2_pos_bounds p) as [Hlo Hhi]. split; intros H.
  - destruct (Z_lt_le_dec k (Zpos (digits2_pos p))) as [Hlt|]; [|lia].
    assert (2 ^ k <= 2 ^ (Zpos (digits2_pos p) - 1))
      by (apply Z.pow_le_mono_r; lia).
    lia.
  - assert (2 ^ Zpos (digits2_pos p) <= 2 ^ k)
      by (apply Z.pow_le_mono_r; lia).
    lia.
Qed.

Lemma Zdigits2_lt (m k : Z) :
  0 <= m -> 0 <= k -> (m < 2 ^ k <-> Zdigits2 m <= k).
Proof.
  intros Hm Hk. destruct m as [|p|p]; [|now apply digits2_pos_lt|lia].
  cbn. split; [lia|]. intros _. apply Z.pow_pos_nonneg; lia.
Qed.

(** [shr] drops binary digits: a division by a power of two, rounded
    down. *)
Lemma shr_1_m (mrs : shr_record) :
  0 <= shr_m mrs -> shr_m (shr_1 mrs) = shr_m mrs / 2.
Proof.
  destruct mrs as [m r s]. cbn [shr_m]. intros Hm.
  destruct m as [|[p|p|]|p]; cbn [shr_1 shr_m]; try lia; try reflexivity;
    first [ apply Z.div_unique with 1; lia | apply Z.div_unique with 0; lia ].
Qed.

Lemma iter_shr_1_m (p : positive) :
  forall mrs : shr_record,
    0 <= shr_m mrs ->
    shr_m (SpecFloat.iter_pos shr_1 p mrs) = shr_m mrs / 2 ^ Zpos p.
Proof.
  induction p as [p IH|p IH|]; intros mrs Hm; cbn [SpecFloat.iter_pos].
  - assert (H1 : 0 <= shr_m (shr_1 mrs))
      by (rewrite shr_1_m by exact Hm; apply Z.div_pos; lia).
    assert (H2 : 0 <= shr_m (SpecFloat.iter_pos shr_1 p (shr_1 mrs)))
      by (rewrite IH by exact H1; apply Z.div_pos; [exact H1|];
          apply Z.pow_pos_nonneg; lia).
    rewrite IH, IH, shr_1_m by assumption.
    rewrite !Z.div_div by (try apply Z.pow_pos_nonneg; lia).
    f_equal. replace (Zpos p~1) with (1 + Zpos p + Zpos p) by lia.
    rewrite !Z.pow_add_r by lia. change (2 ^ 1) with 2. ring.
  - assert (H2 : 0 <= shr_m (SpecFloat.iter_pos shr_1 p mrs))
      by (rewrite IH by exact Hm; apply Z.div_pos; [exact Hm|];
          apply Z.pow_pos_nonneg; lia).
    rewrite IH, IH by assumption.
    rewrite !Z.div_div by (try apply Z.pow_pos_nonneg; lia).
    f_equal. replace (Zpos p~0) with (Zpos p + Zpos p) by lia.
    rewrite !Z.pow_add_r by lia. ring.
  - rewrite shr_1_m by exact Hm. reflexivity.
Qed.

Lemma shr_fexp_shifted (m e : Z) (l : location) :
  0 <= m ->
  let '(mrs, e') := shr_fexp prec emax m e l in
  (shr_m mrs, e') = shifted m e.
Proof.
  intros Hm. unfold shr_fexp, shifted, shr.
  set (n := fexp prec emax (Zdigits2 m + e) - e).
  assert (Hrec : shr_m (shr_record_of_loc m l) = m)
    by (destruct l as [|[]]; reflexivity).
  destruct n as [|p|p]; cbn [Z.ltb Z.compare]; try now rewrite Hrec.
  rewrite iter_shr_1_m by (rewrite Hrec; exact Hm). now rewrite Hrec.
Qed.

Lemma round_nearest_even_bounds (m : Z) (l : location) :
  m <= round_nearest_even m l <= m + 1.
Proof.
  unfold round_nearest_even. destruct l as [|[]]; try lia.
  destruct (Z.even m); lia.
Qed.

(** The rounded product: a mantissa within one of the shifted one, shifted
    once more. *)
Lemma binary_round_aux_shifted (P : positive) (e : Z) :
  exists m1 : Z,
    (fst (shifted (Zpos P) e) <= m1 <= fst (shifted (Zpos P) e) + 1)
    /\ (fexp prec emax (Zdigits2 (Zpos P) + e) - e <= 0 -> m1 = Zpos P)
    /\ binary_round_aux prec emax false (Zpos P) e loc_Exact
       = let '(m2, e2) := shifted m1 (snd (shifted (Zpos P) e)) in pack m2 e2.
Proof.
  unfold binary_round_aux.
  pose proof (shr_fexp_shifted (Zpos P) e loc_Exact ltac:(lia)) as H1.
  destruct (shr_fexp prec emax (Zpos P) e loc_Exact) as [mrs' e'] eqn:E1.
  set (m1 := round_nearest_even (shr_m mrs') (loc_of_shr_record mrs')).
  exists m1.
  pose proof (round_nearest_even_bounds (shr_m mrs') (loc_of_shr_record mrs'))
    as Hb. fold m1 in Hb.
  assert (Hm0 : shr_m mrs' = fst (shifted (Zpos P) e)) by now rewrite <- H1.
  assert (He0 : e' = snd (shifted (Zpos P) e)) by now rewrite <- H1.
  rewrite <- Hm0, <- He0.
  assert (H0 : 0 <= shr_m mrs').
  { rewrite Hm0. unfold shifted.
    destruct (0 <? _)%Z eqn:En; cbn [fst]; [|lia].
    apply Z.ltb_lt in En.
    apply Z.div_pos; [lia|]. apply Z.pow_pos_nonneg; lia. }
  split; [exact Hb|]. split.
  - intros Hn. subst m1. revert E1. unfold shr_fexp, shr.
    destruct (fexp prec emax (Zdigits2 (Zpos P) + e) - e) as [|p|p]; try lia;
      intros [= <- <-]; reflexivity.
  - pose proof (shr_fexp_shifted m1 e' loc_Exact ltac:(lia)) as H2.
    destruct (shr_fexp prec emax m1 e' loc_Exact) as [mrs'' e''].
    rewrite <- H2. unfold pack.
    destruct (shr_m mrs''); reflexivity.
Qed.

Ltac dlia := Z.div_mod_to_equations; lia.

Lemma fexp64 (x : Z) : fexp prec emax x = Z.max (x - 53) (-1074).
Proof. reflexivity. Qed.

Lemma shifted_pos (m e n : Z) :
  fexp prec emax (Zdigits2 m + e) - e = n -> 0 < n ->
  shifted m e = (m / 2 ^ n, e + n).
Proof.
  intros Hn Hpos. unfold shifted. rewrite Hn.
  now rewrite (proj2 (Z.ltb_lt 0 n) Hpos).
Qed.

Lemma shifted_none (m e : Z) :
  fexp prec emax (Zdigits2 m + e) - e <= 0 -> shifted m e = (m, e).
Proof.
  intros Hn. unfold shifted.
  now rewrite (proj2 (Z.ltb_ge 0 _) Hn).
Qed.

Lemma bounded_canonical (mx : positive) (ex : Z) :
  bounded prec emax mx ex = true ->
  ex = Z.max (Zpos (digits2_pos mx) + ex - 53) (-1074) /\ ex <= 971.
Proof.
  unfold bounded, canonical_mantissa. rewrite fexp64. intros H.
  apply andb_true_iff in H as [H1 H2].
  apply Z.eqb_eq in H1. apply Z.leb_le in H2. unfold emax, prec in H2. lia.
Qed.

Lemma leb_pack_above (mx : positive) (ex m e : Z) :
  0 < m -> (ex < e \/ (e = ex /\ Zpos mx <= m)) ->
  SFleb (S754_finite false mx ex) (pack m e) = true.
Proof.
  intros Hm H. destruct m as [|p|p]; try lia. unfold pack.
  destruct (e <=? emax - prec)%Z; [|reflexivity].
  unfold SFleb, SFcompare. destruct H as [H|[-> H]].
  - now rewrite (proj2 (Z.compare_lt_iff ex e) H).
  - rewrite Z.compare_refl.
    change (Pos.compare_cont Eq mx p) with (Pos.compare mx p).
    destruct (Pos.compare_spec mx p); try reflexivity. lia.
Qed.

Lemma leb_pack_below (mx : positive) (ex m e : Z) :
  ex <= 971 -> 0 <= m -> (e < ex \/ (e = ex /\ m <= Zpos mx)) ->
  SFleb (pack m e) (S754_finite false mx ex) = true.
Proof.
  intros Hex Hm H. destruct m as [|p|p]; try lia; [reflexivity|]. unfold pack.
  rewrite (proj2 (Z.leb_le e (emax - prec))) by (unfold emax, prec; lia).
  unfold SFleb, SFcompare. destruct H as [H|[-> H]].
  - now rewrite (proj2 (Z.compare_lt_iff e ex) H).
  - rewrite Z.compare_refl.
    change (Pos.compare_cont Eq p mx) with (Pos.compare p mx).
    destruct (Pos.compare_spec p mx); try reflexivity. lia.
Qed.

Ltac digits_of m k :=
  let H := fresh "Hd" in
  pose proof (Zdigits2_lt m k ltac:(dlia) ltac:(lia)) as H.

(** A positive double is at most its product by [1.15]. *)
Lemma round_115_above (mx : positive) (ex : Z) :
  bounded prec emax mx ex = true ->
  SFleb (S754_finite false mx ex)
    (binary_round_aux prec emax false (Zpos (mx * mant115)) (ex + -52)
       loc_Exact)
  = true.
Proof.
  intros Hb. destruct (bounded_canonical mx ex Hb) as [Hcan Hex].
  pose proof (digits2_pos_bounds mx) as Hdx.
  destruct (binary_round_aux_shifted (mx * mant115) (ex + -52))
    as (m1 & Hm1 & _ & ->).
  rewrite Pos2Z.inj_mul in *. unfold mant115 in *.
  set (P := Zpos mx * 5179139571476070) in *.
  set (dx := Zpos (digits2_pos mx)) in *.
  assert (Hdx1 : 1 <= dx <= 53) by lia.
  destruct (Z.eq_dec dx 53) as [E|E].
  - rewrite E in Hdx. change (53 - 1) with 52 in Hdx.
    digits_of P 104. digits_of P 105. digits_of P 106.
    assert (Hex0 : -1074 <= ex) by lia.
    destruct (Z_lt_le_dec P (2 ^ 105)) as [HP|HP].
    + rewrite (shifted_pos P (ex + -52) 52) in * by (rewrite ?fexp64; lia).
      cbn [fst snd] in *.
      digits_of m1 52. digits_of m1 53. digits_of m1 54.
      destruct (Z_lt_le_dec m1 (2 ^ 53)) as [Hm|Hm].
      * rewrite (shifted_none m1) by (rewrite fexp64; dlia).
        apply leb_pack_above; dlia.
      * rewrite (shifted_pos m1 _ 1) by (rewrite ?fexp64; dlia).
        apply leb_pack_above; dlia.
    + rewrite (shifted_pos P (ex + -52) 53) in * by (rewrite ?fexp64; lia).
      cbn [fst snd] in *.
      digits_of m1 52. digits_of m1 53. digits_of m1 54.
      destruct (Z_lt_le_dec m1 (2 ^ 53)) as [Hm|Hm].
      * rewrite (shifted_none m1) by (rewrite fexp64; dlia).
        apply leb_pack_above; dlia.
      * rewrite (shifted_pos m1 _ 1) by (rewrite ?fexp64; dlia).
        apply leb_pack_above; dlia.
  - assert (Hex0 : ex = -1074) by lia.
    assert (Hmx : Zpos mx < 2 ^ 52)
      by (apply (digits2_pos_lt mx 52); [lia|fold dx; lia]).
    digits_of P 105.
    rewrite (shifted_pos P (ex + -52) 52) in * by (rewrite ?fexp64; lia).
    cbn [fst snd] in *.
    digits_of m1 53.
    rewrite (shifted_none m1) by (rewrite fexp64; dlia).
    apply leb_pack_above; dlia.
Qed.

(** The product of a positive double by [0.85] is at most the double. *)
Lemma round_085_below (mx : positive) (ex : Z) :
  bounded prec emax mx ex = true ->
  SFleb
    (binary_round_aux prec emax false (Zpos (mx * mant085)) (ex + -53)
       loc_Exact)
    (S754_finite false mx ex)
  = true.
Proof.
  intros Hb. destruct (bounded_canonical mx ex Hb) as [Hcan Hex].
  pose proof (digits2_pos_bounds mx) as Hdx.
  destruct (binary_round_aux_shifted (mx * mant085) (ex + -53))
    as (m1 & Hm1 & _ & ->).
  rewrite Pos2Z.inj_mul in *. unfold mant085 in *.
  set (P := Zpos mx * 7656119366529843) in *.
  set (dx := Zpos (digits2_pos mx)) in *.
  assert (Hdx1 : 1 <= dx <= 53) by lia.
  destruct (Z.eq_dec dx 53) as [E|E].
  - rewrite E in Hdx. change (53 - 1) with 52 in Hdx.
    digits_of P 104. digits_of P 105. digits_of P 106.
    assert (Hex0 : -1074 <= ex) by lia.
    destruct (Z_lt_le_dec P (2 ^ 105)) as [HP|HP];
      [destruct (Z.eq_dec ex (-1074)) as [Ee|Ee]|].
    + rewrite (shifted_pos P (ex + -53) 53) in * by (rewrite ?fexp64; lia).
      cbn [fst snd] in *.
      digits_of m1 53.
      rewrite (shifted_none m1) by (rewrite fexp64; dlia).
      apply leb_pack_below; dlia.
    + rewrite (shifted_pos P (ex + -53) 52) in * by (rewrite ?fexp64; lia).
      cbn [fst snd] in *.
      digits_of m1 52. digits_of m1 53. digits_of m1 54.
      destruct (Z_lt_le_dec m1 (2 ^ 53)) as [Hm|Hm].
      * rewrite (shifted_none m1) by (rewrite fexp64; dlia).
        apply leb_pack_below; dlia.
      * rewrite (shifted_pos m1 _ 1) by (rewrite ?fexp64; dlia).
        apply leb_pack_below; dlia.
    + rewrite (shifted_pos P (ex + -53) 53) in * by (rewrite ?fexp64; lia).
      cbn [fst snd] in *.
      digits_of m1 53.
      rewrite (shifted_none m1) by (rewrite fexp64; dlia).
      apply leb_pack_below; dlia.
  - assert (Hex0 : ex = -1074) by lia.
    assert (Hmx : Zpos mx < 2 ^ 52)
      by (apply (digits2_pos_lt mx 52); [lia|fold dx; lia]).
    digits_of P 105.
    rewrite (shifted_pos P (ex + -53) 53) in * by (rewrite ?fexp64; lia).
    cbn [fst snd] in *.
    digits_of m1 53.
    rewrite (shifted_none m1) by (rewrite fexp64; dlia).
    apply leb_pack_below; dlia.
Qed.

Lemma ltb_pack (m e m' e' : Z) :
  0 < m -> 0 < m' -> e <= 971 ->
  (e < e' \/ (e = e' /\ m < m')) ->
  SFltb (pack m e) (pack m' e') = true.
Proof.
  intros Hm Hm' He H. destruct m as [|p|p]; try lia.
  destruct m' as [|p'|p']; try lia. unfold pack.
  rewrite (proj2 (Z.leb_le e (emax - prec))) by (unfold emax, prec; lia).
  destruct (e' <=? emax - prec)%Z; [|reflexivity].
  unfold SFltb, SFcompare. destruct H as [H|[-> H]].
  - now rewrite (proj2 (Z.compare_lt_iff e e') H).
  - rewrite Z.compare_refl.
    change (Pos.compare_cont Eq p p') with (Pos.compare p p').
    destruct (Pos.compare_spec p p'); try reflexivity; lia.
Qed.

Lemma pack_below_infinity (m e : Z) :
  0 < m -> SFltb (pack m e) (S754_infinity false) = true -> e <= 971.
Proof.
  intros Hm. destruct m as [|p|p]; try lia. unfold pack.
  destruct (e <=? emax - prec)%Z eqn:E; [|discriminate].
  intros _. apply Z.leb_le in E. unfold emax, prec in E. lia.
Qed.

Ltac renormalise m :=
  first
    [ rewrite (shifted_none m) by (rewrite fexp64; dlia)
    | rewrite (shifted_pos m _ 1) by (rewrite ?fexp64; dlia) ].

(** For a normal double whose product by [1.15] is finite, the product by
    [1.1500001] is a larger double. *)
Lemma round_115_strict (mx : positive) (ex : Z) :
  bounded prec emax mx ex = true ->
  Zpos (digits2_pos mx) = 53 ->
  SFltb
    (binary_round_aux prec emax false (Zpos (mx * mant115)) (ex + -52)
       loc_Exact)
    (S754_infinity false)
  = true ->
  SFltb
    (binary_round_aux prec emax false (Zpos (mx * mant115)) (ex + -52)
       loc_Exact)
    (binary_round_aux prec emax false (Zpos (mx * mant115more)) (ex + -52)
       loc_Exact)
  = true.
Proof.
  intros Hb E. destruct (bounded_canonical mx ex Hb) as [Hcan Hex].
  pose proof (digits2_pos_bounds mx) as Hdx. rewrite E in Hdx, Hcan.
  change (53 - 1) with 52 in Hdx.
  destruct (binary_round_aux_shifted (mx * mant115) (ex + -52))
    as (m1 & Hm1 & _ & ->).
  destruct (binary_round_aux_shifted (mx * mant115more) (ex + -52))
    as (m1' & Hm1' & _ & ->).
  rewrite !Pos2Z.inj_mul in *. unfold mant115, mant115more in *.
  set (P := Zpos mx * 5179139571476070) in *.
  set (P' := Zpos mx * 5179140021836033) in *.
  assert (Hex0 : -1074 <= ex) by lia.
  digits_of P 104. digits_of P 105. digits_of P 106.
  digits_of P' 104. digits_of P' 105. digits_of P' 106.
  destruct (Z_lt_le_dec P (2 ^ 105)) as [HP|HP];
    destruct (Z_lt_le_dec P' (2 ^ 105)) as [HP'|HP']; try (exfalso; lia);
    [ rewrite (shifted_pos P (ex + -52) 52) in * by (rewrite ?fexp64; lia);
      rewrite (shifted_pos P' (ex + -52) 52) in * by (rewrite ?fexp64; lia)
    | rewrite (shifted_pos P (ex + -52) 52) in * by (rewrite ?fexp64; lia);
      rewrite (shifted_pos P' (ex + -52) 53) in * by (rewrite ?fexp64; lia)
    | rewrite (shifted_pos P (ex + -52) 53) in * by (rewrite ?fexp64; lia);
      rewrite (shifted_pos P' (ex + -52) 53) in * by
        (rewrite ?fexp64; lia) ];
    cbn [fst snd] in *;
    digits_of m1 52; digits_of m1 53; digits_of m1 54;
    digits_of m1' 52; digits_of m1' 53; digits_of m1' 54;
    destruct (Z_lt_le_dec m1 (2 ^ 53)) as [Hm|Hm];
    destruct (Z_lt_le_dec m1' (2 ^ 53)) as [Hm'|Hm'];
    try (exfalso; dlia);
    renormalise m1; renormalise m1';
    intros Hfin; (apply pack_below_infinity in Hfin; [|dlia]);
    apply ltb_pack; dlia.
Qed.

(** *** The primitive operations against their specification *)

Lemma Prim2SF_zero : Prim2SF PrimFloat.zero = S754_zero false.
Proof. reflexivity. Qed.

Lemma Prim2SF_infinity : Prim2SF PrimFloat.infinity = S754_infinity false.
Proof. reflexivity. Qed.

Lemma Prim2SF_neg_infinity :
  Prim2SF PrimFloat.neg_infinity = S754_infinity true.
Proof. reflexivity. Qed.

Lemma Prim2SF_c115 :
  Prim2SF Binary64.c115 = S754_finite false mant115 (-52).
Proof. reflexivity. Qed.

Lemma Prim2SF_c085 :
  Prim2SF Binary64.c085 = S754_finite false mant085 (-53).
Proof. reflexivity. Qed.

Lemma Prim2SF_c1150001 :
  Prim2SF Binary64.c1150001 = S754_finite false mant115more (-52).
Proof. reflexivity. Qed.

Lemma Prim2SF_smallest_normal :
  Prim2SF Binary64.smallest_normal = S754_finite false (2 ^ 52) (-1074).
Proof. reflexivity. Qed.

Lemma SFeqb_refl (x : spec_float) : SFeqb x x = negb (SFisnan x).
Proof.
  unfold SFeqb, SFcompare.
  destruct x as [[]|[]| |[] m e]; cbn; try reflexivity;
    rewrite Z.compare_refl;
    change (Pos.compare_cont Eq m m) with (Pos.compare m m);
    now rewrite Pos.compare_refl.
Qed.

Lemma is_nan_spec (x : float) : PrimFloat.is_nan x = SFisnan (Prim2SF x).
Proof.
  unfold PrimFloat.is_nan. rewrite FloatAxioms.eqb_spec, SFeqb_refl.
  apply negb_involutive.
Qed.

(** A finite double is a number strictly between the two infinities. *)
Lemma is_finite_spec (x : float) :
  PrimFloat.is_finite x = true ->
  PrimFloat.is_nan x = false
  /\ PrimFloat.ltb x PrimFloat.infinity = true
  /\ PrimFloat.ltb PrimFloat.neg_infinity x = true.
Proof.
  unfold PrimFloat.is_finite, PrimFloat.is_infinity.
  rewrite !is_nan_spec, FloatAxioms.eqb_spec, FloatAxioms.abs_spec,
    !FloatAxioms.ltb_spec.
  rewrite Prim2SF_infinity, Prim2SF_neg_infinity.
  destruct (Prim2SF x) as [[]|[]| |[] m e]; cbn; intros H;
    try discriminate; auto.
Qed.

Lemma float_leb_refl (x : float) :
  PrimFloat.is_nan x = false -> PrimFloat.leb x x = true.
Proof. rewrite is_nan_spec, FloatAxioms.leb_spec. apply SFleb_refl. Qed.

Lemma float_leb_trans (x y z : float) :
  PrimFloat.leb x y = true -> PrimFloat.leb y z = true ->
  PrimFloat.leb x z = true.
Proof. rewrite !FloatAxioms.leb_spec. apply SFleb_trans. Qed.

Lemma float_ltb_not_leb (x y : float) :
  PrimFloat.is_nan x = false -> PrimFloat.is_nan y = false ->
  PrimFloat.ltb x y = negb (PrimFloat.leb y x).
Proof.
  rewrite !is_nan_spec, FloatAxioms.ltb_spec, FloatAxioms.leb_spec.
  apply SFltb_not_leb.
Qed.

Lemma float_ltb_leb (x y : float) :
  PrimFloat.ltb x y = true -> PrimFloat.leb x y = true.
Proof. rewrite FloatAxioms.ltb_spec, FloatAxioms.leb_spec. apply SFltb_leb. Qed.

(** [Math.min] and [Math.max] of two numbers choose one of them, below and
    above both. *)
Lemma float_min2_spec (a b : float) :
  PrimFloat.is_nan a = false -> PrimFloat.is_nan b = false ->
  (Binary64.min2 a b = a \/ Binary64.min2 a b = b)
  /\ PrimFloat.leb (Binary64.min2 a b) a = true
  /\ PrimFloat.leb (Binary64.min2 a b) b = true.
Proof.
  intros Ha Hb. unfold Binary64.min2. rewrite Ha, Hb. cbn [orb].
  pose proof (float_leb_refl a Ha) as Haa.
  pose proof (float_leb_refl b Hb) as Hbb.
  pose proof (float_ltb_not_leb a b Ha Hb) as Hab.
  pose proof (float_ltb_not_leb b a Hb Ha) as Hba.
  destruct (PrimFloat.ltb b a) eqn:E1.
  { pose proof (float_ltb_leb b a E1). auto. }
  symmetry in Hba. apply negb_false_iff in Hba.
  destruct (PrimFloat.ltb a b) eqn:E2.
  { auto. }
  symmetry in Hab. apply negb_false_iff in Hab.
  destruct (PrimFloat.get_sign b); auto.
Qed.

Lemma float_max2_spec (a b : float) :
  PrimFloat.is_nan a = false -> PrimFloat.is_nan b = false ->
  (Binary64.max2 a b = a \/ Binary64.max2 a b = b)
  /\ PrimFloat.leb a (Binary64.max2 a b) = true
  /\ PrimFloat.leb b (Binary64.max2 a b) = true.
Proof.
  intros Ha Hb. unfold Binary64.max2. rewrite Ha, Hb. cbn [orb].
  pose proof (float_leb_refl a Ha) as Haa.
  pose proof (float_leb_refl b Hb) as Hbb.
  pose proof (float_ltb_not_leb a b Ha Hb) as Hab.
  pose proof (float_ltb_not_leb b a Hb Ha) as Hba.
  destruct (PrimFloat.ltb a b) eqn:E1.
  { pose proof (float_ltb_leb a b E1). auto. }
  symmetry in Hab. apply negb_false_iff in Hab.
  destruct (PrimFloat.ltb b a) eqn:E2.
  { auto. }
  symmetry in Hba. apply negb_false_iff in Hba.
  destruct (PrimFloat.get_sign a); auto.
Qed.

(** The same over a list, from a first value on. *)
Lemma float_fold_min2 (xs : list float) :
  forall acc : float,
    PrimFloat.is_nan acc = false ->
    Forall (fun x => PrimFloat.is_nan x = false) xs ->
    let r := fold_left Binary64.min2 xs acc in
    (r = acc \/ r ∈ xs)
    /\ PrimFloat.leb r acc = true
    /\ (forall x, x ∈ xs -> PrimFloat.leb r x = true).
Proof.
  induction xs as [|x xs IH]; intros acc Hacc Hxs; cbn [fold_left].
  - split; [now left|]. split; [now apply float_leb_refl|].
    intros x Hx. now apply elem_of_nil in Hx.
  - apply Forall_cons in Hxs as [Hx Hxs].
    destruct (float_min2_spec acc x Hacc Hx) as (Hsel & Hle1 & Hle2).
    assert (Hnan : PrimFloat.is_nan (Binary64.min2 acc x) = false)
      by (destruct Hsel as [-> | ->]; assumption).
    destruct (IH _ Hnan Hxs) as (Hr & Hracc & Hall).
    split; [|split].
    + destruct Hr as [-> | Hr].
      * destruct Hsel as [-> | ->]; [now left|].
        right. apply elem_of_cons. now left.
      * right. apply elem_of_cons. now right.
    + eapply float_leb_trans; eassumption.
    + intros y Hy. apply elem_of_cons in Hy as [-> | Hy].
      * eapply float_leb_trans; eassumption.
      * now apply Hall.
Qed.

Lemma float_fold_max2 (xs : list float) :
  forall acc : float,
    PrimFloat.is_nan acc = false ->
    Forall (fun x => PrimFloat.is_nan x = false) xs ->
    let r := fold_left Binary64.max2 xs acc in
    (r = acc \/ r ∈ xs)
    /\ PrimFloat.leb acc r = true
    /\ (forall x, x ∈ xs -> PrimFloat.leb x r = true).
Proof.
  induction xs as [|x xs IH]; intros acc Hacc Hxs; cbn [fold_left].
  - split; [now left|]. split; [now apply float_leb_refl|].
    intros x Hx. now apply elem_of_nil in Hx.
  - apply Forall_cons in Hxs as [Hx Hxs].
    destruct (float_max2_spec acc x Hacc Hx) as (Hsel & Hle1 & Hle2).
    assert (Hnan : PrimFloat.is_nan (Binary64.max2 acc x) = false)
      by (destruct Hsel as [-> | ->]; assumption).
    destruct (IH _ Hnan Hxs) as (Hr & Hracc & Hall).
    split; [|split].
    + destruct Hr as [-> | Hr].
      * destruct Hsel as [-> | ->]; [now left|].
        right. apply elem_of_cons. now left.
      * right. apply elem_of_cons. now right.
    + eapply float_leb_trans; eassumption.
    + intros y Hy. apply elem_of_cons in Hy as [-> | Hy].
      * eapply float_leb_trans; eassumption.
      * now apply Hall.
Qed.

(** The filter of [computeStats] keeps the finite numbers of the input. *)
Lemma binary64_valid_values (values : list (option float)) :
  omap Binary64.valid_value values = Binary64.finite_values values.
Proof.
  unfold Binary64.finite_values.
  induction values as [|[x|] values IH]; [reflexivity| |exact IH].
  change (omap id (Some x :: values)) with (x :: omap id values).
  rewrite filter_cons, <- IH.
  change (omap Binary64.valid_value (Some x :: values))
    with (match Binary64.valid_value (Some x) with
          | Some y => y :: omap Binary64.valid_value values
          | None => omap Binary64.valid_value values
          end).
  unfold Binary64.valid_value at 1.
  destruct (PrimFloat.is_finite x) eqn:E.
  - now rewrite decide_True.
  - now rewrite decide_False.
Qed.

Lemma finite_values_finite (values : list (option float)) :
  Forall (fun x => PrimFloat.is_finite x = true)
    (Binary64.finite_values values).
Proof.
  unfold Binary64.finite_values. apply Forall_forall. intros x Hx.
  now apply list_elem_of_filter in Hx as [Hx _].
Qed.

(** With a finite value in the input, the minimum and the maximum that
    [computeStats] returns are the least and the greatest of the finite
    values, and the mean is their running sum over their number. *)
Lemma binary64_computeStats_some
    (values : list (option float)) (x : float) (xs : list float) :
  Binary64.finite_values values = x :: xs ->
  let s := Binary64.computeStats values in
  Binary64.least (Binary64.min s) (x :: xs)
  /\ Binary64.greatest (Binary64.max s) (x :: xs)
  /\ Binary64.mean s
     = PrimFloat.div (fold_left PrimFloat.add (x :: xs) PrimFloat.zero)
         (Binary64.ofNat (length (x :: xs))).
Proof.
  intros E. pose proof (finite_values_finite values) as Hfin.
  unfold Binary64.computeStats. rewrite binary64_valid_values, E in *.
  destruct (decide (length (x :: xs) = 0%nat)) as [E0|_]; [discriminate E0|].
  cbv zeta. cbn [Binary64.min Binary64.max Binary64.mean].
  apply Forall_cons in Hfin as [Hx Hxs].
  destruct (is_finite_spec x Hx) as (Hnan & Hlt & Hgt).
  assert (Hnans : Forall (fun y => PrimFloat.is_nan y = false) xs).
  { eapply Forall_impl; [exact Hxs|]. intros y Hy. now apply is_finite_spec. }
  split; [|split; [|reflexivity]].
  - cbn [fold_left].
    assert (Hfirst : Binary64.min2 PrimFloat.infinity x = x).
    { unfold Binary64.min2. rewrite Hnan, Hlt. reflexivity. }
    rewrite Hfirst.
    destruct (float_fold_min2 xs x Hnan Hnans) as (Hr & Hle & Hall). split.
    + apply elem_of_cons. destruct Hr as [-> | Hr]; auto.
    + intros y Hy. apply elem_of_cons in Hy as [-> | Hy]; auto.
  - cbn [fold_left].
    assert (Hfirst : Binary64.max2 PrimFloat.neg_infinity x = x).
    { unfold Binary64.max2. rewrite Hnan, Hgt. reflexivity. }
    rewrite Hfirst.
    destruct (float_fold_max2 xs x Hnan Hnans) as (Hr & Hle & Hall). split.
    + apply elem_of_cons. destruct Hr as [-> | Hr]; auto.
    + intros y Hy. apply elem_of_cons in Hy as [-> | Hy]; auto.
Qed.

Lemma binary64_computeStats_none (values : list (option float)) :
  Binary64.finite_values values = [] ->
  Binary64.computeStats values
  = Binary64.mk PrimFloat.zero PrimFloat.zero PrimFloat.zero.
Proof.
  intros E. unfold Binary64.computeStats.
  now rewrite binary64_valid_values, E.
Qed.

(** ** computeStats *)

(** C5, in binary64.  The mean that [computeStats] returns is not always the
    arithmetic mean of the values: on two values [2^1023] the sum overflows
    and the mean is [Infinity], and on three values [0.7] the sum rounds and
    the mean is [0.6999999999999998], below each of them. *)
Lemma binary64_mean_not_arithmetic :
  let big := 0x1p1023%float in
  let s := Binary64.computeStats [Some big; Some big] in
  let x := 0x1.6666666666666p-1%float in
  let t := Binary64.computeStats [Some x; Some x; Some x] in
  PrimFloat.is_finite big = true
  /\ Binary64.min s = big
  /\ Binary64.max s = big
  /\ Binary64.mean s = PrimFloat.infinity
  /\ Binary64.min t = x
  /\ Binary64.max t = x
  /\ Binary64.mean t = 0x1.6666666666665p-1%float
  /\ PrimFloat.ltb (Binary64.mean t) x = true.
Proof. vm_compute. repeat split; reflexivity. Qed.

(** C5. [computeStats] keeps the finite numbers of its input.  With none left
    it returns [{mean: 0, min: 0, max: 0}]; otherwise the minimum and the
    maximum are the least and the greatest of them, and the mean is their sum,
    added up from the left in binary64, divided in binary64 by their number.
    In particular [computeStats([])] is [{0, 0, 0}] and
    [computeStats([NaN, 5])] is [{5, 5, 5}]. *)
Theorem binary64_computeStats_spec (values : list (option float)) :
  let valid := Binary64.finite_values values in
  let s := Binary64.computeStats values in
  match valid with
  | [] => s = Binary64.mk PrimFloat.zero PrimFloat.zero PrimFloat.zero
  | _ =>
      Binary64.least (Binary64.min s) valid
      /\ Binary64.greatest (Binary64.max s) valid
      /\ Binary64.mean s
         = PrimFloat.div (fold_left PrimFloat.add valid PrimFloat.zero)
             (Binary64.ofNat (length valid))
  end
  /\ Binary64.computeStats []
     = Binary64.mk PrimFloat.zero PrimFloat.zero PrimFloat.zero
  /\ Binary64.computeStats [Some PrimFloat.nan; Some 5%float]
     = Binary64.mk 5%float 5%float 5%float.
Proof.
  cbv zeta. split; [|split; reflexivity].
  destruct (Binary64.finite_values values) as [|x xs] eqn:E.
  - now apply binary64_computeStats_none.
  - now apply binary64_computeStats_some.
Qed.

(** C8, in binary64.  On three values [0.1] the mean is above the maximum:
    the sum rounds to [0.30000000000000004], a third of which is
    [0.10000000000000002]. *)
Lemma binary64_mean_above_max :
  let s :=
    Binary64.computeStats
      [Some Binary64.tenth; Some Binary64.tenth; Some Binary64.tenth] in
  Binary64.min s = Binary64.tenth
  /\ Binary64.max s = Binary64.tenth
  /\ Binary64.mean s = 0x1.999999999999bp-4%float
  /\ PrimFloat.leb (Binary64.mean s) (Binary64.max s) = false.
Proof. vm_compute. repeat split; reflexivity. Qed.

Lemma finite_values_all (values : list float) :
  Forall (fun x => PrimFloat.is_finite x = true) values ->
  Binary64.finite_values (Some <$> values) = values.
Proof.
  unfold Binary64.finite_values. intros H.
  induction H as [|x xs Hx Hxs IH]; [reflexivity|].
  change (omap id (Some <$> x :: xs)) with (x :: omap id (Some <$> xs)).
  rewrite filter_cons, decide_True by exact Hx. now rewrite IH.
Qed.

(** C8. On a non-empty list of finite numbers the statistics of
    [computeStats] satisfy [min <= max], and every value lies between the
    two. *)
Theorem binary64_computeStats_min_max (values : list float) :
  values <> [] ->
  Forall (fun x => PrimFloat.is_finite x = true) values ->
  let s := Binary64.computeStats (Some <$> values) in
  PrimFloat.leb (Binary64.min s) (Binary64.max s) = true
  /\ forall x : float,
       x ∈ values ->
       PrimFloat.leb (Binary64.min s) x = true
       /\ PrimFloat.leb x (Binary64.max s) = true.
Proof.
  intros Hne Hfin. destruct values as [|x xs]; [congruence|].
  pose proof (finite_values_all _ Hfin) as E.
  destruct (binary64_computeStats_some _ x xs E) as ([_ Hmin] & [_ Hmax] & _).
  cbv zeta. split.
  - eapply float_leb_trans; [apply (Hmin x)|apply (Hmax x)]; apply elem_of_cons;
      now left.
  - intros y Hy. split; [now apply Hmin|now apply Hmax].
Qed.

Lemma binary64_computeStats_min_max_witness :
  let values := [Binary64.tenth; Binary64.tenth; Binary64.tenth] in
  let s := Binary64.computeStats (Some <$> values) in
  PrimFloat.leb (Binary64.min s) (Binary64.max s) = true
  /\ forall x : float,
       x ∈ values ->
       PrimFloat.leb (Binary64.min s) x = true
       /\ PrimFloat.leb x (Binary64.max s) = true.
Proof.
  apply (binary64_computeStats_min_max
           [Binary64.tenth; Binary64.tenth; Binary64.tenth]).
  - discriminate.
  - repeat constructor.
Defined.

(** ** The thresholds *)

(** A double above zero is at most its product by [1.15]. *)
Lemma mul_c115_above (m : float) :
  PrimFloat.ltb PrimFloat.zero m = true ->
  PrimFloat.leb m (PrimFloat.mul m Binary64.c115) = true.
Proof.
  rewrite FloatAxioms.ltb_spec, FloatAxioms.leb_spec, FloatAxioms.mul_spec,
    Prim2SF_zero, Prim2SF_c115.
  pose proof (Prim2SF_valid m) as Hvalid.
  destruct (Prim2SF m) as [[]|[]| |[] mx ex]; cbn; try discriminate;
    try reflexivity.
  intros _. now apply round_115_above.
Qed.

(** A double above zero is at least its product by [0.85]. *)
Lemma mul_c085_below (m : float) :
  PrimFloat.ltb PrimFloat.zero m = true ->
  PrimFloat.leb (PrimFloat.mul m Binary64.c085) m = true.
Proof.
  rewrite FloatAxioms.ltb_spec, FloatAxioms.leb_spec, FloatAxioms.mul_spec,
    Prim2SF_zero, Prim2SF_c085.
  pose proof (Prim2SF_valid m) as Hvalid.
  destruct (Prim2SF m) as [[]|[]| |[] mx ex]; cbn; try discriminate;
    try reflexivity.
  intros _. now apply round_085_below.
Qed.

(** Under a mean above zero, the infinite one too, no double is both high
    and low: the rounded thresholds are on the two sides of the mean. *)
Lemma binary64_high_low_exclusive (v : float) (s : Binary64.Stats) :
  PrimFloat.ltb PrimFloat.zero (Binary64.mean s) = true ->
  (Binary64.high v s && Binary64.low v s)%bool = false.
Proof.
  intros Hpos. apply not_true_is_false. intros H.
  apply andb_true_iff in H as [Hh Hl].
  unfold Binary64.high, Binary64.low in *.
  pose proof (mul_c115_above _ Hpos) as Hup.
  pose proof (mul_c085_below _ Hpos) as Hdown.
  rewrite FloatAxioms.ltb_spec in Hh, Hl.
  rewrite FloatAxioms.leb_spec in Hup, Hdown.
  pose proof (SFleb_ltb_trans _ _ _ Hup Hh) as H1.
  pose proof (SFltb_leb_trans _ _ _ Hl Hdown) as H2.
  pose proof (SFltb_leb_trans _ _ _ H1 (SFltb_leb _ _ H2)) as H3.
  now rewrite SFltb_irrefl in H3.
Qed.

(** The threshold itself is not high. *)
Lemma binary64_high_strict (s : Binary64.Stats) :
  Binary64.high (PrimFloat.mul (Binary64.mean s) Binary64.c115) s = false.
Proof.
  unfold Binary64.high. rewrite FloatAxioms.ltb_spec. apply SFltb_irrefl.
Qed.

(** For a normal mean with a finite threshold, [mean * 1.1500001] is a
    larger double than the threshold. *)
Lemma binary64_high_above (s : Binary64.Stats) :
  PrimFloat.leb Binary64.smallest_normal (Binary64.mean s) = true ->
  PrimFloat.ltb (PrimFloat.mul (Binary64.mean s) Binary64.c115)
    PrimFloat.infinity = true ->
  Binary64.high (PrimFloat.mul (Binary64.mean s) Binary64.c1150001) s = true.
Proof.
  unfold Binary64.high.
  rewrite FloatAxioms.leb_spec, !FloatAxioms.ltb_spec, !FloatAxioms.mul_spec,
    Prim2SF_smallest_normal, Prim2SF_infinity, Prim2SF_c115,
    Prim2SF_c1150001.
  pose proof (Prim2SF_valid (Binary64.mean s)) as Hvalid.
  destruct (Prim2SF (Binary64.mean s)) as [[]|[]| |[] mx ex];
    cbn [SFmul xorb]; try discriminate.
  intros Hnormal Hfin. apply round_115_strict; try assumption.
  cbn [valid_binary] in Hvalid.
  destruct (bounded_canonical mx ex Hvalid) as [Hcan Hex].
  pose proof (digits2_pos_bounds mx) as Hdx.
  unfold SFleb, SFcompare in Hnormal.
  change (Pos.compare_cont Eq) with Pos.compare in Hnormal.
  destruct (Z.compare_spec (-1074) ex) as [He|He|He];
    try discriminate.
  - subst ex.
    destruct (Pos.compare_spec (2 ^ 52) mx) as [Hm|Hm|Hm]; try discriminate.
    + rewrite <- Hm in *. vm_compute. reflexivity.
    + assert (2 ^ 52 < Zpos mx)
        by (change (2 ^ 52) with (Zpos (2 ^ 52)); lia).
      digits_of (Zpos mx) 52. digits_of (Zpos mx) 53.
      cbn [Zdigits2] in *. lia.
  - lia.
Qed.

(** C4, in binary64.  [115] is [1.15 * 100], and [high(115, {mean: 100})] is
    true: the product [100 * 1.15] rounds to [114.99999999999999].  At the
    mean [5e-324] the products by [1.15] and by [1.1500001] are the same
    double, and at the mean [1.7976931348623157e308] both are [Infinity]: in
    neither case is [1.1500001 * mean] high. *)
Lemma binary64_high_at_threshold :
  let tiny := 0x1p-1074%float in
  let huge := 0x1.fffffffffffffp+1023%float in
  (Num.ofZ 100 * Num.dec 115 100)%num = Num.ofZ 115
  /\ PrimFloat.mul 100%float Binary64.c115 = 0x1.cbfffffffffffp+6%float
  /\ Binary64.high 115%float (Binary64.mk 100%float 100%float 100%float)
     = true
  /\ Binary64.high (PrimFloat.mul tiny Binary64.c1150001)
       (Binary64.mk tiny tiny tiny) = false
  /\ Binary64.high (PrimFloat.mul huge Binary64.c1150001)
       (Binary64.mk huge huge huge) = false.
Proof.
  split.
  - unfold Num.ofZ, Num.dec, Num.mul. f_equal. apply Qc_is_canon. reflexivity.
  - vm_compute. repeat split; reflexivity.
Qed.

(** C4. For stats with a mean above zero, [high] and [low] never hold of the
    same value.  [high] is strict: it fails at the double [mean * 1.15]; and
    it holds at [mean * 1.1500001] when the mean is a normal double (at least
    [2^-1022]) and [mean * 1.15] is finite. *)
Theorem binary64_high_low_thresholds (v : float) (s : Binary64.Stats) :
  PrimFloat.ltb PrimFloat.zero (Binary64.mean s) = true ->
  (Binary64.high v s && Binary64.low v s)%bool = false
  /\ Binary64.high (PrimFloat.mul (Binary64.mean s) Binary64.c115) s = false
  /\ (PrimFloat.leb Binary64.smallest_normal (Binary64.mean s) = true ->
      PrimFloat.ltb (PrimFloat.mul (Binary64.mean s) Binary64.c115)
        PrimFloat.infinity = true ->
      Binary64.high (PrimFloat.mul (Binary64.mean s) Binary64.c1150001) s
      = true).
Proof.
  intros Hpos. split; [now apply binary64_high_low_exclusive|].
  split; [apply binary64_high_strict|apply binary64_high_above].
Qed.

Lemma binary64_high_low_thresholds_witness :
  let s := Binary64.mk 100%float 50%float 200%float in
  (Binary64.high 120%float s && Binary64.low 120%float s)%bool = false
  /\ Binary64.high (PrimFloat.mul 100%float Binary64.c115) s = false
  /\ Binary64.high (PrimFloat.mul 100%float Binary64.c1150001) s = true.
Proof.
  destruct (binary64_high_low_thresholds 120%float
              (Binary64.mk 100%float 50%float 200%float) eq_refl)
    as (Hboth & Hat & Habove).
  split; [exact Hboth|]. split; [exact Hat|].
  apply Habove; reflexivity.
Defined.

(** ** The advisor *)

Section AdvisorFacts.

Variable host : Qc -> string.

(** A card that ends with the fallback is never empty. *)
Lemma fallback_nonempty (bullets whyLines : list string) (b w : string) :
  (1 <= length
          (if decide (length bullets = 0%nat)
           then (bullets ++ [b], whyLines ++ [w])
           else (bullets, whyLines)).1)%nat.
Proof.
  destruct (decide (length bullets = 0%nat)) as [E|E]; cbn [fst].
  - rewrite length_app. simpl. lia.
  - lia.
Qed.

Lemma costLevers_nonempty (anchorInputs : gmap string number)
    (s1 s2 s3 : Stats.t) :
  (1 <= length (costLevers host anchorInputs s1 s2 s3).1)%nat.
Proof.
  unfold costLevers. cbv zeta.
  repeat match goal with
         | |- (1 <= length (let '(_, _) := ?e in _).1)%nat => destruct e
         end.
  apply fallback_nonempty.
Qed.

Lemma fieldPerformance_nonempty (anchorOutputs : gmap string number)
    (s1 s2 : Stats.t) :
  (1 <= length (fieldPerformance host anchorOutputs s1 s2).1)%nat.
Proof.
  unfold fieldPerformance. cbv zeta.
  repeat match goal with
         | |- (1 <= length (let '(_, _) := ?e in _).1)%nat => destruct e
         end.
  apply fallback_nonempty.
Qed.

(** The cure card has one bullet for each of its two fields that the anchor
    has, and no other. *)
Lemma cureAndOven_length (anchorInputs anchorOutputs : gmap string number)
    (s1 s2 : Stats.t) :
  length (cureAndOven host anchorInputs anchorOutputs s1 s2).1
  = ((if anchorOutputs !! "Cure Time" is Some _ then 1 else 0)
     + (if anchorInputs !! "Oven Temperature" is Some _ then 1 else 0))%nat.
Proof.
  unfold cureAndOven.
  repeat match goal with
         | |- context [match ?m !! ?k with _ => _ end] => destruct (m !! k)
         | |- context [if high ?v ?s then _ else _] => destruct (high v s)
         end;
    reflexivity.
Qed.

(** The three sections, by their bullets. *)
Lemma buildAdvisorSections_bullets
    (anchor : Experiment.t) (allExperiments : list Experiment.t) :
  exists cost cure field : list string,
    AdvisorSection.bullets <$> buildAdvisorSections host anchor allExperiments
    = [cost; cure; field]
    /\ (1 <= length cost)%nat
    /\ length cure
       = ((if Experiment.outputs anchor !! "Cure Time" is Some _ then 1 else 0)
          + (if Experiment.inputs anchor !! "Oven Temperature" is Some _
             then 1 else 0))%nat
    /\ (1 <= length field)%nat.
Proof.
  unfold buildAdvisorSections.
  pose proof (costLevers_nonempty (Experiment.inputs anchor)
                (statsForField allExperiments "Co-Agent 1" input)
                (statsForField allExperiments "Co-Agent 2" input)
                (statsForField allExperiments "Carbon Black High Grade" input))
    as Hcost.
  pose proof (cureAndOven_length (Experiment.inputs anchor)
                (Experiment.outputs anchor)
                (statsForField allExperiments "Cure Time" output)
                (statsForField allExperiments "Oven Temperature" input))
    as Hcure.
  pose proof (fieldPerformance_nonempty (Experiment.outputs anchor)
                (statsForField allExperiments "Compression Set" output)
                (statsForField allExperiments "Elongation" output))
    as Hfield.
  cbv zeta.
  destruct (costLevers _ _ _ _ _) as [cost whyCost].
  destruct (cureAndOven _ _ _ _ _) as [cure whyCure].
  destruct (fieldPerformance _ _ _ _) as [field whyField].
  exists cost, cure, field. auto.
Qed.

(** C7. [buildAdvisorSections] returns three sections, [cost], [cure] and
    [field], in this order. *)
Theorem buildAdvisorSections_ids
    (anchor : Experiment.t) (allExperiments : list Experiment.t) :
  AdvisorSection.id <$> buildAdvisorSections host anchor allExperiments
  = ["cost"; "cure"; "field"].
Proof.
  unfold buildAdvisorSections. cbv zeta.
  destruct (costLevers _ _ _ _ _) as [cost whyCost].
  destruct (cureAndOven _ _ _ _ _) as [cure whyCure].
  destruct (fieldPerformance _ _ _ _) as [field whyField].
  reflexivity.
Qed.

End AdvisorFacts.

(** C1. At an anchor that has neither a cure time nor an oven temperature
    the section [cure] comes back with no bullet at all, whatever the
    dataset: no fallback follows the two cure rules, unlike the rules of the
    [cost] and [field] sections. *)
Theorem cure_section_without_bullets (host : Qc -> string)
    (anchor : Experiment.t) (allExperiments : list Experiment.t) :
  Experiment.outputs anchor !! "Cure Time" = None ->
  Experiment.inputs anchor !! "Oven Temperature" = None ->
  exists cost field : list string,
    (fun s => (AdvisorSection.id s, AdvisorSection.bullets s))
      <$> buildAdvisorSections host anchor allExperiments
    = [("cost", cost); ("cure", []); ("field", field)].
Proof.
  intros Hcure Hoven. unfold buildAdvisorSections. cbv zeta.
  unfold cureAndOven. rewrite Hcure, Hoven. cbv zeta.
  destruct (costLevers _ _ _ _ _) as [cost whyCost].
  destruct (fieldPerformance _ _ _ _) as [field whyField].
  exists cost, field. reflexivity.
Qed.

Lemma cure_section_without_bullets_witness :
  exists cost field : list string,
    (fun s => (AdvisorSection.id s, AdvisorSection.bullets s))
      <$> buildAdvisorSections plainHost unrecognisedAnchor [unrecognisedAnchor]
    = [("cost", cost); ("cure", []); ("field", field)].
Proof.
  apply (cure_section_without_bullets plainHost unrecognisedAnchor
           [unrecognisedAnchor]).
  - vm_compute. reflexivity.
  - vm_compute. reflexivity.
Defined.

(** The same anchor by the number of bullets in each section. *)
Example buildAdvisorSections_unrecognisedAnchor (host : Qc -> string) :
  (fun s => (AdvisorSection.id s, length (AdvisorSection.bullets s)))
    <$> buildAdvisorSections host unrecognisedAnchor [unrecognisedAnchor]
  = [("cost", 1%nat); ("cure", 0%nat); ("field", 1%nat)].
Proof. vm_compute. reflexivity. Qed.

(** ** The range histogram *)

Lemma totalCount_insert (bins : list HistogramBin.t) :
  forall (i : nat) (b b' : HistogramBin.t),
    bins !! i = Some b ->
    (totalCount (<[i := b']> bins) + HistogramBin.count b
     = totalCount bins + HistogramBin.count b')%nat.
Proof.
  unfold totalCount.
  induction bins as [|b0 bins IH]; intros i b b' Hi; [discriminate Hi|].
  destruct i as [|i]; simpl in *.
  - injection Hi as ->. lia.
  - specialize (IH i b b' Hi). lia.
Qed.

(** Integers as array positions. *)
Lemma Qfloor_Q2Qc_Z (z : Z) : Qfloor (Q2Qc (inject_Z z)) = z.
Proof.
  cbn [Q2Qc this]. rewrite (Qfloor_comp _ _ (Qred_correct _)). apply Qfloor_Z.
Qed.

Lemma arrayIndex_ofZ (z : Z) :
  0 <= z -> arrayIndex (Num.ofZ z) = Some (Z.to_nat z).
Proof.
  intros Hz. unfold arrayIndex, Num.ofZ. rewrite Qfloor_Q2Qc_Z.
  destruct (decide _) as [_|H]; [reflexivity|]. exfalso. apply H. now split.
Qed.

Lemma ofNat_minus_one (n : nat) :
  (Num.ofNat n - Num.ofZ 1)%num = Num.ofZ (Z.of_nat n - 1).
Proof.
  unfold Num.ofNat, Num.ofZ, Num.sub, Num.neg, Num.add. f_equal.
  apply Qc_is_canon. qc2q.
  unfold Z.sub. now rewrite inject_Z_plus, inject_Z_opp.
Qed.

Lemma ge_ofZ (a b : Z) : (Num.ofZ a >=? Num.ofZ b)%num = true <-> b <= a.
Proof.
  unfold Num.ge, Num.ofZ. rewrite le_Fin. qc2q. now rewrite <- Zle_Qle.
Qed.

Lemma div_Fin (a s : Qc) :
  s <> Q2Qc 0 -> (Fin a / Fin s)%num = Fin (a / s)%Qc.
Proof.
  intros Hs. unfold Num.div. now destruct (decide (s = Q2Qc 0)).
Qed.

Lemma finite_list (l : list number) :
  Forall (fun x => Num.isFinite x = true) l -> exists qs, l = Fin <$> qs.
Proof.
  induction 1 as [|x l Hx _ [qs ->]]; [now exists []|].
  destruct x as [| | |q]; try discriminate. now exists (q :: qs).
Qed.

Lemma totalCount_map_zero {A : Type} (f : A -> HistogramBin.t) (l : list A) :
  (forall x, HistogramBin.count (f x) = 0%nat) -> totalCount (map f l) = 0%nat.
Proof.
  intros Hf. unfold totalCount.
  induction l as [|x l IH]; simpl; [reflexivity|]. now rewrite Hf, IH.
Qed.

Section HistogramFacts.

Variable host : Qc -> string.

(** One turn of the counting loop adds one to the total and keeps the
    number of bins. *)
Lemma countValue_total (minVal step : number) (binCount : nat)
    (rawBins rawBins' : list HistogramBin.t) (v : number) :
  countValue minVal step binCount rawBins v = Returns rawBins' ->
  totalCount rawBins' = S (totalCount rawBins)
  /\ length rawBins' = length rawBins.
Proof.
  unfold countValue.
  destruct (arrayIndex _) as [i|]; [|discriminate].
  destruct (rawBins !! i) as [b|] eqn:Hb; [|discriminate].
  intros [= <-]. split; [|apply length_insert].
  pose proof (totalCount_insert rawBins i b
                (HistogramBin.mk (HistogramBin.binLabel b)
                   (HistogramBin.count b + 1)) Hb) as H.
  cbn [HistogramBin.count] in H. lia.
Qed.

Lemma forOf_countValue_total (minVal step : number) (binCount : nat)
    (values : list number) :
  forall rawBins rawBins' : list HistogramBin.t,
    forOf values (countValue minVal step binCount) rawBins = Returns rawBins' ->
    totalCount rawBins' = (length values + totalCount rawBins)%nat
    /\ length rawBins' = length rawBins.
Proof.
  induction values as [|v values IH]; intros rawBins rawBins'; cbn [forOf].
  - intros [= <-]. split; reflexivity.
  - destruct (countValue minVal step binCount rawBins v) as [bins1|e] eqn:Hv;
      [|discriminate].
    cbn. intros Hrest.
    apply countValue_total in Hv as [Hv1 Hv2].
    apply IH in Hrest as [H1 H2]. rewrite H1, H2, Hv1, Hv2.
    split; [simpl; lia|reflexivity].
Qed.

Lemma emptyBins_total (minVal maxVal step : number) (binCount : nat) :
  totalCount (emptyBins host minVal maxVal step binCount) = 0%nat
  /\ length (emptyBins host minVal maxVal step binCount) = binCount.
Proof.
  unfold emptyBins. split.
  - apply totalCount_map_zero. reflexivity.
  - now rewrite length_map, length_seq.
Qed.

(** Whenever the builder returns, the counts of its bins add up to the
    number of collected values, and [matchingCount] is the number of
    experiments inside the window. *)
Lemma buildHistogramData_counts (experiments : list Experiment.t)
    (inputKey outputKey : string) (minOut maxOut : number) (binCount : nat)
    (h : Histogram.t) :
  buildHistogramData host experiments inputKey outputKey minOut maxOut binCount
  = Returns h ->
  totalCount (Histogram.bins h)
  = length (collectedValues experiments inputKey outputKey minOut maxOut)
  /\ Histogram.matchingCount h
     = length (matchingExperiments experiments outputKey minOut maxOut).
Proof.
  unfold buildHistogramData, collectedValues. cbv zeta.
  set (filtered := matchingExperiments experiments outputKey minOut maxOut).
  set (values := omap _ filtered).
  destruct (decide (length filtered = 0%nat)) as [E0|_].
  { intros [= <-]. cbn. split; [|now rewrite E0].
    subst values. apply length_zero_iff_nil in E0. now rewrite E0. }
  destruct (decide (length values = 0%nat)) as [E1|_].
  { intros [= <-]. cbn. now rewrite E1. }
  destruct (Num.min values === Num.max values)%num.
  { intros [= <-]. cbn. split; [lia|reflexivity]. }
  destruct (forOf values _ _) as [rawBins|e] eqn:Hloop; [|discriminate].
  cbn. intros [= <-]. cbn [Histogram.bins Histogram.matchingCount].
  apply forOf_countValue_total in Hloop as [Hloop _].
  rewrite Hloop, (proj1 (emptyBins_total _ _ _ _)). split; [lia|reflexivity].
Qed.

(** What passes the window test is inside the range. *)
Lemma inWindow_insideRange (outputKey : string) (minOut maxOut : number)
    (exp : Experiment.t) :
  inWindow outputKey minOut maxOut exp = true ->
  insideRange outputKey minOut maxOut exp.
Proof.
  unfold inWindow, insideRange.
  destruct (Experiment.outputs exp !! outputKey) as [x|]; [|discriminate].
  intros H. apply andb_prop in H as [H Hmax]. apply andb_prop in H as [_ Hmin].
  exists x. auto.
Qed.

Lemma matchingExperiments_none (experiments : list Experiment.t)
    (outputKey : string) (minOut maxOut : number) :
  (forall exp, exp ∈ experiments -> ~ insideRange outputKey minOut maxOut exp) ->
  matchingExperiments experiments outputKey minOut maxOut = [].
Proof.
  unfold matchingExperiments.
  induction experiments as [|exp experiments IH]; intros H; [reflexivity|].
  cbn [List.filter].
  destruct (inWindow outputKey minOut maxOut exp) eqn:E.
  - exfalso. apply (H exp); [apply elem_of_cons; now left|].
    now apply inWindow_insideRange.
  - apply IH. intros e He. apply H, elem_of_cons. now right.
Qed.

(** No collected value is [NaN]. *)
Lemma collectedValues_not_NaN (experiments : list Experiment.t)
    (inputKey outputKey : string) (minOut maxOut : number) (x : number) :
  x ∈ collectedValues experiments inputKey outputKey minOut maxOut -> x <> NaN.
Proof.
  unfold collectedValues. intros Hx.
  apply list_elem_of_omap in Hx as (exp & _ & Hrec).
  unfold recorded in Hrec.
  destruct (Experiment.inputs exp !! inputKey) as [[| | |q]|];
    cbn in Hrec; congruence.
Qed.

Lemma eq_refl_number (v : number) : v <> NaN -> (v === v)%num = true.
Proof.
  destruct v as [| | |q]; intros H; try reflexivity; [congruence|].
  now apply eq_Fin.
Qed.

Lemma min2_same (v : number) : v <> NaN -> Num.min2 v v = v.
Proof.
  intros H. pose proof (eq_refl_number v H) as E. unfold Num.eq in E.
  unfold Num.min2. destruct (Num.cmp v v) as [[]|]; congruence.
Qed.

Lemma max2_same (v : number) : v <> NaN -> Num.max2 v v = v.
Proof.
  intros H. pose proof (eq_refl_number v H) as E. unfold Num.eq in E.
  unfold Num.max2. destruct (Num.cmp v v) as [[]|]; congruence.
Qed.

Lemma fold_same (f : number -> number -> number) (v : number)
    (l : list number) :
  f v v = v -> Forall (fun x => x = v) l -> fold_left f l v = v.
Proof.
  intros Hf. induction 1 as [|x l -> _ IH]; cbn [fold_left]; [reflexivity|].
  now rewrite Hf.
Qed.

(** Of values that are all the one number [v], [v] is both extremes. *)
Lemma min_max_same (v : number) (l : list number) :
  v <> NaN -> l <> [] -> Forall (fun x => x = v) l ->
  Num.min l = v /\ Num.max l = v.
Proof.
  intros Hv Hl Hall. destruct Hall as [|x l -> Hall]; [congruence|].
  unfold Num.min, Num.max. cbn [fold_left].
  replace (Num.min2 PosInfinity v) with v by (now destruct v).
  replace (Num.max2 NegInfinity v) with v by (now destruct v).
  split; apply fold_same; auto using min2_same, max2_same.
Qed.

(** When no record has its output inside the requested range the result is
    no bin and [matchingCount = 0].  When the values that the builder
    collects, the infinite ones among them, are all the same number, there is
    one bin, labelled with that number to two decimals, and its count is the
    number of these values. *)
Lemma buildHistogramData_same_values :
  (forall (experiments : list Experiment.t) (inputKey outputKey : string)
          (minOut maxOut : number) (binCount : nat),
      (forall exp, exp ∈ experiments ->
                   ~ insideRange outputKey minOut maxOut exp) ->
      buildHistogramData host experiments inputKey outputKey minOut maxOut
        binCount
      = Returns (Histogram.mk [] 0))
  /\ (forall (experiments : list Experiment.t) (inputKey outputKey : string)
             (minOut maxOut : number) (binCount : nat) (v : number),
         collectedValues experiments inputKey outputKey minOut maxOut <> [] ->
         Forall (fun x => x = v)
           (collectedValues experiments inputKey outputKey minOut maxOut) ->
         buildHistogramData host experiments inputKey outputKey minOut maxOut
           binCount
         = Returns
             (Histogram.mk
                [HistogramBin.mk (toFixed host v 2)
                   (length (collectedValues experiments inputKey outputKey
                              minOut maxOut))]
                (length (matchingExperiments experiments outputKey
                           minOut maxOut)))).
Proof.
  split.
  - intros experiments inputKey outputKey minOut maxOut binCount Hnone.
    unfold buildHistogramData.
    now rewrite (matchingExperiments_none _ _ _ _ Hnone).
  - intros experiments inputKey outputKey minOut maxOut binCount v Hne Hall.
    assert (Hv : v <> NaN).
    { destruct (collectedValues experiments inputKey outputKey minOut maxOut)
        as [|x l] eqn:E; [congruence|].
      pose proof (Forall_inv Hall) as ->.
      apply (collectedValues_not_NaN experiments inputKey outputKey minOut maxOut).
      rewrite E. apply elem_of_cons. now left. }
    destruct (min_max_same v _ Hv Hne Hall) as [Hmin Hmax].
    unfold buildHistogramData. cbv zeta. rewrite Hmin, Hmax.
    rewrite (eq_refl_number v Hv).
    destruct (decide (length (matchingExperiments _ _ _ _) = 0%nat)) as [E0|_].
    { exfalso. apply Hne. unfold collectedValues.
      apply length_zero_iff_nil in E0. now rewrite E0. }
    destruct (decide (length (collectedValues _ _ _ _ _) = 0%nat)) as [E1|_].
    { exfalso. apply Hne. now apply length_zero_iff_nil. }
    reflexivity.
Qed.

(** *** The builder returns on finite values

    With one bin or more and collected values that are all finite, every
    index of the counting loop is within the bins. *)

Lemma countValue_returns (m x step : Qc) (binCount : nat)
    (rawBins : list HistogramBin.t) :
  (m <= x)%Qc -> (Q2Qc 0 < step)%Qc -> (1 <= binCount)%nat ->
  length rawBins = binCount ->
  exists rawBins',
    countValue (Fin m) (Fin step) binCount rawBins (Fin x) = Returns rawBins'.
Proof.
  intros Hmx Hstep Hn Hlen. unfold countValue.
  assert (Hne : step <> Q2Qc 0) by (apply not_eq_sym, Qclt_not_eq, Hstep).
  change (Fin x - Fin m)%num with (Fin (x + - m)%Qc).
  rewrite !div_Fin by exact Hne.
  cbn [Num.floor]. set (z := Qfloor ((x + - m) / step)%Qc).
  assert (Hz : 0 <= z).
  { subst z. change 0 with (Qfloor 0). apply Qfloor_resp_le.
    assert (H : (Q2Qc 0 <= (x + - m) / step)%Qc).
    { apply Qc_le_div; [exact Hstep|].
      replace (Q2Qc 0 * step)%Qc with (Q2Qc 0) by ring.
      now apply Qcle_minus_iff in Hmx. }
    exact H. }
  unfold Num.ofNat at 1.
  destruct (Num.ofZ z >=? Num.ofZ (Z.of_nat binCount))%num eqn:E.
  - rewrite ofNat_minus_one, arrayIndex_ofZ by lia.
    destruct (lookup_lt_is_Some_2 rawBins (Z.to_nat (Z.of_nat binCount - 1)))
      as [b ->]; [lia|]. eauto.
  - rewrite arrayIndex_ofZ by exact Hz.
    assert (Hlt : z < Z.of_nat binCount).
    { apply Z.nle_gt. intros H. apply ge_ofZ in H. congruence. }
    destruct (lookup_lt_is_Some_2 rawBins (Z.to_nat z)) as [b ->]; [lia|].
    eauto.
Qed.

Lemma forOf_countValue_returns (m step : Qc) (binCount : nat) (qs : list Qc) :
  (Q2Qc 0 < step)%Qc -> (1 <= binCount)%nat ->
  (forall q, q ∈ qs -> (m <= q)%Qc) ->
  forall rawBins : list HistogramBin.t,
    length rawBins = binCount ->
    exists rawBins',
      forOf (Fin <$> qs) (countValue (Fin m) (Fin step) binCount) rawBins
      = Returns rawBins'.
Proof.
  intros Hstep Hn. induction qs as [|q qs IH]; intros Hlow rawBins Hlen.
  - exists rawBins. reflexivity.
  - rewrite fmap_cons. cbn [forOf].
    destruct (countValue_returns m q step binCount rawBins) as [bins1 Hq];
      auto.
    { apply Hlow, elem_of_cons. now left. }
    rewrite Hq. cbn.
    apply countValue_total in Hq as [_ Hlen1].
    apply IH; [|congruence].
    intros x Hx. apply Hlow, elem_of_cons. now right.
Qed.

(** With a bin count of one or more, and with the step and the index
    computed exactly, the builder returns whenever the collected values are
    finite.  (In binary64 a span that overflows or a step that rounds to
    zero makes the index [NaN] as an infinite input does.) *)
Lemma buildHistogramData_returns (experiments : list Experiment.t)
    (inputKey outputKey : string) (minOut maxOut : number) (binCount : nat) :
  (1 <= binCount)%nat ->
  Forall (fun x => Num.isFinite x = true)
    (collectedValues experiments inputKey outputKey minOut maxOut) ->
  exists h : Histogram.t,
    buildHistogramData host experiments inputKey outputKey minOut maxOut
      binCount
    = Returns h.
Proof.
  intros Hn Hfin. unfold buildHistogramData. cbv zeta.
  destruct (decide _) as [|_]; [eauto|].
  destruct (decide _) as [|Hlen]; [eauto|].
  destruct (finite_list _ Hfin) as [qs Hqs]. rewrite Hqs in *.
  destruct qs as [|q qs]; [done|].
  destruct (min_Fin q qs) as (m & -> & Hm & Hlow).
  destruct (max_Fin q qs) as (M & -> & HM & Hup).
  destruct (Fin m === Fin M)%num eqn:E; [eauto|].
  assert (HmM : (m < M)%Qc).
  { destruct (Qcle_lt_or_eq m M (Hup m Hm)) as [H|H]; [exact H|].
    apply eq_Fin in H. congruence. }
  change (Fin M - Fin m)%num with (Fin (M + - m)%Qc).
  rewrite div_Fin_nat by lia.
  assert (Hstep : (Q2Qc 0 < (M + - m) / Qc_of_nat binCount)%Qc).
  { apply Qclt_minus_iff in HmM.
    unfold Qcdiv. rewrite <- (Qcmult_0_l (/ Qc_of_nat binCount)).
    apply Qcmult_lt_compat_r; [|exact HmM].
    apply Qc_inv_pos, Qc_of_nat_pos. lia. }
  destruct (forOf_countValue_returns m _ binCount (q :: qs) Hstep Hn Hlow
              (emptyBins host (Fin m) (Fin M)
                 (Fin ((M + - m) / Qc_of_nat binCount)%Qc) binCount)
              (proj2 (emptyBins_total _ _ _ _)))
    as [rawBins ->].
  cbn. eauto.
Qed.

(** When the recorded inputs of the matching experiments are all finite, the
    collected values are as many as the matching experiments with a finite
    input, and the counts add up to that number. *)
Lemma collectedValues_finite_count (experiments : list Experiment.t)
    (inputKey outputKey : string) (minOut maxOut : number) :
  Forall (fun x => Num.isFinite x = true)
    (collectedValues experiments inputKey outputKey minOut maxOut) ->
  length (collectedValues experiments inputKey outputKey minOut maxOut)
  = finiteInputCount experiments inputKey outputKey minOut maxOut.
Proof.
  unfold collectedValues, finiteInputCount.
  induction (matchingExperiments experiments outputKey minOut maxOut)
    as [|exp l IH]; intros Hfin; [reflexivity|].
  cbn [omap list_omap List.filter] in *.
  destruct (Experiment.inputs exp !! inputKey) as [[| | |q]|]; cbn in *;
    try (now apply IH);
    try (apply Forall_cons in Hfin as [Hx Hfin]; try discriminate Hx;
         cbn; f_equal; now apply IH).
Qed.

Lemma buildHistogramData_counts_finite (experiments : list Experiment.t)
    (inputKey outputKey : string) (minOut maxOut : number) (binCount : nat)
    (h : Histogram.t) :
  Forall (fun x => Num.isFinite x = true)
    (collectedValues experiments inputKey outputKey minOut maxOut) ->
  buildHistogramData host experiments inputKey outputKey minOut maxOut binCount
  = Returns h ->
  totalCount (Histogram.bins h)
  = finiteInputCount experiments inputKey outputKey minOut maxOut.
Proof.
  intros Hfin Hh. apply buildHistogramData_counts in Hh as [-> _].
  now apply collectedValues_finite_count.
Qed.

End HistogramFacts.

(** The three sample runs over the range [[10, 30]]: three matching runs,
    six bins, and counts that add up to three. *)
Example buildHistogramData_sampleRuns :
  buildHistogramData plainHost sampleRuns "Polymer 1" "Tensile Strength"
    (Num.ofZ 10) (Num.ofZ 30) defaultBinCount
  = Returns
      (Histogram.mk
         [ HistogramBin.mk "1.0–1.2" 2; HistogramBin.mk "1.2–1.3" 0;
           HistogramBin.mk "1.3–1.5" 0; HistogramBin.mk "1.5–1.7" 0;
           HistogramBin.mk "1.7–1.8" 0; HistogramBin.mk "1.8–2.0" 1 ]
         3).
Proof. vm_compute. reflexivity. Qed.

(** C6. When no record has its output inside the requested range the result
    is no bin and [matchingCount = 0].  The single bin of equal inputs is
    returned for two runs that share the input 1, with the label [1.00] and
    the count 2; it is not returned once a third matching run has an
    infinite input: the finite inputs of the matching runs are still all 1,
    and the builder raises a [TypeError]. *)
Theorem buildHistogramData_shared_input (host : Qc -> string) :
  (forall (experiments : list Experiment.t) (inputKey outputKey : string)
          (minOut maxOut : number) (binCount : nat),
      (forall exp, exp ∈ experiments ->
                   ~ insideRange outputKey minOut maxOut exp) ->
      buildHistogramData host experiments inputKey outputKey minOut maxOut
        binCount
      = Returns (Histogram.mk [] 0))
  /\ buildHistogramData host (take 2 sharedInputRuns) "Polymer 1"
       "Tensile Strength" (Num.ofZ 10) (Num.ofZ 20) defaultBinCount
     = Returns (Histogram.mk [HistogramBin.mk "1.00" 2] 2)
  /\ finiteInputs sharedInputRuns "Polymer 1" "Tensile Strength"
       (Num.ofZ 10) (Num.ofZ 20)
     = [Num.ofZ 1; Num.ofZ 1]
  /\ buildHistogramData host sharedInputRuns "Polymer 1" "Tensile Strength"
       (Num.ofZ 10) (Num.ofZ 20) defaultBinCount
     = Throws TypeError.
Proof.
  split; [apply (buildHistogramData_same_values host)|].
  vm_compute. repeat split; reflexivity.
Qed.

(** C2. The histogram builder throws on a dataset in which a matching run has
    an infinite input next to a finite one: the collected values keep the
    infinity, the index of its bin is [NaN], and [rawBins[NaN].count] raises
    a [TypeError]. *)
Theorem buildHistogramData_throws (host : Qc -> string) :
  buildHistogramData host [finiteRun; infiniteRun] "Polymer 1"
    "Tensile Strength" (Num.ofZ 10) (Num.ofZ 20) defaultBinCount
  = Throws TypeError.
Proof. vm_compute. reflexivity. Qed.

(** C3. On the run with an infinite input the bins count one value while no
    matching run has a finite input: the builder collects every input that
    is not [NaN], the infinite ones too. *)
Theorem buildHistogramData_counts_infinite (host : Qc -> string) :
  buildHistogramData host [infiniteRun] "Polymer 1" "Tensile Strength"
    (Num.ofZ 10) (Num.ofZ 20) defaultBinCount
  = Returns (Histogram.mk [HistogramBin.mk "Infinity" 1] 1)
  /\ totalCount [HistogramBin.mk "Infinity" 1] = 1%nat
  /\ finiteInputCount [infiniteRun] "Polymer 1" "Tensile Strength"
       (Num.ofZ 10) (Num.ofZ 20)
     = 0%nat.
Proof. vm_compute. repeat split; reflexivity. Qed.

(** ** The reply parser *)


(** Every plain line is a bullet of its own. *)
Lemma blockBullets_plain (bodyLines : list string) :
  Forall plainLine bodyLines -> blockBullets bodyLines = bodyLines.
Proof.
  intros Hplain. unfold blockBullets.
  set (step := fun (bullets : list string) (line : string) => _).
  assert (Hfold : forall acc, fold_left step bodyLines acc = acc ++ bodyLines).
  { induction Hplain as [|line lines (Hne & Htrim & Hstrip) _ IH]; intros acc;
      cbn [fold_left]; [now rewrite app_nil_r|].
    rewrite IH. subst step. cbv beta. rewrite Hstrip, Htrim.
    destruct (decide (line = EmptyString)); [done|].
    now rewrite <- app_assoc. }
  rewrite Hfold, app_nil_l.
  destruct (decide _) as [[Hlen Hjoin]|_]; [|reflexivity].
  apply length_zero_iff_nil in Hlen. subst bodyLines.
  exfalso. apply Hjoin. reflexivity.
Qed.


(** C9. The empty string parses to no section, and the reply with a block
    of two numbered bullets and a block of one plain line parses as the two
    sections [A: x, y] and [B: plain prose].  But a block of plain lines
    yields one bullet for each line, not one bullet for the whole body: the
    single-bullet fallback is reached only when every line of the body is
    a bare list marker. *)
Theorem parseLlmSections_plain_lines :
  parseLlmSections EmptyString = []
  /\ parseLlmSections
       ("### A" +:+ nl +:+ "1. x" +:+ nl +:+ "2. y" +:+ nl +:+ "### B" +:+ nl
        +:+ "plain prose")
     = [LlmSection.mk "A" ["x"; "y"]; LlmSection.mk "B" ["plain prose"]]
  /\ parseLlmSections ("### B" +:+ nl +:+ "foo" +:+ nl +:+ "bar")
     = [LlmSection.mk "B" ["foo"; "bar"]]
  /\ parseLlmSections ("### B" +:+ nl +:+ "1." +:+ nl +:+ "2.")
     = [LlmSection.mk "B" ["1. 2."]].
Proof. vm_compute. repeat split; reflexivity. Qed.

(** * Further properties *)

(** ** The order on all numbers *)

Lemma num_le_refl (a : number) : a <> NaN -> (a <=? a)%num = true.
Proof.
  destruct a as [| | |q]; intros H; try reflexivity; [congruence|].
  apply le_Fin, Qcle_refl.
Qed.

Lemma num_le_trans (a b c : number) :
  (a <=? b)%num = true -> (b <=? c)%num = true -> (a <=? c)%num = true.
Proof.
  destruct a as [| | |x], b as [| | |y], c as [| | |z];
    try discriminate; try reflexivity.
  rewrite !le_Fin. apply Qcle_trans.
Qed.

(** Between two numbers other than [NaN], [a < b] fails exactly when
    [b <= a]. *)
Lemma num_lt_le (a b : number) :
  a <> NaN -> b <> NaN -> (a <? b)%num = negb (b <=? a)%num.
Proof.
  destruct a as [| | |x], b as [| | |y]; intros Ha Hb;
    try congruence; try reflexivity.
  unfold Num.lt, Num.le, Num.cmp. rewrite (cmp_Fin_flip x y).
  now destruct (x ?= y)%Qc.
Qed.

Lemma num_lt_le_weak (a b : number) :
  (a <? b)%num = true -> (a <=? b)%num = true.
Proof.
  unfold Num.lt, Num.le. now destruct (Num.cmp a b) as [[]|].
Qed.

Lemma num_le_total (a b : number) :
  a <> NaN -> b <> NaN -> (a <=? b)%num = true \/ (b <=? a)%num = true.
Proof.
  intros Ha Hb. destruct (b <=? a)%num eqn:E; [now right|left].
  apply num_lt_le_weak. rewrite num_lt_le by assumption. now rewrite E.
Qed.

Lemma num_lt_not_NaN (a b : number) :
  (a <? b)%num = true -> a <> NaN /\ b <> NaN.
Proof. destruct a, b; try discriminate; split; congruence. Qed.

Lemma num_le_not_NaN (a b : number) :
  (a <=? b)%num = true -> a <> NaN /\ b <> NaN.
Proof. destruct a, b; try discriminate; split; congruence. Qed.

Lemma num_le_PosInfinity (a : number) : a <> NaN -> (a <=? PosInfinity)%num = true.
Proof. now destruct a. Qed.

Lemma num_NegInfinity_le (a : number) : a <> NaN -> (NegInfinity <=? a)%num = true.
Proof. now destruct a. Qed.

(** [Math.min] and [Math.max] of two numbers other than [NaN]. *)
Lemma min2_le (a b : number) :
  a <> NaN -> b <> NaN ->
  Num.min2 a b = (if (a <=? b)%num then a else b).
Proof.
  intros Ha Hb. unfold Num.min2, Num.le.
  destruct a as [| | |x], b as [| | |y]; try congruence; try reflexivity.
  cbn. now destruct (x ?= y)%Qc.
Qed.

Lemma max2_le (a b : number) :
  a <> NaN -> b <> NaN ->
  Num.max2 a b = (if (a <=? b)%num then b else a).
Proof.
  intros Ha Hb. unfold Num.max2, Num.le.
  destruct a as [| | |x], b as [| | |y]; try congruence; try reflexivity.
  cbn. destruct (x ?= y)%Qc eqn:E; try reflexivity.
  apply Qceq_alt in E. now subst.
Qed.

(** ** Keys and values by name *)

Lemma uniqueKeys_spec (keys : list string) :
  forall seen : list string,
    NoDup (uniqueKeys seen keys)
    /\ forall k, k ∈ uniqueKeys seen keys <-> k ∈ keys /\ k ∉ seen.
Proof.
  induction keys as [|k0 keys IH]; intros seen; cbn [uniqueKeys].
  - split; [constructor|]. intros k. rewrite elem_of_nil. tauto.
  - destruct (decide (k0 ∈ seen)) as [Hin|Hout].
    + destruct (IH seen) as [Hnd Hmem]. split; [exact Hnd|].
      intros k. rewrite Hmem, elem_of_cons. split; [tauto|].
      intros [[->|Hk] Hs]; tauto.
    + destruct (IH (k0 :: seen)) as [Hnd Hmem]. split.
      * constructor; [|exact Hnd]. rewrite Hmem, elem_of_cons. tauto.
      * intros k. rewrite !elem_of_cons, Hmem, elem_of_cons.
        destruct (decide (k = k0)) as [->|Hne]; tauto.
Qed.

(** X1. [allKeys] holds every input key and every output key, nothing else,
    and each of them once. *)
Theorem allKeys_each_key_once (inputKeys outputKeys : list string) :
  NoDup (allKeys inputKeys outputKeys)
  /\ forall k, k ∈ allKeys inputKeys outputKeys
               <-> k ∈ inputKeys \/ k ∈ outputKeys.
Proof.
  unfold allKeys. destruct (uniqueKeys_spec (inputKeys ++ outputKeys) [])
    as [Hnd Hmem].
  split; [exact Hnd|]. intros k. rewrite Hmem, elem_of_app, elem_of_nil. tauto.
Qed.

(** ** The scatter data *)

Lemma buildScatterData_cons (exp : Experiment.t) (exps : list Experiment.t)
    (xKey yKey : string) :
  buildScatterData (exp :: exps) xKey yKey
  = (if Num.isFinite (getValue exp xKey) && Num.isFinite (getValue exp yKey)
     then [ScatterPoint.mk (Experiment.id exp) (getValue exp xKey)
             (getValue exp yKey)]
     else [])
    ++ buildScatterData exps xKey yKey.
Proof.
  unfold buildScatterData. cbn [map List.filter ScatterPoint.x ScatterPoint.y].
  now destruct (Num.isFinite (getValue exp xKey)
                && Num.isFinite (getValue exp yKey)).
Qed.

(** X2. The scatter data holds exactly one point for each experiment whose
    two values are finite, with these values and its id; the points keep the
    order of the experiments. *)
Theorem buildScatterData_points (exps : list Experiment.t) (xKey yKey : string) :
  (forall pt : ScatterPoint.t,
      pt ∈ buildScatterData exps xKey yKey
      <-> exists exp, exp ∈ exps
                      /\ pt = ScatterPoint.mk (Experiment.id exp)
                                (getValue exp xKey) (getValue exp yKey)
                      /\ Num.isFinite (getValue exp xKey) = true
                      /\ Num.isFinite (getValue exp yKey) = true)
  /\ (ScatterPoint.id <$> buildScatterData exps xKey yKey)
       `sublist_of` (Experiment.id <$> exps)
  /\ length (buildScatterData exps xKey yKey)
     = length (List.filter
                 (fun exp => Num.isFinite (getValue exp xKey)
                             && Num.isFinite (getValue exp yKey)) exps).
Proof.
  induction exps as [|exp exps (IHmem & IHsub & IHlen)].
  - repeat split.
    + intros H. cbn in H. now apply elem_of_nil in H.
    + intros (exp & H & _). now apply elem_of_nil in H.
    + cbn. constructor.
  - rewrite buildScatterData_cons. cbn [List.filter].
    destruct (Num.isFinite (getValue exp xKey)
              && Num.isFinite (getValue exp yKey)) eqn:E.
    + split; [|split].
      * intros pt. cbn [app]. rewrite elem_of_cons, IHmem. split.
        -- intros [->|(e & He & Hpt)].
           ++ apply andb_prop in E as [Ex Ey]. exists exp.
              rewrite elem_of_cons. auto.
           ++ exists e. rewrite elem_of_cons. tauto.
        -- intros (e & He & Hpt & Hx & Hy).
           apply elem_of_cons in He as [->|He]; [now left|].
           right. exists e. auto.
      * cbn. now constructor.
      * cbn. now rewrite IHlen.
    + split; [|split].
      * intros pt. cbn [app]. rewrite IHmem. split.
        -- intros (e & He & Hpt). exists e. rewrite elem_of_cons. tauto.
        -- intros (e & He & Hpt & Hx & Hy).
           apply elem_of_cons in He as [->|He].
           ++ rewrite Hx, Hy in E. discriminate.
           ++ exists e. auto.
      * cbn. now constructor.
      * exact IHlen.
Qed.

(** X3. A key that no experiment has among the names of its inputs or of
    its outputs leaves the scatter empty, whatever the other axis. *)
Theorem buildScatterData_unknown_key (exps : list Experiment.t)
    (xKey yKey : string) :
  (forall exp, exp ∈ exps ->
               Experiment.inputs exp !! xKey = None
               /\ Experiment.outputs exp !! xKey = None) ->
  buildScatterData exps xKey yKey = []
  /\ buildScatterData exps yKey xKey = [].
Proof.
  intros Hnone. induction exps as [|exp exps IH]; [split; reflexivity|].
  rewrite !buildScatterData_cons.
  destruct (Hnone exp) as [Hi Ho]; [apply elem_of_cons; now left|].
  assert (Hx : getValue exp xKey = NaN) by (unfold getValue; now rewrite Hi, Ho).
  rewrite Hx. cbn [Num.isFinite andb]. rewrite andb_false_r. cbn [app].
  apply IH. intros e He. apply Hnone, elem_of_cons. now right.
Qed.

Lemma buildScatterData_unknown_key_witness :
  buildScatterData sampleRuns "Viscosity" "Polymer 1" = []
  /\ buildScatterData sampleRuns "Polymer 1" "Viscosity" = [].
Proof.
  apply (buildScatterData_unknown_key sampleRuns "Viscosity" "Polymer 1").
  intros exp Hexp. unfold sampleRuns in Hexp.
  rewrite !elem_of_cons, elem_of_nil in Hexp.
  destruct Hexp as [->|[->|[->|[]]]]; vm_compute; split; reflexivity.
Defined.

(** ** The statistics of the measurement range view *)

Lemma computeOutputStats_fold (experiments : list Experiment.t)
    (keys : list string) (key : string) :
  forall stats : gmap string MinMax.t,
    fold_left
      (fun (stats : gmap string MinMax.t) (key : string) =>
         let '(min, max) := scanOutput experiments key in
         <[key := MinMax.mk
                    (if (min === PosInfinity)%num then Num.zero else min)
                    (if (max === NegInfinity)%num then Num.zero else max)]>
           stats)
      keys stats !! key
    = if decide (key ∈ keys) then Some (outputStatsEntry experiments key)
      else stats !! key.
Proof.
  induction keys as [|k keys IH]; intros stats; cbn [fold_left].
  - destruct (decide (key ∈ [])) as [H|_]; [|reflexivity].
    now apply elem_of_nil in H.
  - rewrite IH.
    destruct (decide (key ∈ keys)) as [Hin|Hout].
    + rewrite decide_True by (apply elem_of_cons; now right). reflexivity.
    + destruct (decide (key = k)) as [->|Hne].
      * rewrite decide_True by (apply elem_of_cons; now left).
        unfold outputStatsEntry. destruct (scanOutput experiments k).
        now rewrite lookup_insert_eq.
      * rewrite decide_False by (rewrite elem_of_cons; tauto).
        destruct (scanOutput experiments k). now rewrite lookup_insert_ne.
Qed.

Lemma computeOutputStats_lookup (experiments : list Experiment.t)
    (outputKeys : list string) (key : string) :
  computeOutputStats experiments outputKeys !! key
  = if decide (key ∈ outputKeys) then Some (outputStatsEntry experiments key)
    else None.
Proof.
  unfold computeOutputStats. rewrite computeOutputStats_fold.
  now rewrite lookup_empty.
Qed.

(** X4. [OUTPUT_STATS] has an entry for each output key and for no other
    name. *)
Theorem computeOutputStats_keys (experiments : list Experiment.t)
    (outputKeys : list string) (key : string) :
  is_Some (computeOutputStats experiments outputKeys !! key)
  <-> key ∈ outputKeys.
Proof.
  rewrite computeOutputStats_lookup.
  destruct (decide (key ∈ outputKeys)) as [Hin|Hout].
  - split; [auto|]. intros _. eauto.
  - split; [|tauto]. intros [x Hx]. discriminate.
Qed.

Lemma num_eq_PosInfinity (a : number) :
  (a = PosInfinity /\ (a === PosInfinity)%num = true)
  \/ (a <> PosInfinity /\ (a === PosInfinity)%num = false).
Proof. destruct a; cbn; (left; split; [reflexivity|reflexivity]) || (right; split; [discriminate|reflexivity]). Qed.

Lemma num_eq_NegInfinity (a : number) :
  (a = NegInfinity /\ (a === NegInfinity)%num = true)
  \/ (a <> NegInfinity /\ (a === NegInfinity)%num = false).
Proof. destruct a; cbn; (left; split; [reflexivity|reflexivity]) || (right; split; [discriminate|reflexivity]). Qed.

Lemma scanOutput_recorded (experiments : list Experiment.t) (key : string) :
  scanOutput experiments key
  = fold_left scanStep (recordedOutputs experiments key)
      (PosInfinity, NegInfinity).
Proof.
  unfold scanOutput, recordedOutputs.
  generalize (PosInfinity, NegInfinity) as st.
  induction experiments as [|exp experiments IH]; intros [mn mx];
    [reflexivity|].
  cbn [fold_left omap list_omap].
  destruct (Experiment.outputs exp !! key) as [v|]; cbn [recorded].
  - destruct (Num.isNaN v); [apply IH|]. cbn [fold_left scanStep]. apply IH.
  - apply IH.
Qed.

Lemma recordedOutputs_not_NaN (experiments : list Experiment.t) (key : string) :
  Forall (fun v => v <> NaN) (recordedOutputs experiments key).
Proof.
  apply Forall_forall. intros v Hv. unfold recordedOutputs in Hv.
  apply list_elem_of_omap in Hv as (exp & _ & Hrec). unfold recorded in Hrec.
  destruct (Experiment.outputs exp !! key) as [[| | |q]|];
    cbn in Hrec; congruence.
Qed.

Lemma scanStep_bounds (l : list number) :
  Forall (fun v => v <> NaN) l ->
  forall mn mx : number,
    mn <> NaN -> mx <> NaN ->
    exists mn' mx' : number,
      fold_left scanStep l (mn, mx) = (mn', mx')
      /\ mn' <> NaN /\ mx' <> NaN
      /\ (mn' <=? mn)%num = true /\ (mx <=? mx')%num = true
      /\ Forall (fun v => (mn' <=? v)%num = true /\ (v <=? mx')%num = true) l.
Proof.
  induction 1 as [|v l Hv _ IH]; intros mn mx Hmn Hmx; cbn [fold_left].
  - exists mn, mx. repeat split; auto using num_le_refl.
  - unfold scanStep at 2.
    set (mn1 := if (v <? mn)%num then v else mn).
    set (mx1 := if (v >? mx)%num then v else mx).
    assert (H1 : mn1 <> NaN) by (subst mn1; now destruct (v <? mn)%num).
    assert (H2 : mx1 <> NaN) by (subst mx1; now destruct (v >? mx)%num).
    assert (Hmn1 : (mn1 <=? mn)%num = true /\ (mn1 <=? v)%num = true).
    { subst mn1. destruct (v <? mn)%num eqn:E.
      - split; [now apply num_lt_le_weak|now apply num_le_refl].
      - split; [now apply num_le_refl|].
        rewrite num_lt_le in E by assumption.
        now apply negb_false_iff in E. }
    assert (Hmx1 : (mx <=? mx1)%num = true /\ (v <=? mx1)%num = true).
    { subst mx1. unfold Num.gt. destruct (mx <? v)%num eqn:E.
      - split; [now apply num_lt_le_weak|now apply num_le_refl].
      - split; [now apply num_le_refl|].
        rewrite num_lt_le in E by assumption.
        now apply negb_false_iff in E. }
    destruct (IH mn1 mx1 H1 H2) as (mn' & mx' & -> & Hn1 & Hn2 & Hle1 & Hle2 & Hall).
    exists mn', mx'. repeat split; auto.
    + apply num_le_trans with mn1; tauto.
    + apply num_le_trans with mx1; tauto.
    + constructor; [|exact Hall]. split.
      * apply num_le_trans with mn1; tauto.
      * apply num_le_trans with mx1; tauto.
Qed.

Lemma outputStatsEntry_between (experiments : list Experiment.t) (key : string) :
  let s := outputStatsEntry experiments key in
  (MinMax.min s <=? MinMax.max s)%num = true
  /\ Forall (fun v => (MinMax.min s <=? v)%num = true
                       /\ (v <=? MinMax.max s)%num = true)
       (recordedOutputs experiments key)
  /\ (recordedOutputs experiments key = [] ->
      s = MinMax.mk Num.zero Num.zero).
Proof.
  cbv zeta. unfold outputStatsEntry. rewrite scanOutput_recorded.
  pose proof (recordedOutputs_not_NaN experiments key) as Hrec.
  destruct (recordedOutputs experiments key) as [|v l] eqn:E.
  { cbn [fold_left MinMax.min MinMax.max Num.eq].
    split; [now apply num_le_refl|split; [constructor|reflexivity]]. }
  destruct (scanStep_bounds _ Hrec PosInfinity NegInfinity)
    as (mn & mx & Heq & Hmn & Hmx & _ & _ & Hall); [congruence..|].
  rewrite Heq. cbn [MinMax.min MinMax.max].
  assert (Hall' :
           Forall (fun v =>
                     ((if (mn === PosInfinity)%num then Num.zero else mn)
                      <=? v)%num = true
                     /\ (v <=? (if (mx === NegInfinity)%num then Num.zero
                                else mx))%num = true)
             (v :: l)).
  { eapply Forall_impl; [exact Hall|]. cbv beta. intros w [Hlo Hhi].
    destruct (num_eq_PosInfinity mn) as [[-> ->]|[Hne ->]];
      [destruct w; try discriminate;
       destruct (num_eq_NegInfinity mx) as [[-> ->]|[_ ->]];
       [discriminate|tauto]|].
    destruct (num_eq_NegInfinity mx) as [[-> ->]|[_ ->]];
      [destruct w; try discriminate; now destruct mn|tauto]. }
  split; [|split; [exact Hall'|discriminate]].
  apply Forall_inv in Hall' as [Hlo Hhi].
  now apply num_le_trans with v.
Qed.

Lemma recordedOutputs_elem (experiments : list Experiment.t) (key : string)
    (v : number) :
  v ∈ recordedOutputs experiments key
  <-> exists exp, exp ∈ experiments
                  /\ Experiment.outputs exp !! key = Some v
                  /\ Num.isNaN v = false.
Proof.
  unfold recordedOutputs. rewrite list_elem_of_omap. unfold recorded.
  split.
  - intros (exp & Hin & Hrec). exists exp. split; [exact Hin|].
    destruct (Experiment.outputs exp !! key) as [x|]; [|discriminate].
    destruct (Num.isNaN x) eqn:E; [discriminate|].
    injection Hrec as ->. now split.
  - intros (exp & Hin & Hout & Hnan). exists exp. split; [exact Hin|].
    now rewrite Hout, Hnan.
Qed.

Lemma recordedOutputs_nil (experiments : list Experiment.t) (key : string) :
  (forall exp, exp ∈ experiments ->
               recorded (Experiment.outputs exp !! key) = None) ->
  recordedOutputs experiments key = [].
Proof.
  unfold recordedOutputs.
  induction experiments as [|exp exps IH]; intros Hno; [reflexivity|].
  cbn [omap list_omap]. rewrite (Hno exp) by (apply elem_of_cons; now left).
  apply IH. intros exp' Hin'. apply Hno, elem_of_cons. now right.
Qed.

(** X5. In the entry of an output key the minimum is at most the maximum,
    every output recorded under that key lies between the two, and a key
    that no experiment records has the entry [{min: 0, max: 0}]. *)
Theorem computeOutputStats_bounds (experiments : list Experiment.t)
    (outputKeys : list string) (key : string) (s : MinMax.t) :
  computeOutputStats experiments outputKeys !! key = Some s ->
  (MinMax.min s <=? MinMax.max s)%num = true
  /\ (forall exp v,
        exp ∈ experiments -> Experiment.outputs exp !! key = Some v ->
        Num.isNaN v = false ->
        (MinMax.min s <=? v)%num = true /\ (v <=? MinMax.max s)%num = true)
  /\ ((forall exp, exp ∈ experiments ->
                   recorded (Experiment.outputs exp !! key) = None) ->
      s = MinMax.mk Num.zero Num.zero).
Proof.
  rewrite computeOutputStats_lookup.
  destruct (decide (key ∈ outputKeys)) as [_|_]; [|discriminate].
  intros [= <-].
  destruct (outputStatsEntry_between experiments key) as (Hord & Hall & Hnone).
  split; [exact Hord|split].
  - intros exp v Hin Hout Hnan. rewrite Forall_forall in Hall.
    apply Hall, recordedOutputs_elem. eauto.
  - intros Hno. now apply Hnone, recordedOutputs_nil.
Qed.

Lemma computeOutputStats_bounds_witness :
  computeOutputStats sampleRuns ["Tensile Strength"] !! "Tensile Strength"
  = Some (MinMax.mk (Num.ofZ 10) (Num.ofZ 30))
  /\ (MinMax.min (MinMax.mk (Num.ofZ 10) (Num.ofZ 30))
      <=? MinMax.max (MinMax.mk (Num.ofZ 10) (Num.ofZ 30)))%num = true.
Proof.
  assert (H : computeOutputStats sampleRuns ["Tensile Strength"]
              !! "Tensile Strength"
              = Some (MinMax.mk (Num.ofZ 10) (Num.ofZ 30)))
    by (vm_compute; reflexivity).
  split; [exact H|].
  exact (proj1 (computeOutputStats_bounds sampleRuns ["Tensile Strength"]
                  "Tensile Strength" _ H)).
Defined.

Lemma scanStep_attained (l : list number) :
  forall mn mx mn' mx' : number,
    fold_left scanStep l (mn, mx) = (mn', mx') ->
    (mn' = mn \/ mn' ∈ l) /\ (mx' = mx \/ mx' ∈ l).
Proof.
  induction l as [|v l IH]; intros mn mx mn' mx'; cbn [fold_left].
  - intros [= <- <-]. now split; left.
  - unfold scanStep at 2. intros H. apply IH in H as [H1 H2]. split.
    + destruct H1 as [->|H1]; [|right; apply elem_of_cons; now right].
      destruct (v <? mn)%num; [right; apply elem_of_cons|]; now left.
    + destruct H2 as [->|H2]; [|right; apply elem_of_cons; now right].
      destruct (v >? mx)%num; [right; apply elem_of_cons|]; now left.
Qed.

(** X6. When some experiment records a finite value for an output key, the
    minimum and the maximum of its entry are outputs of experiments of the
    dataset: neither bound is the stand-in [0]. *)
Theorem computeOutputStats_attained (experiments : list Experiment.t)
    (outputKeys : list string) (key : string) (s : MinMax.t)
    (exp : Experiment.t) (v : number) :
  computeOutputStats experiments outputKeys !! key = Some s ->
  exp ∈ experiments ->
  Experiment.outputs exp !! key = Some v ->
  Num.isFinite v = true ->
  (exists e, e ∈ experiments
             /\ Experiment.outputs e !! key = Some (MinMax.min s))
  /\ (exists e, e ∈ experiments
                /\ Experiment.outputs e !! key = Some (MinMax.max s)).
Proof.
  rewrite computeOutputStats_lookup.
  destruct (decide (key ∈ outputKeys)) as [_|_]; [|discriminate].
  intros [= <-] Hin Hout Hfin.
  assert (Hv : v ∈ recordedOutputs experiments key).
  { apply recordedOutputs_elem. exists exp. repeat split; auto.
    now destruct v. }
  unfold outputStatsEntry. rewrite scanOutput_recorded.
  destruct (scanStep_bounds _ (recordedOutputs_not_NaN experiments key)
              PosInfinity NegInfinity)
    as (mn & mx & Heq & Hmn & Hmx & _ & _ & Hall); [congruence..|].
  rewrite Heq. cbn [MinMax.min MinMax.max].
  rewrite Forall_forall in Hall. destruct (Hall v Hv) as [Hlo Hhi].
  apply scanStep_attained in Heq as [Hamin Hamax].
  destruct v as [| | |q]; try discriminate.
  split.
  - destruct mn as [| | |x]; try discriminate; try congruence.
    + destruct Hamin as [?|Hamin]; [discriminate|].
      apply recordedOutputs_elem in Hamin as (e & He & Ho & _). eauto.
    + destruct Hamin as [?|Hamin]; [discriminate|].
      apply recordedOutputs_elem in Hamin as (e & He & Ho & _).
      exists e. split; [exact He|]. exact Ho.
  - destruct mx as [| | |x]; try discriminate; try congruence.
    + destruct Hamax as [?|Hamax]; [discriminate|].
      apply recordedOutputs_elem in Hamax as (e & He & Ho & _). eauto.
    + destruct Hamax as [?|Hamax]; [discriminate|].
      apply recordedOutputs_elem in Hamax as (e & He & Ho & _).
      exists e. split; [exact He|]. exact Ho.
Qed.

Lemma computeOutputStats_attained_witness :
  (exists e, e ∈ sampleRuns
             /\ Experiment.outputs e !! "Tensile Strength"
                = Some (Num.ofZ 10))
  /\ (exists e, e ∈ sampleRuns
                /\ Experiment.outputs e !! "Tensile Strength"
                   = Some (Num.ofZ 30)).
Proof.
  apply (computeOutputStats_attained sampleRuns ["Tensile Strength"]
           "Tensile Strength" (MinMax.mk (Num.ofZ 10) (Num.ofZ 30))
           (Experiment.mk "Run-002" {[ "Polymer 1" := Num.ofZ 1 ]}
              {[ "Tensile Strength" := Num.ofZ 20 ]})
           (Num.ofZ 20)).
  - vm_compute. reflexivity.
  - unfold sampleRuns. apply elem_of_cons. right. apply elem_of_cons. now left.
  - vm_compute. reflexivity.
  - reflexivity.
Defined.

(** ** The state of the measurement range view *)

Lemma defaultOutput_key (experiments : list Experiment.t)
    (outputKeys : list string) :
  defaultOutput experiments outputKeys = EmptyString
  \/ defaultOutput experiments outputKeys ∈ outputKeys.
Proof.
  unfold defaultOutput.
  destruct (bool_decide ("Tensile Strength" ∈ outputKeys)) eqn:E; cbn [andb].
  - apply bool_decide_eq_true in E.
    destruct (negb (datasetEmpty experiments outputKeys)); [now right|].
    destruct outputKeys as [|k ks]; [now left|right].
    cbn. apply elem_of_cons. now left.
  - destruct outputKeys as [|k ks]; [now left|right].
    cbn. apply elem_of_cons. now left.
Qed.

Lemma outputStatsEntry_ordered (experiments : list Experiment.t)
    (key : string) :
  (MinMax.min (outputStatsEntry experiments key)
   <=? MinMax.max (outputStatsEntry experiments key))%num = true.
Proof. exact (proj1 (outputStatsEntry_between experiments key)). Qed.

Lemma zero_le_zero : (Num.zero <=? Num.zero)%num = true.
Proof. now apply num_le_refl. Qed.

Lemma currentStats_ordered (experiments : list Experiment.t)
    (outputKeys : list string) (measurementKey : string) :
  let s := currentStats (computeOutputStats experiments outputKeys)
             measurementKey in
  (MinMax.min s <=? MinMax.max s)%num = true.
Proof.
  cbv zeta. unfold currentStats. rewrite computeOutputStats_lookup.
  destruct (decide (measurementKey ∈ outputKeys)); cbn [default].
  - apply outputStatsEntry_ordered.
  - exact zero_le_zero.
Qed.

(** X7. The first render always finds its initial statistics: there is an
    initial state for every dataset, its measurement is [defaultOutput], and
    its range starts at a minimum that is at most its maximum. *)
Theorem initialState_defined (experiments : list Experiment.t)
    (outputKeys : list string) :
  exists st : RangeState.t,
    initialState experiments outputKeys = Some st
    /\ RangeState.measurementKey st = defaultOutput experiments outputKeys
    /\ (RangeState.minValue st <=? RangeState.maxValue st)%num = true
    /\ RangeState.showAllInputs st = false.
Proof.
  unfold initialState, initialStats.
  destruct (decide (defaultOutput experiments outputKeys = EmptyString))
    as [He|Hne].
  - eexists. split; [reflexivity|].
    split; [reflexivity|split; [exact zero_le_zero|reflexivity]].
  - rewrite computeOutputStats_lookup.
    destruct (defaultOutput_key experiments outputKeys) as [?|Hin];
      [contradiction|].
    rewrite decide_True by exact Hin.
    eexists. split; [reflexivity|].
    split; [reflexivity|split; [apply outputStatsEntry_ordered|reflexivity]].
Qed.

(** The clamp of a number other than [NaN] between ordered bounds. *)
Lemma clampedMin_between (minValue : number) (s : MinMax.t) :
  minValue <> NaN ->
  (MinMax.min s <=? MinMax.max s)%num = true ->
  (MinMax.min s <=? clampedMin minValue s)%num = true
  /\ (clampedMin minValue s <=? MinMax.max s)%num = true.
Proof.
  destruct s as [lo hi]. cbn [MinMax.min MinMax.max]. intros Ha Hord.
  destruct (num_le_not_NaN _ _ Hord) as [Hlo Hhi].
  unfold clampedMin. cbn [MinMax.min MinMax.max].
  rewrite (max2_le minValue lo) by assumption.
  destruct (minValue <=? lo)%num eqn:E1.
  - rewrite min2_le, Hord by assumption. split; [now apply num_le_refl|exact Hord].
  - rewrite min2_le by assumption.
    assert (Hge : (lo <=? minValue)%num = true)
      by (destruct (num_le_total minValue lo Ha Hlo); congruence).
    destruct (minValue <=? hi)%num eqn:E2; [now split|].
    split; [exact Hord|now apply num_le_refl].
Qed.

Lemma clampedMax_between (maxValue : number) (s : MinMax.t) :
  maxValue <> NaN ->
  (MinMax.min s <=? MinMax.max s)%num = true ->
  (MinMax.min s <=? clampedMax maxValue s)%num = true
  /\ (clampedMax maxValue s <=? MinMax.max s)%num = true.
Proof.
  destruct s as [lo hi]. cbn [MinMax.min MinMax.max]. intros Ha Hord.
  destruct (num_le_not_NaN _ _ Hord) as [Hlo Hhi].
  unfold clampedMax. cbn [MinMax.min MinMax.max].
  rewrite (min2_le maxValue hi) by assumption.
  destruct (maxValue <=? hi)%num eqn:E1.
  - rewrite max2_le by assumption.
    destruct (maxValue <=? lo)%num eqn:E2.
    + split; [now apply num_le_refl|exact Hord].
    + split; [|exact E1].
      destruct (num_le_total maxValue lo Ha Hlo); congruence.
  - rewrite max2_le by assumption.
    destruct (hi <=? lo)%num eqn:E2.
    + split; [now apply num_le_refl|exact Hord].
    + split; [exact Hord|now apply num_le_refl].
Qed.

Lemma num_le_antisym (a b : number) :
  (a <=? b)%num = true -> (b <=? a)%num = true -> a = b.
Proof.
  destruct a as [| | |x], b as [| | |y]; try discriminate; try reflexivity.
  rewrite !le_Fin. intros H1 H2. f_equal. now apply Qcle_antisym.
Qed.

Lemma clamp_unchanged (value : number) (s : MinMax.t) :
  (MinMax.min s <=? value)%num = true ->
  (value <=? MinMax.max s)%num = true ->
  clampedMin value s = value /\ clampedMax value s = value.
Proof.
  destruct s as [lo hi]. cbn [MinMax.min MinMax.max]. intros Hlo Hhi.
  destruct (num_le_not_NaN _ _ Hlo) as [Hl Hv].
  destruct (num_le_not_NaN _ _ Hhi) as [_ Hh].
  unfold clampedMin, clampedMax. cbn [MinMax.min MinMax.max]. split.
  - rewrite (max2_le value lo) by assumption.
    destruct (value <=? lo)%num eqn:E.
    + assert (value = lo) as -> by now apply num_le_antisym.
      now rewrite min2_le, Hhi.
    + now rewrite min2_le, Hhi.
  - rewrite (min2_le value hi), Hhi by assumption.
    rewrite max2_le by assumption.
    destruct (value <=? lo)%num eqn:E; [|reflexivity].
    symmetry. now apply num_le_antisym.
Qed.

Lemma handle_rangeNumeric (experiments : list Experiment.t)
    (outputKeys : list string) (st : RangeState.t) (ev : event) :
  rangeNumeric st ->
  rangeNumeric (handle (computeOutputStats experiments outputKeys) st ev).
Proof.
  intros [Hmin Hmax]. destruct ev as [nextKey|next|next|]; cbn [handle].
  - rewrite computeOutputStats_lookup.
    destruct (decide (nextKey ∈ outputKeys)); [|now split].
    pose proof (outputStatsEntry_ordered experiments nextKey) as Hord.
    apply num_le_not_NaN in Hord. exact Hord.
  - destruct next; cbn; now split.
  - destruct next; cbn; now split.
  - now split.
Qed.

Lemma run_rangeNumeric (experiments : list Experiment.t)
    (outputKeys : list string) (events : list event) :
  forall st : RangeState.t,
    rangeNumeric st ->
    rangeNumeric
      (fold_left (handle (computeOutputStats experiments outputKeys))
         events st).
Proof.
  induction events as [|ev events IH]; intros st Hst; [exact Hst|].
  cbn [fold_left]. now apply IH, handle_rangeNumeric.
Qed.

Lemma initialState_start (experiments : list Experiment.t)
    (outputKeys : list string) (st : RangeState.t) :
  initialState experiments outputKeys = Some st ->
  rangeNumeric st
  /\ (RangeState.minValue st <=? RangeState.maxValue st)%num = true.
Proof.
  unfold initialState, initialStats. intros H.
  assert (Hord : (RangeState.minValue st <=? RangeState.maxValue st)%num
                 = true).
  { destruct (decide (defaultOutput experiments outputKeys = EmptyString)).
    - injection H as <-. exact zero_le_zero.
    - rewrite computeOutputStats_lookup in H.
      destruct (decide (defaultOutput experiments outputKeys ∈ outputKeys));
        [|discriminate].
      injection H as <-. apply outputStatsEntry_ordered. }
  split; [|exact Hord]. apply num_le_not_NaN in Hord. exact Hord.
Qed.

(** X8. After the first render and any sequence of selections, typed
    bounds and toggles, the two ends of the range handed to the histograms
    lie between the minimum and the maximum of the current statistics, and
    a typed bound that lies between them already is handed on as typed. *)
Theorem clamped_range_inside_bounds (experiments : list Experiment.t)
    (outputKeys : list string) (st0 : RangeState.t) (events : list event) :
  initialState experiments outputKeys = Some st0 ->
  let OUTPUT_STATS := computeOutputStats experiments outputKeys in
  let st := fold_left (handle OUTPUT_STATS) events st0 in
  let s := currentStats OUTPUT_STATS (RangeState.measurementKey st) in
  let lo := clampedMin (RangeState.minValue st) s in
  let hi := clampedMax (RangeState.maxValue st) s in
  ((MinMax.min s <=? lo)%num = true /\ (lo <=? MinMax.max s)%num = true)
  /\ ((MinMax.min s <=? hi)%num = true /\ (hi <=? MinMax.max s)%num = true)
  /\ ((MinMax.min s <=? RangeState.minValue st)%num = true ->
      (RangeState.minValue st <=? MinMax.max s)%num = true ->
      lo = RangeState.minValue st)
  /\ ((MinMax.min s <=? RangeState.maxValue st)%num = true ->
      (RangeState.maxValue st <=? MinMax.max s)%num = true ->
      hi = RangeState.maxValue st).
Proof.
  intros Hinit. cbv zeta.
  destruct (initialState_start experiments outputKeys st0 Hinit) as [H0 _].
  pose proof (run_rangeNumeric experiments outputKeys events st0 H0)
    as [Hmin Hmax].
  pose proof (currentStats_ordered experiments outputKeys
                (RangeState.measurementKey
                   (fold_left (handle (computeOutputStats experiments
                                         outputKeys)) events st0)))
    as Hord.
  cbv zeta in Hord.
  split; [now apply clampedMin_between|].
  split; [now apply clampedMax_between|].
  split; intros Hlo Hhi; now apply clamp_unchanged.
Qed.

Lemma clamped_range_inside_bounds_witness :
  let OUTPUT_STATS := computeOutputStats sampleRuns ["Tensile Strength"] in
  let st :=
    fold_left (handle OUTPUT_STATS)
      [TypeMin (Num.ofZ 9999); ToggleInputs; TypeMax (Num.ofZ 25)]
      (RangeState.mk "Tensile Strength" (Num.ofZ 10) (Num.ofZ 30) false) in
  let s := currentStats OUTPUT_STATS (RangeState.measurementKey st) in
  let lo := clampedMin (RangeState.minValue st) s in
  let hi := clampedMax (RangeState.maxValue st) s in
  ((MinMax.min s <=? lo)%num = true /\ (lo <=? MinMax.max s)%num = true)
  /\ ((MinMax.min s <=? hi)%num = true /\ (hi <=? MinMax.max s)%num = true)
  /\ ((MinMax.min s <=? RangeState.minValue st)%num = true ->
      (RangeState.minValue st <=? MinMax.max s)%num = true ->
      lo = RangeState.minValue st)
  /\ ((MinMax.min s <=? RangeState.maxValue st)%num = true ->
      (RangeState.maxValue st <=? MinMax.max s)%num = true ->
      hi = RangeState.maxValue st).
Proof.
  apply (clamped_range_inside_bounds sampleRuns ["Tensile Strength"]
           (RangeState.mk "Tensile Strength" (Num.ofZ 10) (Num.ofZ 30) false)
           [TypeMin (Num.ofZ 9999); ToggleInputs; TypeMax (Num.ofZ 25)]).
  vm_compute. reflexivity.
Defined.

Lemma inWindow_full (experiments : list Experiment.t) (key : string)
    (exp : Experiment.t) :
  exp ∈ experiments ->
  inWindow key (MinMax.min (outputStatsEntry experiments key))
    (MinMax.max (outputStatsEntry experiments key)) exp
  = hasOutput key exp.
Proof.
  intros Hin. unfold inWindow, hasOutput, recorded.
  destruct (Experiment.outputs exp !! key) as [v|] eqn:Hout; [|reflexivity].
  destruct (Num.isNaN v) eqn:Hnan; [reflexivity|]. cbn [negb andb].
  destruct (outputStatsEntry_between experiments key) as (_ & Hall & _).
  rewrite Forall_forall in Hall.
  destruct (Hall v) as [Hlo Hhi]; [apply recordedOutputs_elem; eauto|].
  unfold Num.ge. now rewrite Hlo, Hhi.
Qed.

(** X9. Selecting an output key in the measurement select resets the range
    so that the histograms are built from every experiment that records that
    output: the window that [buildHistogramData] receives leaves none out. *)
Theorem select_shows_every_recorded_run (experiments : list Experiment.t)
    (outputKeys : list string) (st : RangeState.t) (nextKey : string) :
  nextKey ∈ outputKeys ->
  let OUTPUT_STATS := computeOutputStats experiments outputKeys in
  let st' := handle OUTPUT_STATS st (SelectMeasurement nextKey) in
  let s := currentStats OUTPUT_STATS (RangeState.measurementKey st') in
  RangeState.measurementKey st' = nextKey
  /\ matchingExperiments experiments (RangeState.measurementKey st')
       (clampedMin (RangeState.minValue st') s)
       (clampedMax (RangeState.maxValue st') s)
     = List.filter (hasOutput nextKey) experiments.
Proof.
  intros Hin. cbv zeta. cbn [handle]. unfold currentStats.
  rewrite computeOutputStats_lookup, decide_True by exact Hin.
  cbn [RangeState.measurementKey RangeState.minValue RangeState.maxValue].
  rewrite computeOutputStats_lookup, decide_True by exact Hin.
  cbn [default from_option]. unfold id. split; [reflexivity|].
  pose proof (outputStatsEntry_ordered experiments nextKey) as Hord.
  destruct (num_le_not_NaN _ _ Hord) as [Hlo Hhi].
  destruct (clamp_unchanged (MinMax.min (outputStatsEntry experiments nextKey))
              (outputStatsEntry experiments nextKey)) as [-> _];
    [now apply num_le_refl|exact Hord|].
  destruct (clamp_unchanged (MinMax.max (outputStatsEntry experiments nextKey))
              (outputStatsEntry experiments nextKey)) as [_ ->];
    [exact Hord|now apply num_le_refl|].
  unfold matchingExperiments. apply List.filter_ext_in.
  intros exp Hexp. apply inWindow_full. now apply list_elem_of_In.
Qed.

Lemma select_shows_every_recorded_run_witness :
  let OUTPUT_STATS := computeOutputStats sampleRuns ["Tensile Strength"] in
  let st' :=
    handle OUTPUT_STATS
      (RangeState.mk EmptyString (Num.ofZ 0) (Num.ofZ 0) false)
      (SelectMeasurement "Tensile Strength") in
  let s := currentStats OUTPUT_STATS (RangeState.measurementKey st') in
  RangeState.measurementKey st' = "Tensile Strength"
  /\ matchingExperiments sampleRuns (RangeState.measurementKey st')
       (clampedMin (RangeState.minValue st') s)
       (clampedMax (RangeState.maxValue st') s)
     = List.filter (hasOutput "Tensile Strength") sampleRuns.
Proof.
  apply (select_shows_every_recorded_run sampleRuns ["Tensile Strength"]
           (RangeState.mk EmptyString (Num.ofZ 0) (Num.ofZ 0) false)
           "Tensile Strength").
  apply elem_of_cons. now left.
Defined.

(** ** The order of the input cards *)

Lemma INPUT_ORDER_HINTS_NoDup : NoDup INPUT_ORDER_HINTS.
Proof. apply (bool_decide_unpack _). vm_compute. exact I. Qed.

Lemma orderedInputs_elem (inputKeys : list string) (k : string) :
  k ∈ orderedInputs inputKeys <-> k ∈ inputKeys.
Proof.
  unfold orderedInputs. cbv zeta.
  rewrite elem_of_app, !list_elem_of_filter.
  destruct (decide (k ∈ INPUT_ORDER_HINTS)); tauto.
Qed.

(** X10. The input cards begin with the hinted keys that the dataset has, in
    the order of [INPUT_ORDER_HINTS]; the other input keys follow in the
    order of [inputKeys].  When no key is listed twice this is a permutation
    of [inputKeys]: every input has exactly one card. *)
Theorem orderedInputs_hinted_first (inputKeys : list string) :
  NoDup inputKeys ->
  exists hinted remaining : list string,
    orderedInputs inputKeys = hinted ++ remaining
    /\ hinted `sublist_of` INPUT_ORDER_HINTS
    /\ (forall k, k ∈ hinted <-> k ∈ INPUT_ORDER_HINTS /\ k ∈ inputKeys)
    /\ remaining `sublist_of` inputKeys
    /\ (forall k, k ∈ remaining <-> k ∈ inputKeys /\ k ∉ INPUT_ORDER_HINTS)
    /\ orderedInputs inputKeys ≡ₚ inputKeys.
Proof.
  intros Hnd. unfold orderedInputs. cbv zeta.
  set (hinted := filter (fun k => k ∈ inputKeys) INPUT_ORDER_HINTS).
  set (remaining := filter (fun k => k ∉ hinted) inputKeys).
  assert (Hhinted : forall k,
             k ∈ hinted <-> k ∈ INPUT_ORDER_HINTS /\ k ∈ inputKeys).
  { intros k. subst hinted. rewrite list_elem_of_filter. tauto. }
  exists hinted, remaining. split; [reflexivity|].
  split; [apply sublist_filter|]. split; [exact Hhinted|].
  split; [apply sublist_filter|]. split.
  - intros k. subst remaining. rewrite list_elem_of_filter, Hhinted. tauto.
  - etrans; [|apply (filter_app_complement (fun k => k ∈ hinted) inputKeys)].
    apply Permutation_app; [|reflexivity].
    apply NoDup_Permutation.
    + apply NoDup_filter, INPUT_ORDER_HINTS_NoDup.
    + now apply NoDup_filter.
    + intros k. rewrite list_elem_of_filter, Hhinted. tauto.
Qed.

Lemma orderedInputs_hinted_first_witness :
  exists hinted remaining : list string,
    orderedInputs ["Polymer 1"; "Oven Temperature"; "Cure Time"]
    = hinted ++ remaining
    /\ hinted `sublist_of` INPUT_ORDER_HINTS
    /\ (forall k,
          k ∈ hinted
          <-> k ∈ INPUT_ORDER_HINTS
              /\ k ∈ ["Polymer 1"; "Oven Temperature"; "Cure Time"])
    /\ remaining `sublist_of` ["Polymer 1"; "Oven Temperature"; "Cure Time"]
    /\ (forall k,
          k ∈ remaining
          <-> k ∈ ["Polymer 1"; "Oven Temperature"; "Cure Time"]
              /\ k ∉ INPUT_ORDER_HINTS)
    /\ orderedInputs ["Polymer 1"; "Oven Temperature"; "Cure Time"]
       ≡ₚ ["Polymer 1"; "Oven Temperature"; "Cure Time"].
Proof.
  apply (orderedInputs_hinted_first
           ["Polymer 1"; "Oven Temperature"; "Cure Time"]).
  apply (bool_decide_unpack _). vm_compute. exact I.
Defined.

(** X11. With all inputs shown the cards are those of every input key;
    otherwise they are the first six of the ordered inputs; and when the
    toggle button is not offered the two views are the same, so no input is
    hidden without a way to reveal it. *)
Theorem visibleInputs_cards (inputKeys : list string) :
  (forall k, k ∈ visibleInputs true inputKeys <-> k ∈ inputKeys)
  /\ length (visibleInputs false inputKeys)
     = Nat.min 6 (length (orderedInputs inputKeys))
  /\ visibleInputs false inputKeys `prefix_of` visibleInputs true inputKeys
  /\ (canToggleInputs inputKeys = false ->
      visibleInputs false inputKeys = visibleInputs true inputKeys).
Proof.
  unfold visibleInputs, canToggleInputs, INITIAL_VISIBLE_INPUTS.
  split; [apply orderedInputs_elem|].
  split; [apply length_take|].
  split; [apply prefix_take|].
  intros H. apply bool_decide_eq_false in H.
  apply take_ge. lia.
Qed.

(** ** More on the range histogram *)

Lemma collectedValues_length (experiments : list Experiment.t)
    (inputKey outputKey : string) (minOut maxOut : number) :
  (length (collectedValues experiments inputKey outputKey minOut maxOut)
   <= length (matchingExperiments experiments outputKey minOut maxOut))%nat.
Proof.
  unfold collectedValues.
  induction (matchingExperiments experiments outputKey minOut maxOut)
    as [|exp l IH]; [reflexivity|].
  cbn [omap list_omap].
  destruct (recorded (Experiment.inputs exp !! inputKey)); cbn [length]; lia.
Qed.

Lemma inWindow_wider (outputKey : string) (minOut maxOut minOut' maxOut' : number)
    (exp : Experiment.t) :
  (minOut <=? minOut')%num = true -> (maxOut' <=? maxOut)%num = true ->
  inWindow outputKey minOut' maxOut' exp = true ->
  inWindow outputKey minOut maxOut exp = true.
Proof.
  intros Hmin Hmax. unfold inWindow.
  destruct (Experiment.outputs exp !! outputKey) as [v|]; [|discriminate].
  rewrite !andb_true_iff. unfold Num.ge. intros [[Hnan Hlo] Hhi].
  repeat split; [exact Hnan| |].
  - now apply num_le_trans with minOut'.
  - now apply num_le_trans with maxOut'.
Qed.

Lemma filter_length_le {A : Type} (f g : A -> bool) (l : list A) :
  (forall x, f x = true -> g x = true) ->
  (length (List.filter f l) <= length (List.filter g l))%nat.
Proof.
  intros Hfg. induction l as [|x l IH]; [reflexivity|]. cbn [List.filter].
  destruct (f x) eqn:E.
  - rewrite (Hfg x E). cbn [length]. lia.
  - destruct (g x); cbn [length]; lia.
Qed.

Section HistogramMore.

Variable host : Qc -> string.

(** X12. Whenever the builder returns and every collected input is finite,
    the counts of its bins add up to the number of matching experiments with
    a finite input, [matchingCount] is the number of matching experiments,
    and there are no bins, one bin or [binCount] bins. *)
Theorem buildHistogramData_finite_inputs (experiments : list Experiment.t)
    (inputKey outputKey : string) (minOut maxOut : number) (binCount : nat)
    (h : Histogram.t) :
  Forall (fun x => Num.isFinite x = true)
    (collectedValues experiments inputKey outputKey minOut maxOut) ->
  buildHistogramData host experiments inputKey outputKey minOut maxOut binCount
  = Returns h ->
  totalCount (Histogram.bins h)
  = finiteInputCount experiments inputKey outputKey minOut maxOut
  /\ Histogram.matchingCount h
     = length (matchingExperiments experiments outputKey minOut maxOut)
  /\ (length (Histogram.bins h) = 0%nat
      \/ length (Histogram.bins h) = 1%nat
      \/ length (Histogram.bins h) = binCount).
Proof.
  intros Hfin Hh.
  split; [now apply (buildHistogramData_counts_finite host) with binCount|].
  split; [now apply (buildHistogramData_counts host) in Hh|].
  revert Hh. unfold buildHistogramData. cbv zeta.
  destruct (decide _) as [|_]; [intros [= <-]; now left|].
  destruct (decide _) as [|_]; [intros [= <-]; now left|].
  destruct (_ === _)%num; [intros [= <-]; right; now left|].
  destruct (forOf _ _ _) as [rawBins|e] eqn:Hfor; [|discriminate].
  cbn. intros [= <-]. right. right. cbn [Histogram.bins].
  apply forOf_countValue_total in Hfor as [_ ->].
  apply emptyBins_total.
Qed.

(** X13. On every return the builder counts no more values than there are
    matching experiments, and it returns no bins exactly when no matching
    experiment records the input: the card without a chart is shown for that
    reason only. *)
Theorem buildHistogramData_no_bins (experiments : list Experiment.t)
    (inputKey outputKey : string) (minOut maxOut : number) (binCount : nat)
    (h : Histogram.t) :
  buildHistogramData host experiments inputKey outputKey minOut maxOut binCount
  = Returns h ->
  (totalCount (Histogram.bins h) <= Histogram.matchingCount h)%nat
  /\ (Histogram.bins h = []
      <-> collectedValues experiments inputKey outputKey minOut maxOut = []).
Proof.
  intros Hh.
  destruct (buildHistogramData_counts host _ _ _ _ _ _ _ Hh) as [Htot Hmatch].
  split.
  - rewrite Htot, Hmatch. apply collectedValues_length.
  - split.
    + intros Hb. rewrite Hb in Htot. cbn in Htot.
      now apply nil_length_inv.
    + intros Hv. revert Hh. unfold buildHistogramData. cbv zeta.
      destruct (decide _) as [|_]; [now intros [= <-]|].
      destruct (decide _) as [|Hlen]; [now intros [= <-]|].
      rewrite Hv in Hlen. contradiction.
Qed.

(** X14. Narrowing the output window never adds matching experiments,
    whichever inputs and bin counts the two histograms are built for; with
    the same window every card therefore reports the same number of runs. *)
Theorem buildHistogramData_window_monotone (experiments : list Experiment.t)
    (inputKey inputKey' outputKey : string)
    (minOut maxOut minOut' maxOut' : number) (binCount binCount' : nat)
    (h h' : Histogram.t) :
  (minOut <=? minOut')%num = true ->
  (maxOut' <=? maxOut)%num = true ->
  buildHistogramData host experiments inputKey outputKey minOut maxOut binCount
  = Returns h ->
  buildHistogramData host experiments inputKey' outputKey minOut' maxOut'
    binCount'
  = Returns h' ->
  (Histogram.matchingCount h' <= Histogram.matchingCount h)%nat.
Proof.
  intros Hmin Hmax Hh Hh'.
  apply (buildHistogramData_counts host) in Hh as [_ ->].
  apply (buildHistogramData_counts host) in Hh' as [_ ->].
  unfold matchingExperiments. apply filter_length_le.
  intros exp. now apply inWindow_wider.
Qed.

End HistogramMore.

Lemma buildHistogramData_finite_inputs_witness :
  let h :=
    Histogram.mk
      [ HistogramBin.mk "1.0–1.2" 2; HistogramBin.mk "1.2–1.3" 0;
        HistogramBin.mk "1.3–1.5" 0; HistogramBin.mk "1.5–1.7" 0;
        HistogramBin.mk "1.7–1.8" 0; HistogramBin.mk "1.8–2.0" 1 ]
      3 in
  totalCount (Histogram.bins h)
  = finiteInputCount sampleRuns "Polymer 1" "Tensile Strength"
      (Num.ofZ 10) (Num.ofZ 30)
  /\ Histogram.matchingCount h
     = length (matchingExperiments sampleRuns "Tensile Strength"
                 (Num.ofZ 10) (Num.ofZ 30))
  /\ (length (Histogram.bins h) = 0%nat
      \/ length (Histogram.bins h) = 1%nat
      \/ length (Histogram.bins h) = defaultBinCount).
Proof.
  apply (buildHistogramData_finite_inputs plainHost sampleRuns "Polymer 1"
           "Tensile Strength" (Num.ofZ 10) (Num.ofZ 30) defaultBinCount
           (Histogram.mk
              [ HistogramBin.mk "1.0–1.2" 2; HistogramBin.mk "1.2–1.3" 0;
                HistogramBin.mk "1.3–1.5" 0; HistogramBin.mk "1.5–1.7" 0;
                HistogramBin.mk "1.7–1.8" 0; HistogramBin.mk "1.8–2.0" 1 ]
              3)).
  - vm_compute. repeat constructor.
  - vm_compute. reflexivity.
Defined.

Lemma buildHistogramData_no_bins_witness :
  (totalCount
     (Histogram.bins (Histogram.mk [HistogramBin.mk "1.00" 2] 2))
   <= Histogram.matchingCount (Histogram.mk [HistogramBin.mk "1.00" 2] 2))%nat
  /\ (Histogram.bins (Histogram.mk [HistogramBin.mk "1.00" 2] 2) = []
      <-> collectedValues sampleRuns "Polymer 1" "Tensile Strength"
            (Num.ofZ 10) (Num.ofZ 20)
          = []).
Proof.
  apply (buildHistogramData_no_bins plainHost sampleRuns "Polymer 1"
           "Tensile Strength" (Num.ofZ 10) (Num.ofZ 20) defaultBinCount).
  vm_compute. reflexivity.
Defined.

Lemma buildHistogramData_window_monotone_witness :
  (Histogram.matchingCount (Histogram.mk [HistogramBin.mk "1.00" 2] 2)
   <= Histogram.matchingCount
        (Histogram.mk
           [ HistogramBin.mk "1.0–1.2" 2; HistogramBin.mk "1.2–1.3" 0;
             HistogramBin.mk "1.3–1.5" 0; HistogramBin.mk "1.5–1.7" 0;
             HistogramBin.mk "1.7–1.8" 0; HistogramBin.mk "1.8–2.0" 1 ]
           3))%nat.
Proof.
  apply (buildHistogramData_window_monotone plainHost sampleRuns "Polymer 1"
           "Polymer 1" "Tensile Strength" (Num.ofZ 10) (Num.ofZ 30)
           (Num.ofZ 10) (Num.ofZ 20) defaultBinCount defaultBinCount);
    vm_compute; reflexivity.
Defined.

(** *** The bars at the two ends *)

(** The bin of a finite value, for a finite positive step: the floor of the
    quotient, or the last bin when that is [binCount] or more. *)
Lemma countValue_index (m x step : Qc) (binCount : nat)
    (rawBins : list HistogramBin.t) :
  step <> Q2Qc 0 -> (1 <= binCount)%nat ->
  0 <= Qfloor ((x + - m) / step)%Qc ->
  countValue (Fin m) (Fin step) binCount rawBins (Fin x)
  = let i :=
      Z.to_nat (Z.min (Qfloor ((x + - m) / step)%Qc)
                  (Z.of_nat binCount - 1)) in
    match rawBins !! i with
    | Some b => Returns (<[i := bump b]> rawBins)
    | None => Throws TypeError
    end.
Proof.
  intros Hne Hn Hz. unfold countValue.
  change (Fin x - Fin m)%num with (Fin (x + - m)%Qc).
  rewrite !div_Fin by exact Hne.
  cbn [Num.floor]. set (z := Qfloor ((x + - m) / step)%Qc) in *.
  unfold Num.ofNat at 1. cbv zeta.
  destruct (Num.ofZ z >=? Num.ofZ (Z.of_nat binCount))%num eqn:E.
  - apply ge_ofZ in E.
    rewrite ofNat_minus_one, arrayIndex_ofZ by lia.
    now rewrite Z.min_r by lia.
  - assert (Hlt : z < Z.of_nat binCount).
    { apply Z.nle_gt. intros H. apply ge_ofZ in H. congruence. }
    rewrite arrayIndex_ofZ by exact Hz.
    now rewrite Z.min_l by lia.
Qed.

Lemma countValue_empty (minVal step : number) (binCount : nat) (v : number) :
  countValue minVal step binCount [] v = Throws TypeError.
Proof. unfold countValue. now destruct (arrayIndex _). Qed.

(** A turn of the counting loop lowers no count. *)
Lemma countValue_mono (minVal step : number) (binCount : nat)
    (rawBins rawBins' : list HistogramBin.t) (v : number) (j : nat)
    (b : HistogramBin.t) :
  countValue minVal step binCount rawBins v = Returns rawBins' ->
  rawBins !! j = Some b ->
  exists b', rawBins' !! j = Some b'
             /\ (HistogramBin.count b <= HistogramBin.count b')%nat.
Proof.
  unfold countValue. destruct (arrayIndex _) as [i|]; [|discriminate].
  destruct (rawBins !! i) as [bi|] eqn:Hi; [|discriminate].
  intros [= <-] Hj. destruct (decide (i = j)) as [->|Hne].
  - rewrite list_lookup_insert_eq by (now apply lookup_lt_Some with bi).
    eexists. split; [reflexivity|]. cbn. assert (bi = b) by congruence.
    subst. lia.
  - rewrite list_lookup_insert_ne by exact Hne. eauto.
Qed.

Lemma forOf_countValue_mono (minVal step : number) (binCount : nat)
    (values : list number) (j : nat) :
  forall (rawBins rawBins' : list HistogramBin.t) (b : HistogramBin.t),
    forOf values (countValue minVal step binCount) rawBins = Returns rawBins' ->
    rawBins !! j = Some b ->
    exists b', rawBins' !! j = Some b'
               /\ (HistogramBin.count b <= HistogramBin.count b')%nat.
Proof.
  induction values as [|v values IH]; intros rawBins rawBins' b; cbn [forOf].
  - intros [= <-] Hj. eauto.
  - destruct (countValue minVal step binCount rawBins v) as [bins1|e] eqn:Hv;
      [|discriminate].
    cbn. intros Hrest Hj.
    destruct (countValue_mono _ _ _ _ _ _ _ _ Hv Hj) as (b1 & Hb1 & Hle1).
    destruct (IH _ _ _ Hrest Hb1) as (b' & Hb' & Hle'). exists b'.
    split; [exact Hb'|lia].
Qed.

(** A value whose turn bumps the bin [j] leaves a count of one or more
    there. *)
Lemma forOf_countValue_hit (minVal step : number) (binCount : nat)
    (values : list number) (v : number) (j : nat) :
  v ∈ values ->
  (forall rawBins,
      countValue minVal step binCount rawBins v
      = match rawBins !! j with
        | Some b => Returns (<[j := bump b]> rawBins)
        | None => Throws TypeError
        end) ->
  forall rawBins rawBins' : list HistogramBin.t,
    forOf values (countValue minVal step binCount) rawBins = Returns rawBins' ->
    exists b', rawBins' !! j = Some b' /\ (1 <= HistogramBin.count b')%nat.
Proof.
  intros Hv Hidx.
  induction values as [|w values IH]; intros rawBins rawBins';
    [now apply elem_of_nil in Hv|].
  cbn [forOf].
  destruct (countValue minVal step binCount rawBins w) as [bins1|e] eqn:Hw;
    [|discriminate].
  cbn. intros Hrest. apply elem_of_cons in Hv as [->|Hv].
  - rewrite Hidx in Hw. destruct (rawBins !! j) as [b|] eqn:Hj; [|discriminate].
    injection Hw as <-.
    assert (Hb1 : <[j := bump b]> rawBins !! j = Some (bump b))
      by (apply list_lookup_insert_eq; now apply lookup_lt_Some with b).
    destruct (forOf_countValue_mono _ _ _ _ _ _ _ _ Hrest Hb1)
      as (b' & Hb' & Hle).
    exists b'. split; [exact Hb'|]. cbn in Hle. lia.
  - now apply (IH Hv bins1).
Qed.

Lemma Qfloor_zero_div (m step : Qc) : Qfloor ((m + - m) / step)%Qc = 0.
Proof.
  replace ((m + - m) / step)%Qc with (Q2Qc (inject_Z 0))
    by (unfold Qcdiv; change (Q2Qc (inject_Z 0)) with (Q2Qc 0); ring).
  apply Qfloor_Q2Qc_Z.
Qed.

Section HistogramEnds.

Variable host : Qc -> string.

(** X15. When the collected inputs are finite and the builder returns bins,
    the first bin counts at least one value: the smallest collected value is
    counted there. *)
Theorem buildHistogramData_first_bin (experiments : list Experiment.t)
    (inputKey outputKey : string) (minOut maxOut : number) (binCount : nat)
    (h : Histogram.t) :
  Forall (fun x => Num.isFinite x = true)
    (collectedValues experiments inputKey outputKey minOut maxOut) ->
  buildHistogramData host experiments inputKey outputKey minOut maxOut binCount
  = Returns h ->
  Histogram.bins h <> [] ->
  exists firstBin : HistogramBin.t,
    head (Histogram.bins h) = Some firstBin
    /\ (1 <= HistogramBin.count firstBin)%nat.
Proof.
  intros Hfin. unfold buildHistogramData. cbv zeta.
  destruct (decide _) as [|_]; [now intros [= <-]|].
  destruct (decide _) as [|Hlen]; [now intros [= <-]|].
  destruct (finite_list _ Hfin) as [qs Hqs]. rewrite Hqs in *.
  destruct qs as [|q qs]; [done|].
  destruct (min_Fin q qs) as (m & -> & Hm & Hlow).
  destruct (max_Fin q qs) as (M & -> & HM & Hup).
  destruct (Fin m === Fin M)%num eqn:E.
  { intros [= <-] _. cbn [Histogram.bins].
    eexists. split; [reflexivity|].
    cbn [HistogramBin.count length fmap list_fmap]. lia. }
  assert (HmM : (m < M)%Qc).
  { destruct (Qcle_lt_or_eq m M (Hup m Hm)) as [H|H]; [exact H|].
    apply eq_Fin in H. congruence. }
  destruct binCount as [|n].
  { rewrite fmap_cons. cbn [forOf emptyBins seq map].
    rewrite countValue_empty. discriminate. }
  change (Fin M - Fin m)%num with (Fin (M + - m)%Qc).
  rewrite div_Fin_nat by lia.
  set (step := ((M + - m) / Qc_of_nat (S n))%Qc).
  assert (Hstep : step <> Q2Qc 0).
  { apply not_eq_sym, Qclt_not_eq. subst step.
    apply Qclt_minus_iff in HmM.
    unfold Qcdiv. rewrite <- (Qcmult_0_l (/ Qc_of_nat (S n))).
    apply Qcmult_lt_compat_r; [|exact HmM].
    apply Qc_inv_pos, Qc_of_nat_pos. lia. }
  destruct (forOf _ _ _) as [rawBins|e] eqn:Hfor; [|discriminate].
  cbn. intros [= <-] _. cbn [Histogram.bins].
  assert (Hfirst :
           exists b', rawBins !! 0%nat = Some b'
                      /\ (1 <= HistogramBin.count b')%nat).
  { eapply (forOf_countValue_hit _ _ _ _ (Fin m)); [| |exact Hfor].
    - apply list_elem_of_fmap. eauto.
    - intros bins0.
      rewrite countValue_index; rewrite ?Qfloor_zero_div; try lia;
        [|exact Hstep].
      cbv zeta. now rewrite Z.min_l by lia. }
  destruct Hfirst as (b0 & Hf & Hf1).
  exists b0. rewrite head_lookup. auto.
Qed.

End HistogramEnds.

Lemma buildHistogramData_first_bin_witness :
  exists firstBin : HistogramBin.t,
    head [ HistogramBin.mk "1.0–1.2" 2; HistogramBin.mk "1.2–1.3" 0;
           HistogramBin.mk "1.3–1.5" 0; HistogramBin.mk "1.5–1.7" 0;
           HistogramBin.mk "1.7–1.8" 0; HistogramBin.mk "1.8–2.0" 1 ]
    = Some firstBin
    /\ (1 <= HistogramBin.count firstBin)%nat.
Proof.
  apply (buildHistogramData_first_bin plainHost sampleRuns "Polymer 1"
           "Tensile Strength" (Num.ofZ 10) (Num.ofZ 30) defaultBinCount
           (Histogram.mk
              [ HistogramBin.mk "1.0–1.2" 2; HistogramBin.mk "1.2–1.3" 0;
                HistogramBin.mk "1.3–1.5" 0; HistogramBin.mk "1.5–1.7" 0;
                HistogramBin.mk "1.7–1.8" 0; HistogramBin.mk "1.8–2.0" 1 ]
              3)).
  - vm_compute. repeat constructor.
  - vm_compute. reflexivity.
  - discriminate.
Defined.

(** ** The range view and the advisor on the same output *)

Lemma scanStep_min_max (l : list number) :
  Forall (fun v => v <> NaN) l ->
  forall mn mx : number,
    mn <> NaN -> mx <> NaN ->
    fold_left scanStep l (mn, mx)
    = (fold_left Num.min2 l mn, fold_left Num.max2 l mx).
Proof.
  induction 1 as [|v l Hv _ IH]; intros mn mx Hmn Hmx; cbn [fold_left];
    [reflexivity|].
  unfold scanStep at 2.
  assert (Hmin : (if (v <? mn)%num then v else mn) = Num.min2 mn v).
  { rewrite min2_le, (num_lt_le v mn) by assumption.
    now destruct (mn <=? v)%num. }
  assert (Hmax : (if (v >? mx)%num then v else mx) = Num.max2 mx v).
  { rewrite max2_le by assumption. unfold Num.gt.
    rewrite (num_lt_le mx v) by assumption.
    destruct (v <=? mx)%num eqn:E1, (mx <=? v)%num eqn:E2; cbn [negb];
      try reflexivity.
    - now apply num_le_antisym.
    - destruct (num_le_total v mx Hv Hmx); congruence. }
  rewrite Hmin, Hmax. apply IH.
  - rewrite <- Hmin. now destruct (v <? mn)%num.
  - rewrite <- Hmax. now destruct (v >? mx)%num.
Qed.

Lemma recordedOutputs_valid (experiments : list Experiment.t) (key : string) :
  (forall exp v, exp ∈ experiments ->
                 Experiment.outputs exp !! key = Some v ->
                 v = NaN \/ Num.isFinite v = true) ->
  recordedOutputs experiments key
  = omap valid_value
      (map (fun e => Experiment.outputs e !! key) experiments).
Proof.
  unfold recordedOutputs.
  induction experiments as [|exp exps IH]; intros Hfin; [reflexivity|].
  cbn [map omap list_omap]. rewrite IH
    by (intros e v He; apply Hfin, elem_of_cons; now right).
  destruct (Experiment.outputs exp !! key) as [v|] eqn:Hout; [|reflexivity].
  destruct (Hfin exp v) as [->|Hv]; [apply elem_of_cons; now left|exact Hout
                                    |reflexivity|].
  destruct v; try discriminate. reflexivity.
Qed.

(** X16. When every output recorded under a key is finite, the range view
    and the advisor agree on its bounds: the entry of [OUTPUT_STATS] has the
    [min] and the [max] that [statsForField] computes for that output, the
    zeros of a key without data included. *)
Theorem outputStats_agree_with_statsForField (experiments : list Experiment.t)
    (outputKeys : list string) (key : string) (s : MinMax.t) :
  computeOutputStats experiments outputKeys !! key = Some s ->
  (forall exp v, exp ∈ experiments ->
                 Experiment.outputs exp !! key = Some v ->
                 v = NaN \/ Num.isFinite v = true) ->
  MinMax.min s = Stats.min (statsForField experiments key output)
  /\ MinMax.max s = Stats.max (statsForField experiments key output).
Proof.
  rewrite computeOutputStats_lookup.
  destruct (decide (key ∈ outputKeys)) as [_|_]; [|discriminate].
  intros [= <-] Hfin. unfold outputStatsEntry.
  rewrite scanOutput_recorded.
  rewrite scanStep_min_max
    by (try apply recordedOutputs_not_NaN; congruence).
  rewrite (recordedOutputs_valid experiments key Hfin).
  unfold statsForField, computeStats. cbv zeta.
  set (values := map (fun e => Experiment.outputs e !! key) experiments).
  rewrite omap_valid_value.
  destruct (finite_values values) as [|q qs] eqn:E.
  - cbn. split; reflexivity.
  - destruct (decide _) as [E0|_]; [discriminate E0|].
    fold (Num.min (Fin <$> q :: qs)). fold (Num.max (Fin <$> q :: qs)).
    destruct (min_Fin q qs) as (m & -> & _).
    destruct (max_Fin q qs) as (M & -> & _).
    cbn. split; reflexivity.
Qed.

Lemma outputStats_agree_with_statsForField_witness :
  MinMax.min (MinMax.mk (Num.ofZ 10) (Num.ofZ 30))
  = Stats.min (statsForField sampleRuns "Tensile Strength" output)
  /\ MinMax.max (MinMax.mk (Num.ofZ 10) (Num.ofZ 30))
     = Stats.max (statsForField sampleRuns "Tensile Strength" output).
Proof.
  apply (outputStats_agree_with_statsForField sampleRuns ["Tensile Strength"]
           "Tensile Strength" (MinMax.mk (Num.ofZ 10) (Num.ofZ 30))).
  - vm_compute. reflexivity.
  - intros exp v Hexp Hout. right. unfold sampleRuns in Hexp.
    rewrite !elem_of_cons, elem_of_nil in Hexp.
    destruct Hexp as [->|[->|[->|[]]]];
      vm_compute in Hout; injection Hout as <-; reflexivity.
Defined.

(** ** More on the advisor *)

Ltac advisor_cases :=
  repeat match goal with
         | |- context [match ?m !! ?k with _ => _ end] => destruct (m !! k)
         | |- context [if high ?v ?s then _ else _] => destruct (high v s)
         | |- context [if low ?v ?s then _ else _] => destruct (low v s)
         | |- context [if (?a <=? ?b)%num then _ else _] =>
             destruct (a <=? b)%num
         end.

Ltac advisor_fallback :=
  repeat match goal with
         | |- context [decide (?a = ?b)] =>
             destruct (decide (a = b)); try discriminate
         end.

Section AdvisorCards.

Variable host : Qc -> string.

Lemma advisor_cards_sizes (anchorInputs anchorOutputs : gmap string number)
    (coAgent1Stats coAgent2Stats carbonBlackHighStats : Stats.t)
    (cureTimeStats ovenStats compressionStats elongationStats : Stats.t) :
  let cost :=
    costLevers host anchorInputs coAgent1Stats coAgent2Stats
      carbonBlackHighStats in
  let cure := cureAndOven host anchorInputs anchorOutputs cureTimeStats
                ovenStats in
  let field := fieldPerformance host anchorOutputs compressionStats
                 elongationStats in
  (length cost.1 = length cost.2
   /\ (1 <= length cost.1 <= 3)%nat)
  /\ (length cure.1 = length cure.2 /\ (length cure.1 <= 2)%nat)
  /\ (length field.1 = length field.2
      /\ (1 <= length field.1 <= 2)%nat).
Proof.
  cbv zeta. split; [|split].
  - unfold costLevers. advisor_cases; cbn; advisor_fallback; cbn; lia.
  - unfold cureAndOven. advisor_cases; cbn; advisor_fallback; cbn; lia.
  - unfold fieldPerformance. advisor_cases; cbn; advisor_fallback; cbn; lia.
Qed.

(** X17. The three sections carry their fixed ids and titles, and each pairs
    every bullet with one line of its explanation, the lines joined by line
    feeds into [why]: the cost card has one to three bullets, the cure card
    at most two and the field card one or two. *)
Theorem buildAdvisorSections_cards
    (anchor : Experiment.t) (allExperiments : list Experiment.t) :
  exists cost whyCost cure whyCure field whyField : list string,
    buildAdvisorSections host anchor allExperiments
    = [ AdvisorSection.mk "cost" "Cost levers" cost (join nl whyCost);
        AdvisorSection.mk "cure" "Cure time & oven utilisation" cure
          (join nl whyCure);
        AdvisorSection.mk "field" "Field performance & scrap" field
          (join nl whyField) ]
    /\ (length cost = length whyCost /\ (1 <= length cost <= 3)%nat)
    /\ (length cure = length whyCure /\ (length cure <= 2)%nat)
    /\ (length field = length whyField /\ (1 <= length field <= 2)%nat).
Proof.
  unfold buildAdvisorSections. cbv zeta.
  pose proof (advisor_cards_sizes (Experiment.inputs anchor)
                (Experiment.outputs anchor)
                (statsForField allExperiments "Co-Agent 1" input)
                (statsForField allExperiments "Co-Agent 2" input)
                (statsForField allExperiments "Carbon Black High Grade" input)
                (statsForField allExperiments "Cure Time" output)
                (statsForField allExperiments "Oven Temperature" input)
                (statsForField allExperiments "Compression Set" output)
                (statsForField allExperiments "Elongation" output)) as H.
  cbv zeta in H.
  destruct (costLevers _ _ _ _ _) as [cost whyCost].
  destruct (cureAndOven _ _ _ _ _) as [cure whyCure].
  destruct (fieldPerformance _ _ _ _) as [field whyField].
  exists cost, whyCost, cure, whyCure, field, whyField.
  split; [reflexivity|exact H].
Qed.

End AdvisorCards.

Lemma computeStats_no_valid (values : list (option number)) :
  Forall (fun v => valid_value v = None) values ->
  computeStats values = Stats.mk Num.zero Num.zero Num.zero.
Proof.
  intros H. unfold computeStats.
  assert (E : omap valid_value values = []).
  { induction H as [|v values Hv _ IH]; [reflexivity|].
    cbn [omap list_omap]. now rewrite Hv, IH. }
  now rewrite E.
Qed.

Lemma zero_times (c : Qc) : (Num.zero * Fin c)%num = Num.zero.
Proof.
  unfold Num.zero, Num.ofZ, Num.mul. f_equal.
  change (Q2Qc (inject_Z 0)) with 0%Qc. apply Qcmult_0_l.
Qed.

(** X18. A field for which the dataset holds no finite value has the
    statistics [{mean: 0, min: 0, max: 0}], and against them every value
    above zero counts as high and every value below zero as low; so it is
    for every field when the dataset is empty. *)
Theorem statsForField_without_data (experiments : list Experiment.t)
    (field : string) (k : kind) :
  (forall exp, exp ∈ experiments ->
               valid_value
                 match k with
                 | input => Experiment.inputs exp !! field
                 | output => Experiment.outputs exp !! field
                 end
               = None) ->
  statsForField experiments field k = Stats.mk Num.zero Num.zero Num.zero
  /\ forall value : number,
       high value (statsForField experiments field k)
       = (value >? Num.zero)%num
       /\ low value (statsForField experiments field k)
          = (value <? Num.zero)%num.
Proof.
  intros Hno.
  assert (E : statsForField experiments field k
              = Stats.mk Num.zero Num.zero Num.zero).
  { unfold statsForField. apply computeStats_no_valid.
    apply Forall_forall. intros v Hv.
    apply list_elem_of_fmap in Hv as (exp & -> & Hexp). now apply Hno. }
  split; [exact E|]. intros value. rewrite E. unfold high, low.
  cbn [Stats.mean]. unfold Num.dec. now rewrite !zero_times.
Qed.

Lemma statsForField_without_data_witness :
  statsForField sampleRuns "Co-Agent 1" input
  = Stats.mk Num.zero Num.zero Num.zero
  /\ forall value : number,
       high value (statsForField sampleRuns "Co-Agent 1" input)
       = (value >? Num.zero)%num
       /\ low value (statsForField sampleRuns "Co-Agent 1" input)
          = (value <? Num.zero)%num.
Proof.
  apply (statsForField_without_data sampleRuns "Co-Agent 1" input).
  intros exp Hexp. unfold sampleRuns in Hexp.
  rewrite !elem_of_cons, elem_of_nil in Hexp.
  destruct Hexp as [->|[->|[->|[]]]]; vm_compute; reflexivity.
Defined.

(** ** The anchor of the advisor page *)

Lemma anchorExperiment_Some (experiments : list Experiment.t)
    (anchorId : string) (anchor : Experiment.t) :
  anchorExperiment experiments anchorId = Some anchor ->
  anchor ∈ experiments /\ Experiment.id anchor = anchorId.
Proof.
  unfold anchorExperiment. intros H. apply find_some in H as [Hin Hid].
  split; [now apply list_elem_of_In|now apply bool_decide_eq_true in Hid].
Qed.

Lemma anchorExperiment_None (experiments : list Experiment.t)
    (anchorId : string) :
  anchorExperiment experiments anchorId = None ->
  forall e, e ∈ experiments -> Experiment.id e <> anchorId.
Proof.
  unfold anchorExperiment. intros H e He Hid.
  apply list_elem_of_In in He.
  pose proof (find_none _ _ H e He) as Hf. cbv beta in Hf.
  now apply bool_decide_eq_false in Hf.
Qed.

(** X19. The advisor page analyses the first experiment that carries the
    selected id, and shows its three cards; it has no card exactly when no
    experiment carries that id.  On the first render the anchor is the first
    experiment of the dataset. *)
Theorem heuristicSections_anchor (host : Qc -> string)
    (experiments : list Experiment.t) (anchorId : string) :
  match anchorExperiment experiments anchorId with
  | Some anchor =>
      (anchor ∈ experiments /\ Experiment.id anchor = anchorId)
      /\ heuristicSections host experiments anchorId
         = buildAdvisorSections host anchor experiments
      /\ length (heuristicSections host experiments anchorId) = 3%nat
  | None =>
      (forall e, e ∈ experiments -> Experiment.id e <> anchorId)
      /\ heuristicSections host experiments anchorId = []
  end
  /\ anchorExperiment experiments (initialAnchorId experiments)
     = head experiments.
Proof.
  split.
  - unfold heuristicSections.
    destruct (anchorExperiment experiments anchorId) as [anchor|] eqn:E.
    + split; [now apply anchorExperiment_Some|]. split; [reflexivity|].
      unfold buildAdvisorSections. cbv zeta.
      destruct (costLevers _ _ _ _ _) as [cost whyCost].
      destruct (cureAndOven _ _ _ _ _) as [cure whyCure].
      destruct (fieldPerformance _ _ _ _) as [field whyField].
      reflexivity.
    + split; [now apply anchorExperiment_None|reflexivity].
  - destruct experiments as [|first rest]; [reflexivity|].
    unfold anchorExperiment, initialAnchorId. cbn [List.find head].
    now rewrite bool_decide_eq_true_2.
Qed.

(** ** The statistics of the prompt *)

Lemma byDifference_Fin (x y : Qc) : byDifference (Fin x) (Fin y) <-> (x <= y)%Qc.
Proof.
  unfold byDifference, Num.gt.
  change (Fin x - Fin y)%num with (Fin (x + - y)%Qc).
  unfold Num.zero, Num.ofZ. change (Q2Qc (inject_Z 0)) with 0%Qc.
  split.
  - intros H. apply Qcnot_lt_le. intros Hlt.
    assert (Ht : (Fin 0%Qc <? Fin (x + - y)%Qc)%num = true)
      by (apply lt_Fin; now apply Qclt_minus_iff in Hlt).
    congruence.
  - intros Hle. destruct (Fin 0%Qc <? Fin (x + - y)%Qc)%num eqn:E;
      [|reflexivity].
    apply lt_Fin in E. apply Qclt_minus_iff in E.
    now apply Qcle_not_lt in Hle.
Qed.

#[global] Instance byDifference_total : Total byDifference.
Proof.
  intros a b. destruct a as [| | |x], b as [| | |y];
    try (left; reflexivity); try (right; reflexivity).
  destruct (Qclt_le_dec y x) as [H|H].
  - right. apply byDifference_Fin. now apply Qclt_le_weak.
  - left. now apply byDifference_Fin.
Qed.

#[global] Instance Qcle_transitive : Transitive Qcle.
Proof. intros x y z. apply Qcle_trans. Qed.

Lemma Sorted_byDifference_Fin (ss : list Qc) :
  Sorted byDifference (Fin <$> ss) -> Sorted Qcle ss.
Proof.
  induction ss as [|a ss IH]; [constructor|].
  rewrite fmap_cons. intros H. apply Sorted_inv in H as [Hs Hhd].
  constructor; [now apply IH|].
  destruct ss as [|b ss]; [constructor|].
  rewrite fmap_cons in Hhd. apply HdRel_inv in Hhd.
  constructor. now apply byDifference_Fin.
Qed.

Lemma StronglySorted_last (l : list Qc) :
  StronglySorted Qcle l ->
  forall z, last l = Some z -> forall x, x ∈ l -> (x <= z)%Qc.
Proof.
  induction 1 as [|a l Hs IH Hall]; intros z Hz x Hx;
    [now apply elem_of_nil in Hx|].
  destruct l as [|b l].
  - cbn in Hz. injection Hz as <-.
    apply list_elem_of_singleton in Hx as ->. apply Qcle_refl.
  - change (last (a :: b :: l)) with (last (b :: l)) in Hz.
    apply elem_of_cons in Hx as [->|Hx]; [|now apply IH].
    rewrite Forall_forall in Hall. apply Hall.
    rewrite last_lookup in Hz. now apply list_elem_of_lookup_2 in Hz.
Qed.

Lemma least_unique (m m' : Qc) (qs : list Qc) :
  least m qs -> least m' qs -> m = m'.
Proof.
  intros [Hin Hle] [Hin' Hle']. apply Qcle_antisym; auto.
Qed.

Lemma greatest_unique (m m' : Qc) (qs : list Qc) :
  greatest m qs -> greatest m' qs -> m = m'.
Proof.
  intros [Hin Hle] [Hin' Hle']. apply Qcle_antisym; auto.
Qed.

Lemma finite_values_elem (dataset : list Experiment.t) (name : string)
    (q : Qc) :
  q ∈ finite_values (map (fun e => Experiment.outputs e !! name) dataset) ->
  exists exp, exp ∈ dataset /\ Experiment.outputs exp !! name = Some (Fin q).
Proof.
  unfold finite_values. intros H.
  apply list_elem_of_omap in H as (v & Hv & Hq).
  apply list_elem_of_fmap in Hv as (exp & -> & Hexp).
  exists exp. split; [exact Hexp|].
  destruct (Experiment.outputs exp !! name) as [[| | |x]|]; try discriminate.
  now injection Hq as ->.
Qed.

(** The sorted copy of finite values: the same values, in ascending
    order. *)
Lemma merge_sort_Fin (qs : list Qc) :
  exists ss : list Qc,
    merge_sort byDifference (Fin <$> qs) = Fin <$> ss
    /\ StronglySorted Qcle ss
    /\ length ss = length qs
    /\ forall x, x ∈ ss <-> x ∈ qs.
Proof.
  pose proof (merge_sort_Permutation byDifference (Fin <$> qs)) as Hperm.
  pose proof (Sorted_merge_sort byDifference (Fin <$> qs)) as Hsorted.
  assert (Hfin : Forall (fun x => Num.isFinite x = true)
                   (merge_sort byDifference (Fin <$> qs))).
  { apply Forall_forall. intros x Hx. rewrite Hperm in Hx.
    apply list_elem_of_fmap in Hx as (q & -> & _). reflexivity. }
  destruct (finite_list _ Hfin) as [ss Hss]. exists ss.
  rewrite Hss in *. split; [reflexivity|]. split; [|split].
  - apply Sorted_StronglySorted; [exact Qcle_transitive|].
    now apply Sorted_byDifference_Fin.
  - apply Permutation_length in Hperm. now rewrite !length_fmap in Hperm.
  - intros x. split; intros Hx.
    + assert (H : Fin x ∈ Fin <$> qs)
        by (rewrite <- Hperm; apply list_elem_of_fmap; eauto).
      apply list_elem_of_fmap in H as (y & [= ->] & Hy). exact Hy.
    + assert (H : Fin x ∈ Fin <$> ss)
        by (rewrite Hperm; apply list_elem_of_fmap; eauto).
      apply list_elem_of_fmap in H as (y & [= ->] & Hy). exact Hy.
Qed.

(** X20. The statistics line of an output in the prompt is always produced.
    It reads [no historical data available] exactly when the dataset has no
    finite value for the output; otherwise its mean, minimum and maximum are
    those of [statsForField], the statistics behind the rule-based cards,
    and its median is an output of the dataset between the two bounds. *)
Theorem outputStatsLine_agrees (host : Qc -> string)
    (dataset : list Experiment.t) (name : string) :
  let values := map (fun e => Experiment.outputs e !! name) dataset in
  let st := statsForField dataset name output in
  (finite_values values = []
   /\ outputStatsLine host dataset name
      = Returns (name +:+ ": no historical data available"))
  \/ (finite_values values <> []
      /\ exists median : Qc,
          outputStatsLine host dataset name
          = Returns
              (name +:+ ": mean=" +:+ toFixed host (Stats.mean st) 2
               +:+ ", median=" +:+ toFixed host (Fin median) 2
               +:+ ", min=" +:+ toFixed host (Stats.min st) 2
               +:+ ", max=" +:+ toFixed host (Stats.max st) 2)
          /\ (exists exp, exp ∈ dataset
                          /\ Experiment.outputs exp !! name
                             = Some (Fin median))
          /\ (Stats.min st <=? Fin median)%num = true
          /\ (Fin median <=? Stats.max st)%num = true).
Proof.
  cbv zeta. unfold outputStatsLine, statsForField, computeStats. cbv zeta.
  set (values := map (fun e => Experiment.outputs e !! name) dataset).
  rewrite omap_valid_value.
  destruct (finite_values values) as [|q qs] eqn:E.
  { left. split; reflexivity. }
  right. split; [discriminate|].
  destruct (decide _) as [E0|_]; [discriminate E0|].
  destruct (merge_sort_Fin (q :: qs)) as (ss & -> & Hss & Hlen & Hmem).
  destruct (min_Fin q qs) as (m & Hmin & Hm).
  destruct (max_Fin q qs) as (M & Hmax & HM).
  rewrite Hmin, Hmax. cbn [Stats.mean Stats.min Stats.max].
  rewrite !length_fmap, Hlen.
  assert (Hpos : (0 < length ss)%nat) by (rewrite Hlen; simpl; lia).
  destruct (lookup_lt_is_Some_2 ss (length (q :: qs) / 2)) as [md Hmd].
  { rewrite Hlen. apply Nat.div_lt; simpl; lia. }
  assert (Hmdin : md ∈ q :: qs)
    by (apply Hmem; now apply list_elem_of_lookup_2 in Hmd).
  destruct ss as [|s0 ss']; [simpl in Hpos; lia|].
  assert (Hs0 : s0 = m).
  { apply (least_unique s0 m (q :: qs)); [|exact Hm]. split.
    - apply Hmem, elem_of_cons. now left.
    - intros x Hx. apply Hmem in Hx.
      apply StronglySorted_inv in Hss as [_ Hall].
      apply elem_of_cons in Hx as [->|Hx]; [apply Qcle_refl|].
      rewrite Forall_forall in Hall. now apply Hall. }
  destruct (last (s0 :: ss')) as [sl|] eqn:Hlast;
    [|now apply last_None in Hlast].
  assert (Hsl : sl = M).
  { apply (greatest_unique sl M (q :: qs)); [|exact HM]. split.
    - apply Hmem. rewrite last_lookup in Hlast.
      now apply list_elem_of_lookup_2 in Hlast.
    - intros x Hx. apply Hmem in Hx.
      now apply (StronglySorted_last _ Hss sl Hlast). }
  exists md. split; [|split; [|split]].
  - unfold elementAt. rewrite !list_lookup_fmap, Hmd.
    cbn [fmap option_fmap option_map mbind outcome_bind lookup list_lookup].
    rewrite last_lookup, Hlen, <- Nat.sub_1_r in Hlast.
    rewrite Hlast. cbn. now subst.
  - apply finite_values_elem. fold values. now rewrite E.
  - apply le_Fin. now apply Hm.
  - apply le_Fin. now apply HM.
Qed.

(** ** More on the reply parser *)

Lemma trimEnd_idem (s : string) : trimEnd (trimEnd s) = trimEnd s.
Proof.
  induction s as [|c s IH]; [reflexivity|]. cbn [trimEnd].
  destruct (trimEnd s) as [|d t] eqn:E.
  - destruct (isSpace c) eqn:Ec; [reflexivity|]. cbn [trimEnd]. now rewrite Ec.
  - cbn [trimEnd]. cbn [trimEnd] in IH. now rewrite IH.
Qed.

Lemma trimStart_head (s : string) :
  match trimStart s with
  | EmptyString => True
  | String c _ => isSpace c = false
  end.
Proof.
  unfold trimStart. induction s as [|c s IH]; [exact I|]. cbn [dropWhile].
  destruct (isSpace c) eqn:E; [exact IH|exact E].
Qed.

Lemma trimStart_noop (c : ascii) (s : string) :
  isSpace c = false -> trimStart (String c s) = String c s.
Proof. intros H. unfold trimStart. cbn [dropWhile]. now rewrite H. Qed.

Lemma trimEnd_head (c : ascii) (s : string) :
  isSpace c = false -> exists t, trimEnd (String c s) = String c t.
Proof.
  intros H. cbn [trimEnd]. destruct (trimEnd s); rewrite ?H; eauto.
Qed.

Lemma trim_idem (s : string) : trim (trim s) = trim s.
Proof.
  unfold trim. pose proof (trimStart_head s) as H.
  destruct (trimStart s) as [|c t]; [reflexivity|].
  destruct (trimEnd_head c t H) as [u Hu]. rewrite Hu.
  rewrite (trimStart_noop c u H), <- Hu. apply trimEnd_idem.
Qed.

Lemma hasLineFeed_dropWhile (p : ascii -> bool) (s : string) :
  hasLineFeed s = false -> hasLineFeed (dropWhile p s) = false.
Proof.
  induction s as [|c s IH]; [reflexivity|]. cbn [hasLineFeed dropWhile].
  intros H. apply orb_false_iff in H as [Hc Hs].
  destruct (p c); [now apply IH|]. cbn [hasLineFeed]. now rewrite Hc, Hs.
Qed.

Lemma hasLineFeed_trimEnd (s : string) :
  hasLineFeed s = false -> hasLineFeed (trimEnd s) = false.
Proof.
  induction s as [|c s IH]; [reflexivity|]. cbn [hasLineFeed trimEnd].
  intros H. apply orb_false_iff in H as [Hc Hs]. specialize (IH Hs).
  destruct (trimEnd s) as [|d t].
  - destruct (isSpace c); [reflexivity|]. cbn [hasLineFeed]. now rewrite Hc.
  - cbn [hasLineFeed] in *. now rewrite Hc, IH.
Qed.

Lemma hasLineFeed_trim (s : string) :
  hasLineFeed s = false -> hasLineFeed (trim s) = false.
Proof.
  intros H. unfold trim, trimStart.
  now apply hasLineFeed_trimEnd, hasLineFeed_dropWhile.
Qed.

Lemma hasLineFeed_stripOrdinal (line : string) :
  hasLineFeed line = false -> hasLineFeed (stripOrdinal line) = false.
Proof.
  intros H. unfold stripOrdinal.
  destruct (lengthWhile isDigit line); [exact H|].
  pose proof (hasLineFeed_dropWhile isDigit line H) as Hd.
  destruct (dropWhile isDigit line) as [|c rest]; [exact H|].
  destruct (Ascii.ascii_dec c "."%char) as [->|Hne].
  - cbn [hasLineFeed] in Hd. apply orb_false_iff in Hd as [_ Hrest].
    now apply hasLineFeed_dropWhile.
  - destruct c as [[] [] [] [] [] [] [] []]; try exact H. now contradiction Hne.
Qed.

Lemma hasLineFeed_app (a b : string) :
  hasLineFeed (a +:+ b) = hasLineFeed a || hasLineFeed b.
Proof.
  induction a as [|c a IH]; [reflexivity|]. simpl.
  now rewrite IH, orb_assoc.
Qed.

Lemma splitLinesFrom_hasLineFeed (s : string) :
  forall piece : string,
    hasLineFeed piece = false ->
    Forall (fun line => hasLineFeed line = false) (splitLinesFrom s piece).
Proof.
  induction s as [|c s IH]; intros piece Hp; cbn [splitLinesFrom].
  - now repeat constructor.
  - destruct (decide (c = lineFeed)) as [->|Hne].
    + constructor; [exact Hp|]. now apply IH.
    + apply IH. rewrite hasLineFeed_app, Hp. cbn [hasLineFeed orb].
      rewrite bool_decide_eq_false_2 by exact Hne. reflexivity.
Qed.

Lemma join_hasLineFeed (sep : string) (l : list string) :
  hasLineFeed sep = false ->
  Forall (fun line => hasLineFeed line = false) l ->
  hasLineFeed (join sep l) = false.
Proof.
  intros Hsep. unfold join. induction 1 as [|x l Hx Hl IH]; [reflexivity|].
  destruct l as [|y l]; [exact Hx|].
  change (String.concat sep (x :: y :: l))
    with (x +:+ sep +:+ String.concat sep (y :: l)).
  rewrite !hasLineFeed_app, Hx, Hsep. exact IH.
Qed.

Lemma tidy_trim (s : string) : hasLineFeed s = false -> tidy (trim s).
Proof. intros H. split; [apply trim_idem|now apply hasLineFeed_trim]. Qed.

Lemma blockBullets_tidy (bodyLines : list string) :
  Forall (fun line => hasLineFeed line = false) bodyLines ->
  Forall tidy (blockBullets bodyLines).
Proof.
  intros Hbody. unfold blockBullets.
  set (step := fun (bullets : list string) (line : string) => _).
  assert (Hfold : forall acc,
             Forall tidy acc -> Forall tidy (fold_left step bodyLines acc)).
  { induction Hbody as [|line lines Hline _ IH]; intros acc Hacc;
      cbn [fold_left]; [exact Hacc|].
    apply IH. subst step. cbv beta.
    destruct (decide (line = EmptyString)); [exact Hacc|].
    destruct (decide (trim (stripOrdinal line) = EmptyString)); [exact Hacc|].
    apply Forall_app. split; [exact Hacc|]. constructor; [|constructor].
    now apply tidy_trim, hasLineFeed_stripOrdinal. }
  specialize (Hfold [] (Forall_nil_2 _)).
  destruct (decide _) as [_|_]; [|exact Hfold].
  apply Forall_app. split; [exact Hfold|]. constructor; [|constructor].
  now apply tidy_trim, join_hasLineFeed.
Qed.

(** X21. Every title and every bullet that [parseLlmSections] returns is a
    single line without white space at either end: trimming it changes
    nothing and it holds no line feed, whatever the reply looked like. *)
Theorem parseLlmSections_tidy (text : string) :
  Forall (fun s =>
            tidy (LlmSection.title s) /\ Forall tidy (LlmSection.bullets s))
    (parseLlmSections text).
Proof.
  unfold parseLlmSections.
  destruct (decide (trim text = EmptyString)); [constructor|].
  cbv zeta.
  generalize (splitHeadings (stripHeading (trim text))) as rawSections.
  intros rawSections.
  set (P := fun s : LlmSection.t => _ /\ _).
  assert (Hfold : forall (acc : list LlmSection.t),
             Forall P acc ->
             Forall P
               (fold_left
                  (fun (sections : list LlmSection.t) (raw : string) =>
                     match map trim (splitLines raw) with
                     | [] => sections
                     | title :: bodyLines =>
                         if decide (title = EmptyString) then sections
                         else sections
                                ++ [LlmSection.mk title (blockBullets bodyLines)]
                     end)
                  rawSections acc)).
  { induction rawSections as [|raw rawSections IH]; intros acc Hacc;
      cbn [fold_left]; [exact Hacc|].
    apply IH.
    pose proof (splitLinesFrom_hasLineFeed raw EmptyString eq_refl) as Hlines.
    fold (splitLines raw) in Hlines.
    destruct (splitLines raw) as [|first rest]; [exact Hacc|].
    cbn [map]. apply Forall_cons in Hlines as [Hfirst Hrest].
    destruct (decide (trim first = EmptyString)) as [|Htitle]; [exact Hacc|].
    apply Forall_app. split; [exact Hacc|].
    constructor; [|constructor].
    split; [now apply tidy_trim|]. apply blockBullets_tidy.
    apply Forall_forall. intros line Hline.
    apply list_elem_of_fmap in Hline as (l0 & -> & Hl0).
    rewrite Forall_forall in Hrest. now apply hasLineFeed_trim, Hrest. }
  apply Hfold. constructor.
Qed.

(** *** Parsing a reply in the expected format *)

Lemma app_cons (x : ascii) (a b : string) :
  String x a +:+ b = String x (a +:+ b).
Proof. reflexivity. Qed.

Lemma app_assoc_string (a b c : string) : (a +:+ b) +:+ c = a +:+ (b +:+ c).
Proof.
  induction a as [|x a IH]; [reflexivity|]. rewrite !app_cons. now rewrite IH.
Qed.

Lemma app_empty_r (a : string) : a +:+ EmptyString = a.
Proof.
  induction a as [|x a IH]; [reflexivity|]. rewrite app_cons. now rewrite IH.
Qed.

Lemma isDigit_not_space (c : ascii) : isDigit c = true -> isSpace c = false.
Proof.
  destruct c as [[] [] [] [] [] [] [] []]; vm_compute; congruence.
Qed.

Lemma isDigit_not_lineFeed (c : ascii) : isDigit c = true -> c <> lineFeed.
Proof. intros H ->. vm_compute in H. discriminate. Qed.

Lemma isDigit_not_hash (c : ascii) : isDigit c = true -> c <> "#"%char.
Proof. intros H ->. vm_compute in H. discriminate. Qed.

Lemma isSpace_lineFeed (c : ascii) : isSpace c = false -> c <> lineFeed.
Proof. intros H ->. vm_compute in H. discriminate. Qed.

(** A text that trimming leaves alone begins and ends without white space. *)
Lemma plainText_head (t : string) :
  plainText t ->
  exists c t', t = String c t' /\ isSpace c = false.
Proof.
  intros (Hne & Htrim & _). unfold trim in Htrim.
  pose proof (trimStart_head t) as Hhead.
  destruct (trimStart t) as [|c u]; [cbn in Htrim; congruence|].
  destruct (trimEnd_head c u Hhead) as [u' Hu]. rewrite Hu in Htrim.
  eauto.
Qed.

Lemma plainText_trimEnd (t : string) : plainText t -> trimEnd t = t.
Proof.
  intros Hp. destruct (plainText_head t Hp) as (c & t' & -> & Hc).
  destruct Hp as (_ & Htrim & _). unfold trim in Htrim.
  now rewrite (trimStart_noop c t' Hc) in Htrim.
Qed.

Lemma trimEnd_app (a b : string) :
  b <> EmptyString -> trimEnd b = b -> trimEnd (a +:+ b) = a +:+ b.
Proof.
  intros Hne Hb. induction a as [|c a IH]; [exact Hb|].
  rewrite app_cons. cbn [trimEnd]. rewrite IH.
  destruct (a +:+ b) eqn:E; [|reflexivity].
  destruct a; [change (EmptyString +:+ b) with b in E|rewrite app_cons in E];
    congruence.
Qed.

(** A text that begins without white space and ends in a plain text is left
    alone by [trim]. *)
Lemma trim_between (c : ascii) (a t : string) :
  isSpace c = false -> plainText t ->
  trim (String c (a +:+ t)) = String c (a +:+ t).
Proof.
  intros Hc Ht. unfold trim. rewrite (trimStart_noop _ _ Hc).
  change (String c (a +:+ t)) with (String c a +:+ t).
  apply trimEnd_app; [apply Ht|now apply plainText_trimEnd].
Qed.

Lemma allDigits_hasLineFeed (m : string) :
  allDigits m = true -> hasLineFeed m = false.
Proof.
  induction m as [|c m IH]; [reflexivity|]. cbn [allDigits hasLineFeed].
  intros H. apply andb_true_iff in H as [Hc Hm].
  rewrite (IH Hm), bool_decide_eq_false_2; [reflexivity|].
  now apply isDigit_not_lineFeed.
Qed.

Lemma renderItem_hasLineFeed (item : string * string) :
  listMarker item.1 -> plainText item.2 ->
  hasLineFeed (renderItem item) = false.
Proof.
  intros [_ Hm] (_ & _ & Hb & _). unfold renderItem.
  rewrite !hasLineFeed_app, (allDigits_hasLineFeed _ Hm), Hb. reflexivity.
Qed.

Lemma listMarker_head (m : string) :
  listMarker m -> exists d m', m = String d m' /\ isDigit d = true.
Proof.
  intros [Hne Hd]. destruct m as [|d m']; [congruence|].
  cbn [allDigits] in Hd. apply andb_true_iff in Hd as [Hd _]. eauto.
Qed.

Lemma renderItem_trim (item : string * string) :
  listMarker item.1 -> plainText item.2 ->
  trim (renderItem item) = renderItem item.
Proof.
  intros Hm Hb. unfold renderItem.
  destruct (listMarker_head _ Hm) as (d & m' & -> & Hd).
  change (String d m' +:+ ". " +:+ item.2)
    with (String d (m' +:+ ". " +:+ item.2)).
  rewrite <- app_assoc_string.
  apply trim_between; [now apply isDigit_not_space|exact Hb].
Qed.

Lemma lengthWhile_digits (m rest : string) :
  allDigits m = true ->
  lengthWhile isDigit (m +:+ String "."%char rest) = String.length m
  /\ dropWhile isDigit (m +:+ String "."%char rest) = String "."%char rest.
Proof.
  induction m as [|c m IH]; intros H; [split; reflexivity|].
  cbn [allDigits] in H. apply andb_true_iff in H as [Hc Hm].
  destruct (IH Hm) as [IH1 IH2]. rewrite app_cons.
  cbn [lengthWhile dropWhile String.length]. rewrite Hc, IH1, IH2. now split.
Qed.

Lemma renderItem_stripOrdinal (item : string * string) :
  listMarker item.1 -> plainText item.2 ->
  trim (stripOrdinal (renderItem item)) = item.2.
Proof.
  intros Hm Hb. unfold renderItem, stripOrdinal.
  change (". " +:+ item.2) with (String "."%char (String " "%char item.2)).
  destruct (lengthWhile_digits item.1 (String " "%char item.2) (proj2 Hm))
    as [-> ->].
  destruct Hm as [Hne _]. destruct item.1 as [|d m']; [congruence|].
  cbn [String.length].
  destruct (plainText_head _ Hb) as (c & t' & E & Hc).
  change (trimStart (String " "%char item.2)) with (trimStart item.2).
  rewrite E, (trimStart_noop c t' Hc), <- E. apply Hb.
Qed.

(** The lines of a body. *)
Lemma splitLinesFrom_app (a rest : string) :
  hasLineFeed a = false ->
  forall piece : string,
    splitLinesFrom (a +:+ rest) piece = splitLinesFrom rest (piece +:+ a).
Proof.
  induction a as [|c a IH]; intros Ha piece;
    [now rewrite app_empty_r|].
  cbn [hasLineFeed] in Ha. apply orb_false_iff in Ha as [Hc Ha].
  apply bool_decide_eq_false in Hc.
  rewrite app_cons. cbn [splitLinesFrom].
  rewrite decide_False by exact Hc. rewrite (IH Ha).
  now rewrite app_assoc_string.
Qed.

Lemma splitLinesFrom_items (items : list (string * string)) :
  Forall (fun item => listMarker item.1 /\ plainText item.2) items ->
  forall piece : string,
    splitLinesFrom
      (foldr (fun item rest => nl +:+ renderItem item +:+ rest) EmptyString
         items)
      piece
    = piece :: map renderItem items.
Proof.
  induction 1 as [|item items [Hm Hb] _ IH]; intros piece; [reflexivity|].
  cbn [foldr map]. unfold nl at 1. rewrite app_cons.
  cbn [splitLinesFrom]. rewrite decide_True by reflexivity.
  change (EmptyString +:+ renderItem item +:+ ?r) with (renderItem item +:+ r).
  rewrite splitLinesFrom_app by now apply renderItem_hasLineFeed.
  now rewrite IH.
Qed.

Lemma splitLines_renderBody (section : string * list (string * string)) :
  wellFormed section ->
  map trim (splitLines (renderBody section))
  = section.1 :: map renderItem section.2.
Proof.
  intros [Htitle Hitems]. unfold splitLines, renderBody.
  rewrite splitLinesFrom_app by apply Htitle.
  rewrite splitLinesFrom_items by exact Hitems.
  cbn [map]. f_equal; [apply Htitle|].
  induction Hitems as [|item items [Hm Hb] _ IH]; [reflexivity|].
  cbn [map]. now rewrite IH, renderItem_trim.
Qed.

(** The bullets of the lines of a body. *)
Lemma blockBullets_items (items : list (string * string)) :
  Forall (fun item => listMarker item.1 /\ plainText item.2) items ->
  blockBullets (map renderItem items) = map snd items.
Proof.
  intros Hitems. unfold blockBullets.
  set (step := fun (bullets : list string) (line : string) => _).
  assert (Hfold : forall acc,
             fold_left step (map renderItem items) acc
             = acc ++ map snd items).
  { induction Hitems as [|item items [Hm Hb] _ IH]; intros acc;
      cbn [map fold_left]; [now rewrite app_nil_r|].
    rewrite IH. subst step. cbv beta.
    rewrite (renderItem_stripOrdinal item Hm Hb).
    destruct (decide (renderItem item = EmptyString)) as [E|_].
    { exfalso. destruct (listMarker_head _ Hm) as (d & m' & Ed & _).
      unfold renderItem in E. rewrite Ed, app_cons in E. discriminate. }
    destruct (decide (item.2 = EmptyString)) as [E|_];
      [now destruct Hb as [Hne _]|].
    now rewrite <- app_assoc. }
  rewrite Hfold, app_nil_l.
  destruct (decide _) as [[Hlen Hjoin]|_]; [|reflexivity].
  rewrite length_map in Hlen. apply length_zero_iff_nil in Hlen.
  subst items. exfalso. apply Hjoin. reflexivity.
Qed.

(** No heading begins inside a body. *)
Lemma quiet_app (a b : string) :
  hasLineFeed a = false -> quiet (a +:+ b) = quiet b.
Proof.
  induction a as [|c a IH]; intros Ha; [reflexivity|].
  cbn [hasLineFeed] in Ha. apply orb_false_iff in Ha as [Hc Ha].
  apply bool_decide_eq_false in Hc.
  rewrite app_cons. cbn [quiet]. rewrite decide_False by exact Hc.
  now rewrite IH.
Qed.

Lemma quiet_items (items : list (string * string)) :
  Forall (fun item => listMarker item.1 /\ plainText item.2) items ->
  quiet
    (foldr (fun item rest => nl +:+ renderItem item +:+ rest) EmptyString
       items)
  = true.
Proof.
  induction 1 as [|item items [Hm Hb] _ IH]; [reflexivity|].
  cbn [foldr]. unfold nl at 1. rewrite app_cons.
  change (EmptyString +:+ renderItem item +:+ ?r) with (renderItem item +:+ r).
  cbn [quiet]. rewrite decide_True by reflexivity.
  rewrite quiet_app by now apply renderItem_hasLineFeed.
  rewrite IH, andb_true_r.
  destruct (listMarker_head _ Hm) as (d & m' & Ed & Hd).
  unfold renderItem. rewrite Ed, !app_cons. exact Hd.
Qed.

Lemma quiet_renderBody (section : string * list (string * string)) :
  wellFormed section -> quiet (renderBody section) = true.
Proof.
  intros [Htitle Hitems]. unfold renderBody.
  rewrite quiet_app by apply Htitle. now apply quiet_items.
Qed.

Lemma headingMatch_quiet (c : ascii) (body rest : string) :
  quiet (String c body) = true ->
  headingMatch (String c (body +:+ rest)) = None.
Proof.
  cbn [quiet]. intros H. apply andb_true_iff in H as [H _].
  unfold headingMatch. cbn [dropPrefix].
  destruct (decide (lineFeed = c)) as [<-|Hne]; [|reflexivity].
  rewrite decide_True in H by reflexivity.
  destruct body as [|d body]; [discriminate|].
  rewrite app_cons. cbn [dropPrefix].
  destruct (decide ("#"%char = d)) as [<-|_]; [|reflexivity].
  vm_compute in H. discriminate.
Qed.

Lemma quiet_tail (c : ascii) (s : string) :
  quiet (String c s) = true -> quiet s = true.
Proof. cbn [quiet]. intros H. now apply andb_true_iff in H as [_ H]. Qed.

Lemma splitHeadingsFrom_quiet (body rest : string) :
  quiet body = true ->
  forall piece : string,
    splitHeadingsFrom 0 (body +:+ rest) piece
    = splitHeadingsFrom 0 rest (piece +:+ body).
Proof.
  induction body as [|c body IH]; intros Hq piece;
    [now rewrite app_empty_r|].
  rewrite app_cons. cbn [splitHeadingsFrom].
  rewrite (headingMatch_quiet _ _ rest Hq).
  rewrite (IH (quiet_tail _ _ Hq)). now rewrite app_assoc_string.
Qed.

(** The text after the first body: each later section under its heading. *)
Lemma renderReply_cons (section : string * list (string * string))
    (sections : list (string * list (string * string))) :
  renderReply (section :: sections)
  = "### " +:+ renderBody section
    +:+ foldr (fun sec rest => nl +:+ "### " +:+ renderBody sec +:+ rest)
          EmptyString sections.
Proof.
  unfold renderReply, join. revert section.
  induction sections as [|sec sections IH]; intros section.
  - cbn [map foldr]. unfold renderSection.
    change (String.concat nl ["### " +:+ renderBody section])
      with ("### " +:+ renderBody section).
    now rewrite app_empty_r.
  - change (String.concat nl (map renderSection (section :: sec :: sections)))
      with (renderSection section +:+ nl
            +:+ String.concat nl (map renderSection (sec :: sections))).
    rewrite IH. cbn [foldr]. unfold renderSection.
    now rewrite !app_assoc_string.
Qed.

Lemma splitHeadingsFrom_0 (c : ascii) (s piece : string) :
  splitHeadingsFrom 0 (String c s) piece
  = match headingMatch (String c s) with
    | Some len => piece :: splitHeadingsFrom (len - 1) s EmptyString
    | None => splitHeadingsFrom 0 s (piece +:+ String c EmptyString)
    end.
Proof. reflexivity. Qed.

Lemma splitHeadingsFrom_S (k : nat) (c : ascii) (s piece : string) :
  splitHeadingsFrom (S k) (String c s) piece = splitHeadingsFrom k s piece.
Proof. reflexivity. Qed.

Lemma headingMatch_heading (rest : string) :
  headingMatch (String lineFeed (String "#" (String "#" (String "#" rest))))
  = Some (4 + lengthWhile isSpace rest)%nat.
Proof.
  unfold headingMatch. cbn [dropPrefix].
  repeat (rewrite decide_True by reflexivity). reflexivity.
Qed.

Lemma splitHeadingsFrom_heading (section : string * list (string * string))
    (rest piece : string) :
  wellFormed section ->
  splitHeadingsFrom 0 (nl +:+ "### " +:+ renderBody section +:+ rest) piece
  = piece :: splitHeadingsFrom 0 (renderBody section +:+ rest) EmptyString.
Proof.
  intros [Htitle _].
  assert (Hhead : exists c t, renderBody section +:+ rest = String c t
                              /\ isSpace c = false).
  { unfold renderBody.
    destruct (plainText_head _ Htitle) as (c & t' & E & Hc).
    rewrite E, !app_cons. eauto. }
  destruct Hhead as (c & t & -> & Hc).
  change (nl +:+ "### " +:+ String c t)
    with (String lineFeed (String "#" (String "#" (String "#"
            (String " " (String c t)))))).
  rewrite splitHeadingsFrom_0, headingMatch_heading.
  cbn [lengthWhile]. rewrite Hc. change (isSpace " ") with true.
  cbn [Nat.add Nat.sub]. now rewrite !splitHeadingsFrom_S.
Qed.

Lemma splitHeadings_bodies (sections : list (string * list (string * string))) :
  Forall wellFormed sections ->
  forall (section : string * list (string * string)) (piece : string),
    wellFormed section ->
    splitHeadingsFrom 0
      (renderBody section
       +:+ foldr (fun sec rest => nl +:+ "### " +:+ renderBody sec +:+ rest)
             EmptyString sections)
      piece
    = (piece +:+ renderBody section) :: map renderBody sections.
Proof.
  induction 1 as [|sec sections Hsec _ IH]; intros section piece Hsection.
  - cbn [foldr map]. rewrite splitHeadingsFrom_quiet
      by now apply quiet_renderBody.
    reflexivity.
  - cbn [foldr map]. rewrite splitHeadingsFrom_quiet
      by now apply quiet_renderBody.
    rewrite splitHeadingsFrom_heading by exact Hsec.
    now rewrite (IH sec EmptyString Hsec).
Qed.

Lemma endsPlain_app (x y : string) : endsPlain y -> endsPlain (x +:+ y).
Proof.
  intros (a & t & -> & Ht). exists (x +:+ a), t.
  split; [now rewrite app_assoc_string|exact Ht].
Qed.

Lemma endsPlain_plain (t : string) : plainText t -> endsPlain t.
Proof. intros Ht. exists EmptyString, t. now split. Qed.

Lemma endsPlain_items (item : string * string)
    (items : list (string * string)) :
  Forall (fun item => listMarker item.1 /\ plainText item.2) (item :: items) ->
  endsPlain
    (foldr (fun item rest => nl +:+ renderItem item +:+ rest) EmptyString
       (item :: items)).
Proof.
  revert item. induction items as [|item' items IH]; intros item Hall.
  - apply Forall_cons in Hall as [[_ Hb] _]. cbn [foldr].
    rewrite app_empty_r. unfold renderItem.
    now apply endsPlain_app, endsPlain_app, endsPlain_app, endsPlain_plain.
  - apply Forall_cons in Hall as [_ Hall].
    change (foldr ?f EmptyString (item :: item' :: items))
      with (f item (foldr f EmptyString (item' :: items))).
    cbv beta. now apply endsPlain_app, endsPlain_app, IH.
Qed.

Lemma endsPlain_renderBody (section : string * list (string * string)) :
  wellFormed section -> endsPlain (renderBody section).
Proof.
  intros [Htitle Hitems]. unfold renderBody.
  destruct section.2 as [|item items].
  - cbn [foldr]. rewrite app_empty_r. now apply endsPlain_plain.
  - now apply endsPlain_app, endsPlain_items.
Qed.

Lemma endsPlain_reply (sections : list (string * list (string * string))) :
  Forall wellFormed sections ->
  forall section, wellFormed section ->
    endsPlain
      (renderBody section
       +:+ foldr (fun sec rest => nl +:+ "### " +:+ renderBody sec +:+ rest)
             EmptyString sections).
Proof.
  induction 1 as [|sec sections Hsec _ IH]; intros section Hsection.
  - cbn [foldr]. rewrite app_empty_r. now apply endsPlain_renderBody.
  - cbn [foldr]. now apply endsPlain_app, endsPlain_app, endsPlain_app, IH.
Qed.

Lemma parse_bodies (sections : list (string * list (string * string))) :
  Forall wellFormed sections ->
  forall acc : list LlmSection.t,
    fold_left
      (fun (sections : list LlmSection.t) (raw : string) =>
         match map trim (splitLines raw) with
         | [] => sections
         | title :: bodyLines =>
             if decide (title = EmptyString) then sections
             else sections ++ [LlmSection.mk title (blockBullets bodyLines)]
         end)
      (map renderBody sections) acc
    = acc ++ map writtenSection sections.
Proof.
  induction 1 as [|sec sections Hsec _ IH]; intros acc; cbn [map fold_left];
    [now rewrite app_nil_r|].
  rewrite IH, (splitLines_renderBody sec Hsec).
  destruct Hsec as [Htitle Hitems].
  rewrite decide_False by apply Htitle.
  rewrite (blockBullets_items _ Hitems). now rewrite <- app_assoc.
Qed.

(** X22. A reply in the expected format parses back to what was written:
    for sections under [###] headings, with titles and item texts that are
    single lines, begin and end with an ASCII character, have no white space
    around them, and with items numbered [1. ], [2. ] and so on,
    [parseLlmSections] returns each title with the texts of its items, in
    order. *)
Theorem parseLlmSections_renderReply
    (sections : list (string * list (string * string))) :
  Forall wellFormed sections ->
  parseLlmSections (renderReply sections) = map writtenSection sections.
Proof.
  intros Hall. destruct Hall as [|section sections Hsection Hrest];
    [reflexivity|].
  rewrite renderReply_cons.
  set (tail := foldr _ EmptyString sections).
  pose proof (endsPlain_reply sections Hrest section Hsection)
    as (a & t & Hat & Ht).
  fold tail in Hat.
  assert (Hhead : exists c u, renderBody section +:+ tail = String c u
                              /\ isSpace c = false).
  { unfold renderBody. destruct Hsection as [Htitle _].
    destruct (plainText_head _ Htitle) as (c & t' & E & Hc).
    rewrite E, !app_cons. eauto. }
  destruct Hhead as (c & u & Hcu & Hc).
  unfold parseLlmSections.
  assert (Htrim : trim ("### " +:+ renderBody section +:+ tail)
                  = "### " +:+ renderBody section +:+ tail).
  { rewrite Hat.
    change ("### " +:+ a +:+ t) with (String "#" ("## " +:+ a +:+ t)).
    rewrite <- app_assoc_string. now apply trim_between. }
  rewrite Htrim. rewrite decide_False by discriminate. cbv zeta.
  assert (Hstrip : stripHeading ("### " +:+ renderBody section +:+ tail)
                   = renderBody section +:+ tail).
  { rewrite Hcu. unfold stripHeading.
    change ("### " +:+ String c u)
      with (String "#" (String "#" (String "#" (String " " (String c u))))).
    cbn [dropPrefix]. repeat (rewrite decide_True by reflexivity).
    change (trimStart (String " " (String c u)))
      with (trimStart (String c u)).
    now apply trimStart_noop. }
  rewrite Hstrip. unfold splitHeadings. subst tail.
  rewrite (splitHeadings_bodies sections Hrest section EmptyString Hsection).
  change (EmptyString +:+ renderBody section) with (renderBody section).
  change (renderBody section :: map renderBody sections)
    with (map renderBody (section :: sections)).
  rewrite parse_bodies by now constructor.
  reflexivity.
Qed.

Lemma parseLlmSections_renderReply_witness :
  parseLlmSections
    (renderReply
       [ ("1) Cost Levers",
          [("1", "Lower Co-Agent 1 by 0.5 phr."); ("2", "Try Silica Filler 2.")]);
         ("2) Cure Time & Oven Utilization", []) ])
  = [ LlmSection.mk "1) Cost Levers"
        ["Lower Co-Agent 1 by 0.5 phr."; "Try Silica Filler 2."];
      LlmSection.mk "2) Cure Time & Oven Utilization" [] ].
Proof.
  apply (parseLlmSections_renderReply
           [ ("1) Cost Levers",
              [("1", "Lower Co-Agent 1 by 0.5 phr.");
               ("2", "Try Silica Filler 2.")]);
             ("2) Cure Time & Oven Utilization", []) ]).
  repeat constructor; try discriminate; vm_compute; reflexivity.
Defined.

(** ** The general case of the range histogram *)

(** Finite collected values that are not all the same have a minimum below
    their maximum. *)
Lemma distinct_min_max (values : list number) (x y : number) :
  Forall (fun v => Num.isFinite v = true) values ->
  x ∈ values -> y ∈ values -> x <> y ->
  exists m M : Qc,
    Num.min values = Fin m /\ Num.max values = Fin M /\ (m < M)%Qc
    /\ (Fin m === Fin M)%num = false
    /\ length values <> 0%nat.
Proof.
  intros Hfin Hx Hy Hxy.
  destruct (finite_list _ Hfin) as [qs ->].
  apply list_elem_of_fmap in Hx as (qx & -> & Hqx).
  apply list_elem_of_fmap in Hy as (qy & -> & Hqy).
  destruct qs as [|q qs]; [now apply elem_of_nil in Hqx|].
  destruct (min_Fin q qs) as (m & Hmin & Hm & Hlow).
  destruct (max_Fin q qs) as (M & Hmax & HM & Hup).
  exists m, M. split; [exact Hmin|]. split; [exact Hmax|].
  assert (HmM : (m < M)%Qc).
  { destruct (Qcle_lt_or_eq m M (Hup m Hm)) as [H|H]; [exact H|].
    subst M. exfalso. apply Hxy. f_equal.
    apply Qcle_antisym.
    - apply Qcle_trans with m; [now apply Hup|now apply Hlow].
    - apply Qcle_trans with m; [now apply Hup|now apply Hlow]. }
  split; [exact HmM|]. split; [|rewrite length_fmap; discriminate].
  destruct (Fin m === Fin M)%num eqn:E; [|reflexivity].
  apply eq_Fin in E. subst M. now apply Qclt_not_eq in HmM.
Qed.

Lemma collectedValues_matching (experiments : list Experiment.t)
    (inputKey outputKey : string) (minOut maxOut : number) :
  length (collectedValues experiments inputKey outputKey minOut maxOut)
  <> 0%nat ->
  length (matchingExperiments experiments outputKey minOut maxOut) <> 0%nat.
Proof.
  pose proof (collectedValues_length experiments inputKey outputKey minOut
                maxOut). lia.
Qed.

Lemma countValue_labels (minVal step : number) (binCount : nat)
    (rawBins rawBins' : list HistogramBin.t) (v : number) :
  countValue minVal step binCount rawBins v = Returns rawBins' ->
  HistogramBin.binLabel <$> rawBins' = HistogramBin.binLabel <$> rawBins.
Proof.
  unfold countValue. destruct (arrayIndex _) as [i|]; [|discriminate].
  destruct (rawBins !! i) as [b|] eqn:Hb; [|discriminate].
  intros [= <-]. rewrite list_fmap_insert. cbn [HistogramBin.binLabel].
  apply list_insert_id. now rewrite list_lookup_fmap, Hb.
Qed.

Lemma forOf_countValue_labels (minVal step : number) (binCount : nat)
    (values : list number) :
  forall rawBins rawBins' : list HistogramBin.t,
    forOf values (countValue minVal step binCount) rawBins = Returns rawBins' ->
    HistogramBin.binLabel <$> rawBins' = HistogramBin.binLabel <$> rawBins.
Proof.
  induction values as [|v values IH]; intros rawBins rawBins'; cbn [forOf].
  - now intros [= <-].
  - destruct (countValue minVal step binCount rawBins v) as [bins1|e] eqn:Hv;
      [|discriminate].
    cbn. intros Hrest. rewrite (IH _ _ Hrest).
    now apply countValue_labels in Hv.
Qed.

Section HistogramGeneral.

Variable host : Qc -> string.

Lemma emptyBins_lookup (minVal maxVal step : number) (binCount i : nat) :
  (i < binCount)%nat ->
  emptyBins host minVal maxVal step binCount !! i
  = Some
      (HistogramBin.mk
         (toFixed host (minVal + Num.ofNat i * step)%num 1 +:+ "–"
          +:+ toFixed host
                (if (Num.ofNat i === Num.ofNat binCount - Num.ofZ 1)%num
                 then maxVal
                 else (minVal + Num.ofNat i * step + step)%num)
                1)
         0).
Proof.
  intros Hi. unfold emptyBins.
  change (map ?f (seq 0 binCount)) with (f <$> seq 0 binCount).
  rewrite list_lookup_fmap, lookup_seq_lt by exact Hi. reflexivity.
Qed.

(** X23. Asked for no bins at all, the builder throws as soon as the
    collected inputs are finite and not all the same: the counting loop
    finds no bin to count the first value in. *)
Theorem buildHistogramData_no_bin_count (experiments : list Experiment.t)
    (inputKey outputKey : string) (minOut maxOut : number) (x y : number) :
  Forall (fun v => Num.isFinite v = true)
    (collectedValues experiments inputKey outputKey minOut maxOut) ->
  x ∈ collectedValues experiments inputKey outputKey minOut maxOut ->
  y ∈ collectedValues experiments inputKey outputKey minOut maxOut ->
  x <> y ->
  buildHistogramData host experiments inputKey outputKey minOut maxOut 0
  = Throws TypeError.
Proof.
  intros Hfin Hx Hy Hxy.
  destruct (distinct_min_max _ x y Hfin Hx Hy Hxy)
    as (m & M & Hmin & Hmax & _ & Hne & Hlen).
  unfold buildHistogramData. cbv zeta.
  rewrite decide_False by now apply collectedValues_matching in Hlen.
  rewrite decide_False by exact Hlen.
  rewrite Hmin, Hmax, Hne.
  destruct (collectedValues experiments inputKey outputKey minOut maxOut)
    as [|v values]; [now apply elem_of_nil in Hx|].
  cbn [forOf emptyBins seq map]. now rewrite countValue_empty.
Qed.

(** X24. When the collected inputs are finite and not all the same and the
    builder returns, there are [binCount] bins, the label of the first
    begins with the smallest collected value and the label of the last ends
    with the largest, both written with one decimal. *)
Theorem buildHistogramData_span (experiments : list Experiment.t)
    (inputKey outputKey : string) (minOut maxOut : number) (binCount : nat)
    (h : Histogram.t) (x y : number) :
  Forall (fun v => Num.isFinite v = true)
    (collectedValues experiments inputKey outputKey minOut maxOut) ->
  x ∈ collectedValues experiments inputKey outputKey minOut maxOut ->
  y ∈ collectedValues experiments inputKey outputKey minOut maxOut ->
  x <> y ->
  buildHistogramData host experiments inputKey outputKey minOut maxOut binCount
  = Returns h ->
  let values :=
    collectedValues experiments inputKey outputKey minOut maxOut in
  length (Histogram.bins h) = binCount
  /\ exists (firstBin lastBin : HistogramBin.t) (upTo from : string),
      head (Histogram.bins h) = Some firstBin
      /\ last (Histogram.bins h) = Some lastBin
      /\ HistogramBin.binLabel firstBin
         = toFixed host (Num.min values) 1 +:+ "–" +:+ upTo
      /\ HistogramBin.binLabel lastBin
         = from +:+ "–" +:+ toFixed host (Num.max values) 1.
Proof.
  intros Hfin Hx Hy Hxy. cbv zeta.
  destruct (distinct_min_max _ x y Hfin Hx Hy Hxy)
    as (m & M & Hmin & Hmax & HmM & Hne & Hlen).
  unfold buildHistogramData. cbv zeta.
  rewrite decide_False by now apply collectedValues_matching in Hlen.
  rewrite decide_False by exact Hlen.
  rewrite Hmin, Hmax, Hne.
  destruct binCount as [|n].
  { destruct (collectedValues experiments inputKey outputKey minOut maxOut)
      as [|v values]; [now apply elem_of_nil in Hx|].
    cbn [forOf emptyBins seq map]. rewrite countValue_empty. discriminate. }
  destruct (forOf _ _ _) as [rawBins|e] eqn:Hfor; [|discriminate].
  unfold mbind, outcome_bind. intros [= <-]. cbn [Histogram.bins].
  pose proof (forOf_countValue_total _ _ _ _ _ _ Hfor) as [_ Hlenr].
  rewrite (proj2 (emptyBins_total host _ _ _ _)) in Hlenr.
  split; [exact Hlenr|].
  apply forOf_countValue_labels in Hfor.
  destruct (lookup_lt_is_Some_2 rawBins 0%nat) as [b0 Hb0]; [lia|].
  destruct (lookup_lt_is_Some_2 rawBins n) as [bn Hbn]; [lia|].
  pose proof (f_equal (fun l => l !! 0%nat) Hfor) as H0.
  pose proof (f_equal (fun l => l !! n) Hfor) as Hn.
  cbv beta in H0, Hn.
  rewrite !list_lookup_fmap, Hb0, emptyBins_lookup in H0 by lia.
  rewrite !list_lookup_fmap, Hbn, emptyBins_lookup in Hn by lia.
  cbn [fmap option_fmap option_map HistogramBin.binLabel] in H0, Hn.
  apply (inj Some) in H0. apply (inj Some) in Hn.
  assert (Hstart : (Fin m + Num.ofNat 0 * ((Fin M - Fin m) / Num.ofNat (S n)))%num
                   = Fin m).
  { change (Fin M - Fin m)%num with (Fin (M + - m)%Qc).
    rewrite div_Fin_nat by lia. unfold Num.ofNat, Num.ofZ, Num.mul, Num.add.
    f_equal. change (Q2Qc (inject_Z (Z.of_nat 0))) with 0%Qc. ring. }
  assert (Hend : (Num.ofNat n === Num.ofNat (S n) - Num.ofZ 1)%num = true).
  { rewrite ofNat_minus_one. unfold Num.ofNat.
    replace (Z.of_nat (S n) - 1) with (Z.of_nat n) by lia.
    now apply eq_refl_number. }
  rewrite Hstart in H0. rewrite Hend in Hn.
  exists b0, bn. eexists _, _.
  split; [now rewrite head_lookup|].
  split; [now rewrite last_lookup, Hlenr|].
  split; [exact H0|exact Hn].
Qed.

End HistogramGeneral.

Lemma buildHistogramData_no_bin_count_witness :
  buildHistogramData plainHost sampleRuns "Polymer 1" "Tensile Strength"
    (Num.ofZ 10) (Num.ofZ 30) 0
  = Throws TypeError.
Proof.
  apply (buildHistogramData_no_bin_count plainHost sampleRuns "Polymer 1"
           "Tensile Strength" (Num.ofZ 10) (Num.ofZ 30)
           (Num.ofZ 1) (Num.ofZ 2)).
  - vm_compute. repeat constructor.
  - vm_compute. apply elem_of_cons. now left.
  - vm_compute. apply elem_of_cons. right. apply elem_of_cons. right.
    apply elem_of_cons. now left.
  - discriminate.
Defined.

Lemma buildHistogramData_span_witness :
  let h :=
    Histogram.mk
      [ HistogramBin.mk "1.0–1.2" 2; HistogramBin.mk "1.2–1.3" 0;
        HistogramBin.mk "1.3–1.5" 0; HistogramBin.mk "1.5–1.7" 0;
        HistogramBin.mk "1.7–1.8" 0; HistogramBin.mk "1.8–2.0" 1 ]
      3 in
  let values :=
    collectedValues sampleRuns "Polymer 1" "Tensile Strength" (Num.ofZ 10)
      (Num.ofZ 30) in
  length (Histogram.bins h) = defaultBinCount
  /\ exists (firstBin lastBin : HistogramBin.t) (upTo from : string),
      head (Histogram.bins h) = Some firstBin
      /\ last (Histogram.bins h) = Some lastBin
      /\ HistogramBin.binLabel firstBin
         = toFixed plainHost (Num.min values) 1 +:+ "–" +:+ upTo
      /\ HistogramBin.binLabel lastBin
         = from +:+ "–" +:+ toFixed plainHost (Num.max values) 1.
Proof.
  apply (buildHistogramData_span plainHost sampleRuns "Polymer 1"
           "Tensile Strength" (Num.ofZ 10) (Num.ofZ 30) defaultBinCount
           (Histogram.mk
              [ HistogramBin.mk "1.0–1.2" 2; HistogramBin.mk "1.2–1.3" 0;
                HistogramBin.mk "1.3–1.5" 0; HistogramBin.mk "1.5–1.7" 0;
                HistogramBin.mk "1.7–1.8" 0; HistogramBin.mk "1.8–2.0" 1 ]
              3)
           (Num.ofZ 1) (Num.ofZ 2)).
  - vm_compute. repeat constructor.
  - vm_compute. apply elem_of_cons. now left.
  - vm_compute. apply elem_of_cons. right. apply elem_of_cons. right.
    apply elem_of_cons. now left.
  - discriminate.
  - vm_compute. reflexivity.
Defined.
